(** * kartapp: station normalisation, type filter, marker rendering, search

    A shallow embedding of the TypeScript of the map application
    (the geocode proxy [GET], and the page script with [toNumber],
    [eqType], [normalizeStation], [colorForType], [passesTypeHide],
    [firstValidLatLng], [redrawMarkers], [runSearch], [onKeydown]),
    together with the part of the JavaScript runtime these functions
    rely on (strings, numbers, values decoded from JSON, coercions).
    The stations proxy and the rest of the page script ([loadStations],
    [centerOnFirstStationOnce], [toggleType], [onMount]) follow in
    [StationsProxy] and [Page]; the debounce timer of [onInput] is left
    out.

    Conventions of the embedding.
    - A JavaScript string is a [string]: a sequence of code units below
      256.  Case mapping and white space are those of that range.
    - A JavaScript number is a [JSNum]: [NaN], an infinity, or a finite
      binary64 value given by the rational it denotes ([roundDouble]
      rounds a rational to the nearest such value, ties to even; the sign
      of zero is not kept).
    - A value decoded from JSON is a [JSValue]; an object is the list of
      its entries, read by key.
    - An operation that can raise an exception returns an [option], [None]
      standing for the exception; what the operation had written to the
      state by then is not kept.
    - Of the map library, one thing is modelled: a position is refused,
      with an exception, when its latitude or longitude is NaN
      ([latLng]).  For the rest, the state of the page records what the
      script hands to the library (markers, popups, view requests).
    - [new Response] raises an exception for a status outside 200-599
      and for a status that allows no body ([Proxy.newResponse]).
    - The clock is an argument: [normalizeStation] takes the reading
      [new Date().toISOString()] would give at the call. *)

From Stdlib Require Import ZArith QArith Qround Bool List Lia.
From Stdlib Require Import Strings.Ascii Strings.String Numbers.DecimalString.
Import ListNotations.

Local Open Scope string_scope.
Local Open Scope Z_scope.

(* ================================================================== *)
(** ** Strings *)

Module Str.

(** White space and line terminators among the code units below 256:
    TAB, LF, VT, FF, CR, SP and NBSP. *)
Definition isWhiteSpace (c : ascii) : bool :=
  let n := N_of_ascii c in
  ((9 <=? n) && (n <=? 13) || (n =? 32) || (n =? 160))%N.

Fixpoint trimStart (s : string) : string :=
  match s with
  | String c s' => if isWhiteSpace c then trimStart s' else s
  | EmptyString => EmptyString
  end.

Fixpoint trimEnd (s : string) : string :=
  match s with
  | String c s' =>
      match trimEnd s' with
      | EmptyString => if isWhiteSpace c then EmptyString else String c EmptyString
      | r => String c r
      end
  | EmptyString => EmptyString
  end.

(** [String.prototype.trim]. *)
Definition trim (s : string) : string := trimEnd (trimStart s).

(** Lower-case mapping of one code unit: A-Z, and the capital letters
    U+00C0-U+00DE except the multiplication sign U+00D7. *)
Definition lowerChar (c : ascii) : ascii :=
  let n := N_of_ascii c in
  if ((65 <=? n) && (n <=? 90) || (192 <=? n) && (n <=? 222) && negb (n =? 215))%N
  then ascii_of_N (n + 32) else c.

(** [String.prototype.toLowerCase]. *)
Fixpoint toLowerCase (s : string) : string :=
  match s with
  | String c s' => String (lowerChar c) (toLowerCase s')
  | EmptyString => EmptyString
  end.

Fixpoint drop (n : nat) (s : string) : string :=
  match n, s with
  | S n', String _ s' => drop n' s'
  | _, _ => s
  end.

(** [String.prototype.replace] with a string pattern: the first
    occurrence of [pat] is replaced by [rep] (which holds no [$]). *)
Fixpoint replace (pat rep s : string) {struct s} : string :=
  if prefix pat s then rep ++ drop (String.length pat) s
  else match s with
       | String c s' => String c (replace pat rep s')
       | EmptyString => EmptyString
       end.

Definition isDigit (c : ascii) : bool :=
  let n := N_of_ascii c in ((48 <=? n) && (n <=? 57))%N.

Fixpoint allDigits (s : string) : bool :=
  match s with
  | String c s' => isDigit c && allDigits s'
  | EmptyString => true
  end.

Fixpoint allWhite (s : string) : bool :=
  match s with
  | String c s' => isWhiteSpace c && allWhite s'
  | EmptyString => true
  end.

(** [n] copies of the code unit [c]. *)
Fixpoint repeat (c : ascii) (n : nat) : string :=
  match n with
  | O => EmptyString
  | S n' => String c (repeat c n')
  end.

End Str.

(* ================================================================== *)
(** ** Numbers *)

Inductive JSNum : Type :=
| NaN
| Inf (negative : bool)
| Fin (q : Q).

Module Num.

Definition zero : JSNum := Fin 0.

(** [Number.isFinite] on a number. *)
Definition isFinite (x : JSNum) : bool :=
  match x with Fin _ => true | _ => false end.

Definition isNaN (x : JSNum) : bool :=
  match x with NaN => true | _ => false end.

Definition pow2 (e : Z) : Q :=
  if 0 <=? e then inject_Z (2 ^ e) else 1 # Z.to_pos (2 ^ (- e)).

Definition pow10 (e : Z) : Q :=
  if 0 <=? e then inject_Z (10 ^ e) else 1 # Z.to_pos (10 ^ (- e)).

Definition Qltb (a b : Q) : bool :=
  match Qcompare a b with Lt => true | _ => false end.

Definition Qeqb (a b : Q) : bool :=
  match Qcompare a b with Eq => true | _ => false end.

(** The integer [e] with [2^e <= n/d < 2^(e+1)], for [n], [d] positive. *)
Definition floorLog2 (n d : Z) : Z :=
  let e0 := Z.log2 n - Z.log2 d in
  if Qltb (n # Z.to_pos d) (pow2 e0) then e0 - 1 else e0.

(** The binary64 value nearest to the rational [q], ties to even:
    53 bits of precision, least exponent -1022 (below it the spacing
    stays [2^-1074]), and an infinity from [2^1024] on. *)
Definition roundDouble (q : Q) : JSNum :=
  match Qnum q with
  | 0 => Fin 0
  | num =>
      let n := Z.abs num in
      let d := Zpos (Qden q) in
      let t := Z.max (floorLog2 n d) (-1022) - 52 in
      let N := if t <? 0 then n * 2 ^ (- t) else n in
      let D := if t <? 0 then d else d * 2 ^ t in
      let m := N / D in
      let r := N mod D in
      let m' := if 2 * r <? D then m
                else if D <? 2 * r then m + 1
                else if Z.even m then m else m + 1 in
      if (0 <=? t) && (2 ^ 1024 <=? m' * 2 ^ t) then Inf (num <? 0)
      else Fin (Qred (inject_Z (Z.sgn num * m') * pow2 t)%Q)
  end.

End Num.

(* ================================================================== *)
(** ** Number to string and string to number *)

Module NumStr.
Import Num.

Definition digitsOf (n : Z) : string :=
  NilZero.string_of_uint (N.to_uint (Z.to_N n)).

(** A first guess of the decimal exponent from the binary one, then
    adjusted: the integer [k] with [10^k <= x < 10^(k+1)], [x > 0]. *)
Definition floorLog10 (x : Q) : Z :=
  let g := (floorLog2 (Qnum x) (Zpos (Qden x)) * 30103) / 100000 in
  if Qltb x (pow10 (g - 1)) then g - 2
  else if Qltb x (pow10 g) then g - 1
  else if Qltb x (pow10 (g + 1)) then g
  else if Qltb x (pow10 (g + 2)) then g + 1
  else g + 2.

Fixpoint stripZeros (fuel : nat) (s : Z) : Z :=
  match fuel with
  | O => s
  | S f => if (s mod 10 =? 0) && negb (s =? 0) then stripZeros f (s / 10) else s
  end.

(** The [k]-digit decimals next to [x] (below and above), kept when they
    denote [x]; of two that do, the nearer, and the even one on a tie.
    The result is the integer [s] and the exponent [p] of [s * 10^p]. *)
Definition tryDigits (x : Q) (n0 k : Z) : option (Z * Z) :=
  let p := n0 - k in
  let c := Qfloor (x * pow10 (- p))%Q in
  let lo := (inject_Z c * pow10 p)%Q in
  let hi := (inject_Z (c + 1) * pow10 p)%Q in
  let same v := match roundDouble v with Fin y => Qeqb y x | _ => false end in
  match same lo, same hi with
  | true, true =>
      let dl := (x - lo)%Q in
      let dh := (hi - x)%Q in
      if Qltb dl dh then Some (c, p)
      else if Qltb dh dl then Some (c + 1, p)
      else if Z.even c then Some (c, p) else Some (c + 1, p)
  | true, false => Some (c, p)
  | false, true => Some (c + 1, p)
  | false, false => None
  end.

Fixpoint shortest (fuel : nat) (x : Q) (n0 k : Z) : Z * Z :=
  match fuel with
  | O => (Qfloor (x * pow10 (- (n0 - k)))%Q, n0 - k)
  | S f =>
      match tryDigits x n0 k with
      | Some r => r
      | None => shortest f x n0 (k + 1)
      end
  end.

(** [Number::toString] of a positive finite value, from the digits [s]
    (with [k] of them) and the exponent [n] of [0.s * 10^n]. *)
Definition formatDigits (s n : Z) : string :=
  let ds := digitsOf s in
  let k := Z.of_nat (String.length ds) in
  if (k <=? n) && (n <=? 21) then
    ds ++ Str.repeat "0"%char (Z.to_nat (n - k))
  else if (0 <? n) && (n <=? 21) then
    substring 0 (Z.to_nat n) ds ++ "." ++ Str.drop (Z.to_nat n) ds
  else if (-6 <? n) && (n <=? 0) then
    "0." ++ Str.repeat "0"%char (Z.to_nat (- n)) ++ ds
  else
    let e := n - 1 in
    let es := (if e <? 0 then "-" else "+") ++ digitsOf (Z.abs e) in
    if k =? 1 then ds ++ "e" ++ es
    else substring 0 1 ds ++ "." ++ Str.drop 1 ds ++ "e" ++ es.

Definition positiveToString (x : Q) : string :=
  let n0 := floorLog10 x + 1 in
  let '(s0, p) := shortest 17 x n0 1 in
  let s := stripZeros 400 s0 in
  let n := p + Z.of_nat (String.length (digitsOf s0)) in
  formatDigits s n.

(** [Number::toString] (radix 10). *)
Definition toString (x : JSNum) : string :=
  match x with
  | NaN => "NaN"
  | Inf false => "Infinity"
  | Inf true => "-Infinity"
  | Fin q =>
      match roundDouble q with
      | Fin y =>
          match Qnum y with
          | 0 => "0"
          | Zpos _ => positiveToString y
          | Zneg _ => "-" ++ positiveToString (- y)%Q
          end
      | Inf false => "Infinity"
      | Inf true => "-Infinity"
      | NaN => "NaN"
      end
  end.

(** *** StringToNumber *)

(** The longest prefix of decimal digits, and the rest. *)
Fixpoint spanDigits (s : string) : string * string :=
  match s with
  | String c s' =>
      if Str.isDigit c then let '(d, r) := spanDigits s' in (String c d, r)
      else (EmptyString, s)
  | EmptyString => (EmptyString, EmptyString)
  end.

Definition digitVal (c : ascii) : Z := Z.of_N (N_of_ascii c) - 48.

(** The value of a string of decimal digits, read after [acc]. *)
Fixpoint decValue (acc : Z) (s : string) : Z :=
  match s with
  | String c s' => decValue (10 * acc + digitVal c) s'
  | EmptyString => acc
  end.

(** The value of a hexadecimal, octal or binary digit below [radix]. *)
Definition radixDigit (radix : Z) (c : ascii) : option Z :=
  let n := Z.of_N (N_of_ascii c) in
  let v := if (48 <=? n) && (n <=? 57) then n - 48
           else if (97 <=? n) && (n <=? 102) then n - 87
           else if (65 <=? n) && (n <=? 70) then n - 55
           else 99 in
  if v <? radix then Some v else None.

Fixpoint radixValue (radix acc : Z) (s : string) : option Z :=
  match s with
  | String c s' =>
      match radixDigit radix c with
      | Some v => radixValue radix (radix * acc + v) s'
      | None => None
      end
  | EmptyString => Some acc
  end.

(** ExponentPart (optional): [e] or [E], an optional sign, digits;
    nothing may follow. *)
Definition exponentPart (s : string) : option Z :=
  match s with
  | EmptyString => Some 0
  | String c r =>
      if (c =? "e")%char || (c =? "E")%char then
        let '(neg, ds) :=
          match r with
          | String "-" r' => (true, r')
          | String "+" r' => (false, r')
          | _ => (false, r)
          end in
        match ds with
        | EmptyString => None
        | _ => if Str.allDigits ds
               then Some (if neg then - decValue 0 ds else decValue 0 ds)
               else None
        end
      else None
  end.

(** StrUnsignedDecimalLiteral, but for [Infinity]: the mathematical
    value of [digits . digits? exp?], [. digits exp?] or [digits exp?]. *)
Definition unsignedDecimal (s : string) : option Q :=
  let '(ip, r1) := spanDigits s in
  let '(dot, (fp, r2)) :=
    match r1 with
    | String "." r => (true, spanDigits r)
    | _ => (false, (EmptyString, r1))
    end in
  match ip, fp with
  | EmptyString, EmptyString => None
  | _, _ =>
      match exponentPart r2 with
      | Some e =>
          Some (inject_Z (decValue 0 (ip ++ fp))
                * pow10 (e - Z.of_nat (String.length fp)))%Q
      | None => None
      end
  end.

(** StrDecimalLiteral: an optional sign, then [Infinity] or an unsigned
    decimal literal, rounded to a number. *)
Definition strDecimalLiteral (s : string) : option JSNum :=
  let '(neg, u) :=
    match s with
    | String "-" r => (true, r)
    | String "+" r => (false, r)
    | _ => (false, s)
    end in
  if (u =? "Infinity")%string then Some (Inf neg)
  else match unsignedDecimal u with
       | Some q => Some (roundDouble (if neg then (- q)%Q else q))
       | None => None
       end.

(** NonDecimalIntegerLiteral: [0x], [0o], [0b] (either case) and at least
    one digit of that radix; no sign. *)
Definition nonDecimalLiteral (s : string) : option JSNum :=
  match s with
  | String "0" (String c ds) =>
      let radix :=
        if (c =? "x")%char || (c =? "X")%char then 16
        else if (c =? "o")%char || (c =? "O")%char then 8
        else if (c =? "b")%char || (c =? "B")%char then 2
        else 0 in
      match ds with
      | EmptyString => None
      | _ => if radix =? 0 then None
             else option_map (fun v => roundDouble (inject_Z v))
                             (radixValue radix 0 ds)
      end
  | _ => None
  end.

(** StrNumericLiteral. *)
Definition strNumericLiteral (s : string) : option JSNum :=
  match nonDecimalLiteral s with
  | Some v => Some v
  | None => strDecimalLiteral s
  end.

(** StringToNumber: white space is trimmed; the empty string is [0],
    a numeric literal its value, anything else [NaN]. *)
Definition toNumber (s : string) : JSNum :=
  match Str.trim s with
  | EmptyString => zero
  | t => match strNumericLiteral t with
         | Some v => v
         | None => NaN
         end
  end.

End NumStr.

(* ================================================================== *)
(** ** Values decoded from JSON, property reads and coercions *)

#[local] Set Warnings "-register-all".

Inductive JSValue : Type :=
| JUndefined
| JNull
| JBool (b : bool)
| JNumber (x : JSNum)
| JString (s : string)
| JArray (items : list JSValue)
| JObject (entries : list (string * JSValue)).

(** Exceptions: [None] is a raised exception. *)
Notation "'do' x <- e1 ; e2" :=
  (match e1 with Some x => e2 | None => None end)
  (at level 10, x name, e1 at level 100, e2 at level 200).

Module Val.

(** [v == null]: true of [null] and [undefined] only. *)
Definition isNullish (v : JSValue) : bool :=
  match v with JUndefined | JNull => true | _ => false end.

(** [a ?? b]. *)
Definition coalesce (a b : JSValue) : JSValue :=
  if isNullish a then b else a.

Fixpoint lookup (k : string) (es : list (string * JSValue)) : option JSValue :=
  match es with
  | (k', v) :: r => if (k' =? k)%string then Some v else lookup k r
  | [] => None
  end.

Definition hasOwn (k : string) (es : list (string * JSValue)) : bool :=
  match lookup k es with Some _ => true | None => false end.

(** [v.k] for a [v] that is neither [null] nor [undefined], and a key
    [k] that no prototype defines (none of the keys the program reads is
    a property of strings, arrays, numbers or booleans): the entry of
    an object, [undefined] otherwise. *)
Definition prop (v : JSValue) (k : string) : JSValue :=
  match v with
  | JObject es => match lookup k es with Some x => x | None => JUndefined end
  | _ => JUndefined
  end.

(** [v?.k]. *)
Definition optProp (v : JSValue) (k : string) : JSValue :=
  if isNullish v then JUndefined else prop v k.

(** [v.k] where [v] may be [null] or [undefined]: a TypeError then. *)
Definition propE (v : JSValue) (k : string) : option JSValue :=
  if isNullish v then None else Some (prop v k).

(** ToString.  An array joins its elements with commas, [null] and
    [undefined] elements giving the empty string.  An object decoded
    from JSON gives ["[object Object]"], unless it has an entry named
    [toString]: that entry hides [Object.prototype.toString] and is not
    callable, and the conversion raises a TypeError. *)
Fixpoint ToString (v : JSValue) : option string :=
  match v with
  | JUndefined => Some "undefined"
  | JNull => Some "null"
  | JBool b => Some (if b then "true" else "false")
  | JNumber x => Some (NumStr.toString x)
  | JString s => Some s
  | JArray items =>
      option_map (String.concat ",")
        ((fix each (l : list JSValue) : option (list string) :=
            match l with
            | [] => Some []
            | x :: r =>
                do a <- (match x with
                         | JUndefined | JNull => Some ""
                         | _ => ToString x
                         end);
                do b <- each r;
                Some (a :: b)
            end) items)
  | JObject es =>
      if hasOwn "toString" es then None else Some "[object Object]"
  end.

(** ToPrimitive: arrays and objects convert through [toString]
    ([valueOf] returns the object itself). *)
Definition ToPrimitive (v : JSValue) : option JSValue :=
  match v with
  | JArray _ | JObject _ => option_map JString (ToString v)
  | _ => Some v
  end.

(** ToNumber, the conversion [Number(v)] applies. *)
Definition ToNumber (v : JSValue) : option JSNum :=
  match v with
  | JUndefined => Some NaN
  | JNull => Some Num.zero
  | JBool b => Some (if b then Fin 1 else Num.zero)
  | JNumber x => Some x
  | JString s => Some (NumStr.toNumber s)
  | JArray _ | JObject _ => option_map NumStr.toNumber (ToString v)
  end.

(** ToBoolean. *)
Definition ToBoolean (v : JSValue) : bool :=
  match v with
  | JUndefined | JNull => false
  | JBool b => b
  | JNumber (Fin q) => negb (Num.Qeqb q 0)
  | JNumber NaN => false
  | JNumber (Inf _) => true
  | JString s => negb (s =? "")%string
  | JArray _ | JObject _ => true
  end.

End Val.

Infix "??" := Val.coalesce (at level 45, left associativity).
Notation "v '?.' k" := (Val.optProp v k) (at level 1, k at level 0, left associativity).
Notation "v '.[' k ']'" := (Val.prop v k) (at level 1, left associativity).

(* ================================================================== *)
(** ** The geocode proxy (server endpoint) *)

Module Proxy.

Definition NOMINATIM : string := "https://nominatim.openstreetmap.org/search".

(** The two query parameters the handler reads:
    [url.searchParams.get] gives a string or [null]. *)
Record Request := { req_q : option string; req_limit : option string }.

Record Response := {
  status : Z;
  body : string;
  headers : list (string * string)
}.

(** What the upstream service answered: status, body text and its
    [content-type] header, if any. *)
Record Upstream := {
  up_status : Z;
  up_body : string;
  up_contentType : option string
}.

(** The upstream call: base URL, search parameters in the order they
    are set, request headers. *)
Record Call := {
  call_base : string;
  call_params : list (string * string);
  call_headers : list (string * string)
}.

(** The statuses that allow no body. *)
Definition nullBodyStatus (status : Z) : bool :=
  (status =? 101) || (status =? 103) || (status =? 204) || (status =? 205)
  || (status =? 304).

(** [new Response(body, { status, headers })] with a string for body
    (what [r.text()] gives, the empty string included): a RangeError
    for a status outside 200-599, a TypeError for a status that allows
    no body. *)
Definition newResponse (status : Z) (body : string)
           (headers : list (string * string)) : option Response :=
  if (status <? 200) || (599 <? status) || nullBodyStatus status then None
  else Some {| status := status; body := body; headers := headers |}.

(** A handler either answers at once, or awaits one upstream call and
    answers from its response; [None]: an exception leaves the
    handler. *)
Inductive Handler : Type :=
| Respond (r : Response)
| Await (c : Call) (k : Upstream -> option Response).

Definition GET (rq : Request) : Handler :=
  let q := req_q rq in
  let limit := match req_limit rq with Some l => l | None => "8" end in
  match q with
  | None =>
      Respond {| status := 200; body := "[]";
                 headers := [("content-type", "application/json")] |}
  | Some qs =>
      if (qs =? "")%string || (String.length (Str.trim qs) <? 2)%nat then
        Respond {| status := 200; body := "[]";
                   headers := [("content-type", "application/json")] |}
      else
        Await {| call_base := NOMINATIM;
                 call_params := [("format", "jsonv2"); ("addressdetails", "1");
                                 ("limit", limit); ("q", qs)];
                 call_headers := [("accept", "application/json");
                                  ("user-agent", "Unox-Map/1.0 (contact: it@unox.no)")] |}
              (fun r =>
                 newResponse (up_status r) (up_body r)
                   [("content-type",
                     match up_contentType r with
                     | Some ct => ct
                     | None => "application/json"
                     end);
                    ("cache-control", "public, max-age=60")])
  end.

(** The upstream calls a handler makes. *)
Definition calls (h : Handler) : list Call :=
  match h with
  | Respond _ => []
  | Await c _ => [c]
  end.

End Proxy.

(* ================================================================== *)
(** ** The page script: normalisation, filter, markers *)

Module App.
Import Val.

(** The record [normalizeStation] returns.  [name], [lastUpdated] and
    [stationType] are whatever the raw record holds ([any]);
    [lat] and [lng] are [number | null]. *)
Record NormalizedStation := {
  name : JSValue;
  lat : option JSNum;
  lng : option JSNum;
  lastUpdated : JSValue;
  stationType : JSValue
}.

Record TypeFilter := {
  hideWash : bool;
  hideSelfservice : bool;
  hideTruck : bool;
  hideChargingLocation : bool
}.

Definition toNumber (n : JSValue) : option JSNum :=
  match n with
  | JNumber x => if Num.isFinite x then Some x else None
  | JString str =>
      let s := Str.replace "," "." str in
      let v := NumStr.toNumber s in
      if Num.isFinite v then Some v else None
  | _ => None
  end.

Definition eqType (a : JSValue) (b : string) : option bool :=
  if isNullish a then Some false
  else
    do s <- ToString a;
    Some (Str.toLowerCase (Str.trim s) =? Str.toLowerCase b)%string.

Definition fallbackName : string := "Ukjent stasjon".

(** [now] is [new Date().toISOString()], the clock read at the call; it
    is used only when the record has none of the four time stamps. *)
Definition normalizeStation (now : string) (s : JSValue) : NormalizedStation :=
  let name :=
    s?."station"?."name" ?? s?."name" ?? s?."title" ?? s?."stationName"
      ?? JString fallbackName in
  let g := s?."station"?."geolocation" ?? s?."geolocation" ?? s?."geo" ?? s
             ?? JObject [] in
  let lat :=
    toNumber (g.["latitude"] ?? g.["lat"] ?? g.["Latitude"] ?? g.["Lat"]
                ?? s?."lat" ?? s?."Latitude") in
  let lng :=
    toNumber (g.["longitude"] ?? g.["lng"] ?? g.["Longitude"] ?? g.["Lng"]
                ?? s?."lng" ?? s?."Longitude") in
  let lastUpdated :=
    s?."lastUpdated" ?? s?."updatedAt" ?? s?."modified" ?? s?."lastModified"
      ?? JString now in
  let stationType := s?."station"?."stationType" ?? s?."stationType" ?? JNull in
  {| name := name; lat := lat; lng := lng;
     lastUpdated := lastUpdated; stationType := stationType |}.

Record Color := { stroke : string; fill : string }.

Definition YELLOW : Color := {| stroke := "#f57f17"; fill := "#fbc02d" |}.
Definition RED : Color := {| stroke := "#b71c1c"; fill := "#f44336" |}.

Definition colorForType (stationType : JSValue) : option Color :=
  if negb (ToBoolean stationType) then Some RED
  else
    do s <- ToString stationType;
    let t := Str.toLowerCase s in
    if (t =? "charginglocation")%string || (t =? "truck")%string
       || (t =? "selfservice")%string || (t =? "wash")%string
    then Some YELLOW
    else Some RED.

(** [f && eqType(a, b)]: the comparison is evaluated only when the
    flag is on. *)
Definition flagged (f : bool) (a : JSValue) (b : string) : option bool :=
  if f then eqType a b else Some false.

Definition passesTypeHide (typeFilter : TypeFilter) (n : NormalizedStation)
  : option bool :=
  do h1 <- flagged (hideWash typeFilter) (stationType n) "wash";
  if h1 then Some false else
  do h2 <- flagged (hideSelfservice typeFilter) (stationType n) "selfservice";
  if h2 then Some false else
  do h3 <- flagged (hideTruck typeFilter) (stationType n) "truck";
  if h3 then Some false else
  do h4 <- flagged (hideChargingLocation typeFilter) (stationType n)
                   "charginglocation";
  if h4 then Some false else
  Some true.

(** The clock of a loop over the station list: [clock i] is what
    [new Date().toISOString()] gives in the iteration of index [i]. *)
Definition Clock := nat -> string.

Fixpoint firstValidFrom (clock : Clock) (i : nat) (items : list JSValue)
  : option NormalizedStation :=
  match items with
  | s :: rest =>
      let n := normalizeStation (clock i) s in
      match lat n, lng n with
      | Some _, Some _ => Some n
      | _, _ => firstValidFrom clock (S i) rest
      end
  | [] => None
  end.

Definition firstValidLatLng (clock : Clock) (items : list JSValue)
  : option NormalizedStation :=
  firstValidFrom clock 0 items.

(** The popup of a marker: the name and the type as the template
    literals convert them, and the primitive value handed to [Date]
    (the text of the date depends on locale and time zone). *)
Record Popup := {
  title : string;
  typeLine : option string;
  updated : JSValue
}.

Record Marker := {
  position : JSNum * JSNum;
  color : Color;
  popup : Popup
}.

Definition bindPopup (n : NormalizedStation) : option Popup :=
  do t <- ToString (name n);
  do ty <- (if ToBoolean (stationType n)
            then option_map Some (ToString (stationType n))
            else Some None);
  do d <- ToPrimitive (lastUpdated n);
  Some {| title := t; typeLine := ty; updated := d |}.

(** One iteration of the loop of [redrawMarkers]: [Some None] when the
    station is skipped ([continue]), [Some (Some m)] when the marker [m]
    is added, [None] when an exception is raised. *)
Definition drawStation (typeFilter : TypeFilter) (now : string) (s : JSValue)
  : option (option Marker) :=
  let n := normalizeStation now s in
  match lat n, lng n with
  | Some la, Some lo =>
      do pass <- passesTypeHide typeFilter n;
      if negb pass then Some None else
      do col <- colorForType (stationType n);
      do pop <- bindPopup n;
      Some (Some {| position := (la, lo); color := col; popup := pop |})
  | _, _ => Some None
  end.

Fixpoint drawFrom (typeFilter : TypeFilter) (clock : Clock) (i : nat)
         (items : list JSValue) : option (list Marker) :=
  match items with
  | s :: rest =>
      do r <- drawStation typeFilter (clock i) s;
      do ms <- drawFrom typeFilter clock (S i) rest;
      Some (match r with Some m => m :: ms | None => ms end)
  | [] => Some []
  end.

(** *** State of the page *)

(** An entry of the result list of the search. *)
Record SearchResult := {
  display : JSValue;
  r_lat : JSNum;
  r_lon : JSNum;
  bbox : option (list JSNum)
}.

(** What the script last asked of the map's viewport. *)
Inductive View : Type :=
| SetView (center : JSNum * JSNum) (zoom : Z)
| FitBounds (southWest northEast : JSNum * JSNum) (pad : Q).

(** The variables of the script.  [map] is [None] until [onMount] has
    created the map; [markersGroup] is the layer of station markers;
    [searchMarker] is the position and popup text handed to
    [L.circleMarker] (what Leaflet does with them is not modelled). *)
Record State := {
  map : option View;
  markersGroup : option (list Marker);
  searchMarker : option (JSNum * JSNum * string);
  stations : list JSValue;
  visibleCount : nat;
  typeFilter : TypeFilter;
  q : JSValue;
  results : list SearchResult;
  searching : bool;
  showList : bool;
  activeIndex : Z
}.

Definition setMarkers (ms : list Marker) (st : State) : State :=
  {| map := map st; markersGroup := Some ms; searchMarker := searchMarker st;
     stations := stations st; visibleCount := List.length ms;
     typeFilter := typeFilter st; q := q st; results := results st;
     searching := searching st; showList := showList st;
     activeIndex := activeIndex st |}.

Definition setSearch (rs : list SearchResult) (show : bool) (active : Z)
           (busy : bool) (st : State) : State :=
  {| map := map st; markersGroup := markersGroup st;
     searchMarker := searchMarker st; stations := stations st;
     visibleCount := visibleCount st; typeFilter := typeFilter st; q := q st;
     results := rs; searching := busy; showList := show;
     activeIndex := active |}.

Definition setSearching (busy : bool) (st : State) : State :=
  setSearch (results st) (showList st) (activeIndex st) busy st.

Definition setTypeFilter (f : TypeFilter) (st : State) : State :=
  {| map := map st; markersGroup := markersGroup st;
     searchMarker := searchMarker st; stations := stations st;
     visibleCount := visibleCount st; typeFilter := f; q := q st;
     results := results st; searching := searching st;
     showList := showList st; activeIndex := activeIndex st |}.

(** The old layer is removed and a new one filled from the station
    list; [visibleCount] is written after the loop.  [None]: an
    exception left the function. *)
Definition redrawMarkers (clock : Clock) (st : State) : option State :=
  match map st with
  | None => Some st
  | Some _ =>
      do ms <- drawFrom (typeFilter st) clock 0 (stations st);
      Some (setMarkers ms st)
  end.

Definition resetTypeFilters (clock : Clock) (st : State) : option State :=
  redrawMarkers clock
    (setTypeFilter {| hideWash := false; hideSelfservice := false;
                      hideTruck := false; hideChargingLocation := false |} st).

(** *** Search *)

Definition GEOCODE_ENDPOINT : string := "/api/geocode".

(** What [fetch] gave: [ok], the status, and the decoded body
    ([None] when [r.json()] rejects). *)
Record FetchResponse := {
  ok : bool;
  resp_status : Z;
  json : option JSValue
}.

(** A search either settles at once or awaits the proxy; the
    continuation runs on the state found when the response arrives
    ([None]: [fetch] rejected). *)
Inductive Search : Type :=
| Settled (st : State)
| Fetching (st : State) (url : string) (params : list (string * string))
           (k : option FetchResponse -> State -> State).

Fixpoint mapE {A B : Type} (f : A -> option B) (l : list A) : option (list B) :=
  match l with
  | x :: r => do y <- f x; do ys <- mapE f r; Some (y :: ys)
  | [] => Some []
  end.

(** The callback of [data.map]: one entry of the response. *)
Definition toResult (d : JSValue) : option SearchResult :=
  do dn <- propE d "display_name";
  do la <- (do v <- propE d "lat"; ToNumber v);
  do lo <- (do v <- propE d "lon"; ToNumber v);
  do bb0 <- propE d "boundingbox";
  do bb <- (if isNullish bb0 then Some None
            else match bb0 with
                 | JArray items => option_map Some (mapE ToNumber items)
                 | _ => None
                 end);
  Some {| display := dn; r_lat := la; r_lon := lo; bbox := bb |}.

(** The body of the [try] after the response has arrived. *)
Definition parseResponse (r : option FetchResponse) : option (list SearchResult) :=
  do resp <- r;
  if negb (ok resp) then None else
  do data <- json resp;
  mapE toResult (match data with JArray items => items | _ => [] end).

Definition onResponse (r : option FetchResponse) (st : State) : State :=
  match parseResponse r with
  | Some rs => setSearch rs true (match rs with [] => -1 | _ => 0 end) false st
  | None => setSearch [] false (-1) false st
  end.

Definition runSearch (term : string) (st : State) : Search :=
  if (term =? "")%string || (String.length (Str.trim term) <? 2)%nat then
    Settled (setSearch [] false (-1) (searching st) st)
  else
    Fetching (setSearching true st) GEOCODE_ENDPOINT
             [("q", term); ("limit", "8")] onResponse.

(** The requests a search sends. *)
Definition requests (s : Search) : list (string * list (string * string)) :=
  match s with
  | Settled _ => []
  | Fetching _ url params _ => [(url, params)]
  end.

(** [new L.LatLng(lat, lng)], which [L.circleMarker] and
    [L.latLngBounds] run on each pair of numbers they are given: an
    Error ('Invalid LatLng object') when one of the two is NaN. *)
Definition latLng (la lo : JSNum) : option (JSNum * JSNum) :=
  if Num.isNaN la || Num.isNaN lo then None else Some (la, lo).

(** [None]: an exception left the function (what it had written to
    [q] and [showList] by then is not kept). *)
Definition selectResult (r : SearchResult) (st : State) : option State :=
  match map st with
  | None => None
  | Some _ =>
      do at_ <- latLng (r_lat r) (r_lon r);
      do text <- ToString (display r);
      do view <- match bbox r with
                 | Some [south; north; west; east] =>
                     do sw <- latLng south west;
                     do ne <- latLng north east;
                     Some (FitBounds sw ne (1 # 10))
                 | _ => Some (SetView at_ 13)
                 end;
      Some {| map := Some view; markersGroup := markersGroup st;
              searchMarker := Some (at_, text);
              stations := stations st; visibleCount := visibleCount st;
              typeFilter := typeFilter st; q := display r;
              results := results st; searching := searching st;
              showList := false; activeIndex := activeIndex st |}
  end.

Inductive Key : Type := ArrowDown | ArrowUp | Enter | Escape | OtherKey.

Definition onKeydown (key : Key) (st : State) : option State :=
  if negb (showList st) || (List.length (results st) =? 0)%nat then Some st
  else
    let len := Z.of_nat (List.length (results st)) in
    match key with
    | ArrowDown =>
        Some (setSearch (results st) (showList st)
                        (Z.rem (activeIndex st + 1) len) (searching st) st)
    | ArrowUp =>
        Some (setSearch (results st) (showList st)
                        (Z.rem (activeIndex st - 1 + len) len) (searching st) st)
    | Enter =>
        if 0 <=? activeIndex st then
          do r <- nth_error (results st) (Z.to_nat (activeIndex st));
          selectResult r st
        else Some st
    | Escape =>
        Some (setSearch (results st) false (activeIndex st) (searching st) st)
    | OtherKey => Some st
    end.

End App.

(* ================================================================== *)
(** * Vocabulary of the properties *)

Section Vocabulary.
Import Val App.

(** [number | null] where the number is finite. *)
Definition finiteOrNull (c : option JSNum) : bool :=
  match c with
  | Some x => Num.isFinite x
  | None => true
  end.

(** The two coordinates of a station. *)
Inductive Axis : Type := Latitude | Longitude.

Definition coordinate (a : Axis) (n : NormalizedStation) : option JSNum :=
  match a with Latitude => lat n | Longitude => lng n end.

(** The keys tried on the geolocation sub-object, in order. *)
Definition subKeys (a : Axis) : list string :=
  match a with
  | Latitude => ["latitude"; "lat"; "Latitude"; "Lat"]
  | Longitude => ["longitude"; "lng"; "Longitude"; "Lng"]
  end.

(** The two top-level keys tried after them. *)
Definition topKeys (a : Axis) : string * string :=
  match a with
  | Latitude => ("lat", "Latitude")
  | Longitude => ("lng", "Longitude")
  end.

(** The geolocation sub-object [g] of [normalizeStation]. *)
Definition geolocationOf (s : JSValue) : JSValue :=
  s?."station"?."geolocation" ?? s?."geolocation" ?? s?."geo" ?? s ?? JObject [].

(** The value a coordinate is coerced from: the first, among the keys
    of the sub-object and then the two top-level keys, that is neither
    null nor undefined. *)
Definition rawCoordinate (a : Axis) (s : JSValue) : JSValue :=
  let g := geolocationOf s in
  match a with
  | Latitude =>
      g.["latitude"] ?? g.["lat"] ?? g.["Latitude"] ?? g.["Lat"]
        ?? s?."lat" ?? s?."Latitude"
  | Longitude =>
      g.["longitude"] ?? g.["lng"] ?? g.["Longitude"] ?? g.["Lng"]
        ?? s?."lng" ?? s?."Longitude"
  end.

(** The first of a list of values that is neither null nor undefined,
    else the default. *)
Fixpoint firstPresent (candidates : list JSValue) (default : JSValue) : JSValue :=
  match candidates with
  | v :: rest => if isNullish v then firstPresent rest default else v
  | [] => default
  end.

(** The four time stamp fields, in the order they are tried. *)
Definition timeStamps (s : JSValue) : list JSValue :=
  [s?."lastUpdated"; s?."updatedAt"; s?."modified"; s?."lastModified"].

(** The record has one of the four time stamps. *)
Definition hasTimeStamp (s : JSValue) : bool :=
  existsb (fun v => negb (isNullish v)) (timeStamps s).

(** The four name fields, in the order they are tried. *)
Definition nameFields (s : JSValue) : list JSValue :=
  [s?."station"?."name"; s?."name"; s?."title"; s?."stationName"].

(** A station type of the data model, [string | null], as a value. *)
Definition typeValue (t : option string) : JSValue :=
  match t with
  | Some s => JString s
  | None => JNull
  end.

(** The rule in the specification's words: the type, trimmed and
    lower-cased, equals one of the four literals and that literal's
    hide-flag is on. *)
Definition hiddenByType (f : TypeFilter) (t : option string) : bool :=
  match t with
  | None => false
  | Some s =>
      let k := Str.toLowerCase (Str.trim s) in
      (hideWash f && (k =? "wash")%string)
      || (hideSelfservice f && (k =? "selfservice")%string)
      || (hideTruck f && (k =? "truck")%string)
      || (hideChargingLocation f && (k =? "charginglocation")%string)
  end.

(** Shorter than two characters once trimmed. *)
Definition tooShort (s : string) : Prop := (String.length (Str.trim s) < 2)%nat.

(** The answer of the proxy to such a query. *)
Definition emptyAnswer : Proxy.Response :=
  {| Proxy.status := 200; Proxy.body := "[]";
     Proxy.headers := [("content-type", "application/json")] |}.

(** A number as [number | null]: null when it is not finite. *)
Definition finiteOnly (x : JSNum) : option JSNum :=
  if Num.isFinite x then Some x else None.

(** Not an array, not an object. *)
Definition primitive (v : JSValue) : bool :=
  match v with
  | JArray _ | JObject _ => false
  | _ => true
  end.

(** An entry of the response whose conversion raises no exception: it
    is not null, its [lat] and [lon] are primitive values (or missing),
    and its [boundingbox] is missing or an array of primitive values. *)
Definition convertible (d : JSValue) : bool :=
  negb (isNullish d)
  && primitive d.["lat"] && primitive d.["lon"]
  && match d.["boundingbox"] with
     | JUndefined | JNull => true
     | JArray items => forallb primitive items
     | _ => false
     end.

(** How an entry of the list relates to the entry of the response it
    was made from. *)
Definition madeFrom (d : JSValue) (r : SearchResult) : Prop :=
  display r = d.["display_name"]
  /\ ToNumber d.["lat"] = Some (r_lat r)
  /\ ToNumber d.["lon"] = Some (r_lon r).

(** Converting the value to a string raises no exception. *)
Definition coercible (v : JSValue) : bool :=
  match ToString v with
  | Some _ => true
  | None => false
  end.

(** The three fields the popup and the filter convert to strings are
    coercible. *)
Definition renderable (now : string) (s : JSValue) : bool :=
  let n := normalizeStation now s in
  coercible (name n) && coercible (stationType n) && coercible (lastUpdated n).

(** The station has both coordinates and passes the type filter. *)
Definition visible (f : TypeFilter) (now : string) (s : JSValue) : bool :=
  let n := normalizeStation now s in
  match lat n, lng n, passesTypeHide f n with
  | Some _, Some _, Some true => true
  | _, _, _ => false
  end.

(** The marker [m] is the one drawn for the station [s]. *)
Definition depicts (f : TypeFilter) (s : JSValue) (m : Marker) : Prop :=
  exists now, drawStation f now s = Some (Some m).

End Vocabulary.

(** ** Sample records, responses and states *)

Section Samples.
Import Val App.

(** Record B of the specification's example: latitude not numeric,
    longitude ["5"]. *)
Definition recordB : JSValue :=
  JObject [("name", JString "B"); ("lat", JString "not-a-number");
           ("lng", JString "5"); ("stationType", JString "Truck")].

(** A record with a geolocation sub-object whose latitude is not
    numeric, and a numeric top-level latitude. *)
Definition recordGeoText : JSValue :=
  JObject [("geolocation", JObject [("latitude", JString "abc")]);
           ("lat", JNumber (Fin 60)); ("lng", JNumber (Fin 10))].

(** A record whose sub-object has no coordinate and whose top level
    has [Latitude] and [lng]. *)
Definition recordTopLevel : JSValue :=
  JObject [("geo", JObject [("altitude", JNumber (Fin 12))]);
           ("Latitude", JString "59,91"); ("lng", JString "10.75")].

(** The record [{}]. *)
Definition emptyRecord : JSValue := JObject [].

(** A record with a time stamp. *)
Definition recordStamped : JSValue :=
  JObject [("name", JString "A"); ("updatedAt", JString "2023-05-17T08:00:00Z")].

(** A record whose [name] is the empty string, with a [title]. *)
Definition recordEmptyName : JSValue :=
  JObject [("name", JString ""); ("title", JString "Oslo S")].

(** A record with none of the name fields. *)
Definition recordNameless : JSValue :=
  JObject [("lat", JString "60,1"); ("lng", JString "10,2")].

(** The page after [onMount] created the map, before any station is
    loaded. *)
Definition idle : State :=
  {| map := Some (SetView (Fin (121 # 2), Fin (17 # 2)) 6);
     markersGroup := None; searchMarker := None; stations := [];
     visibleCount := 0;
     typeFilter := {| hideWash := false; hideSelfservice := false;
                      hideTruck := false; hideChargingLocation := false |};
     q := JString ""; results := []; searching := false; showList := false;
     activeIndex := -1 |}.

(** A record with nothing but the two coordinates, as strings. *)
Definition coordinatesOnly (la lo : string) : JSValue :=
  JObject [("lat", JString la); ("lng", JString lo)].

(** A record whose latitude is the empty string and whose longitude has
    400 nines before its decimal comma. *)
Definition recordBlankAndLarge : JSValue :=
  coordinatesOnly "" (Str.repeat "9" 400 ++ ",5").

(** A record whose latitude is the number Infinity and whose longitude
    is not numeric. *)
Definition recordInfinite : JSValue :=
  JObject [("lat", JNumber (Inf false)); ("lng", JString "not-a-number")].

(** A successful response with one entry that has a name and no
    coordinates. *)
Definition responseNoCoordinates : FetchResponse :=
  {| ok := true; resp_status := 200;
     json := Some (JArray [JObject [("display_name", JString "Oslo")]]) |}.

(** The page once that response has arrived. *)
Definition afterNoCoordinates : State :=
  onResponse (Some responseNoCoordinates) (setSearching true idle).

(** Record A of the specification's example. *)
Definition recordA : JSValue :=
  JObject [("name", JString "A"); ("lat", JString "60,1");
           ("lng", JString "10,2"); ("stationType", JString "Wash")].

(** A station nested under [station], of type Truck. *)
Definition recordC : JSValue :=
  JObject [("station", JObject [("name", JString "C");
                                ("stationType", JString "Truck");
                                ("geolocation",
                                 JObject [("latitude", JNumber (Fin (119 # 2)));
                                          ("longitude", JNumber (Fin (43 # 4)))])])].

(** The page with the three stations loaded and [hideWash] on. *)
Definition loaded : State :=
  {| map := Some (SetView (Fin (121 # 2), Fin (17 # 2)) 6);
     markersGroup := None; searchMarker := None;
     stations := [recordA; recordB; recordC];
     visibleCount := 0;
     typeFilter := {| hideWash := true; hideSelfservice := false;
                      hideTruck := false; hideChargingLocation := false |};
     q := JString ""; results := []; searching := false; showList := false;
     activeIndex := -1 |}.

End Samples.

(* ================================================================== *)
(** * The stations proxy and the rest of the page script *)

Module StationsProxy.

Definition UPSTREAM : string := "https://apim.unox.no/network/networks/stations".

(** The handler awaits one upstream call and answers from its
    response; [None]: an exception leaves the handler. *)
Record Handler := {
  call : Proxy.Call;
  respond : Proxy.Upstream -> option Proxy.Response
}.

(** The handler does not read the request: [query] is the query string
    of the incoming URL, which is not passed on. *)
Definition GET (query : list (string * string)) : Handler :=
  {| call := {| Proxy.call_base := UPSTREAM;
                Proxy.call_params := [];
                Proxy.call_headers := [("accept", "application/json")] |};
     respond := fun r =>
       Proxy.newResponse (Proxy.up_status r) (Proxy.up_body r)
         [("content-type",
           match Proxy.up_contentType r with
           | Some ct => ct
           | None => "application/json"
           end);
          ("cache-control", "public, max-age=60")] |}.

End StationsProxy.

Module Page.
Import Val App.

(** The variables of the script that [State] leaves out: the two of
    [loadStations] and the ring drawn around the first station. *)
Record Page := {
  core : State;
  loading : bool;
  errorMsg : string;
  initRing : option (JSNum * JSNum)
}.

Definition setStations (l : list JSValue) (st : State) : State :=
  {| map := map st; markersGroup := markersGroup st;
     searchMarker := searchMarker st; stations := l;
     visibleCount := visibleCount st; typeFilter := typeFilter st; q := q st;
     results := results st; searching := searching st;
     showList := showList st; activeIndex := activeIndex st |}.

Definition setView (v : View) (st : State) : State :=
  {| map := Some v; markersGroup := markersGroup st;
     searchMarker := searchMarker st; stations := stations st;
     visibleCount := visibleCount st; typeFilter := typeFilter st; q := q st;
     results := results st; searching := searching st;
     showList := showList st; activeIndex := activeIndex st |}.

(** *** Loading the stations *)

(** What [r.json()] gave: the decoded body, or a rejection with the
    message of its error, if it has one. *)
Inductive Body : Type :=
| NotJson (message : option string)
| Json (raw : JSValue).

Record LoadResponse := {
  l_ok : bool;
  l_status : Z;
  l_statusText : string;
  l_body : Body
}.

(** What [fetch] gave: a rejection, with the message of its error if it
    has one, or a response. *)
Inductive LoadOutcome : Type :=
| Rejected (message : option string)
| Responded (r : LoadResponse).

Definition formatError : string := "Uventet API-format fra upstream.".
Definition unknownError : string := "Ukjent feil ved henting av stasjoner.".

(** [Array.isArray(raw) ? raw : (raw?.items ?? [])], and the test that
    follows: [None] when the list is not an array. *)
Definition stationList (raw : JSValue) : option (list JSValue) :=
  match raw with
  | JArray items => Some items
  | _ =>
      match raw?."items" ?? JArray [] with
      | JArray items => Some items
      | _ => None
      end
  end.

(** The body of the [try]: the station list, or the message of the
    error thrown ([None] when the error has no message). *)
Definition received (o : LoadOutcome) : list JSValue + option string :=
  match o with
  | Rejected m => inr m
  | Responded r =>
      if negb (l_ok r) then
        inr (Some ("HTTP " ++ NumStr.digitsOf (l_status r) ++ " "
                   ++ l_statusText r))
      else
        match l_body r with
        | NotJson m => inr m
        | Json raw =>
            match stationList raw with
            | Some l => inl l
            | None => inr (Some formatError)
            end
        end
  end.

(** [loadStations] up to its [await]. *)
Definition loadStart (p : Page) : Page :=
  {| core := core p; loading := true; errorMsg := ""; initRing := initRing p |}.

(** [loadStations] from its [await] on, on the page found then. *)
Definition loadFinish (o : LoadOutcome) (p : Page) : Page :=
  match received o with
  | inl l =>
      {| core := setStations l (core p); loading := false;
         errorMsg := errorMsg p; initRing := initRing p |}
  | inr m =>
      {| core := setStations [] (core p); loading := false;
         errorMsg := match m with Some s => s | None => unknownError end;
         initRing := initRing p |}
  end.

(** *** Centring on the first station *)

(** [None]: the map does not exist yet and a station was found (a
    TypeError); the branch without coordinates is not reached. *)
Definition centerOnFirstStationOnce (clock : Clock) (p : Page) : option Page :=
  match firstValidLatLng clock (stations (core p)) with
  | None => Some p
  | Some first =>
      match map (core p), lat first, lng first with
      | Some _, Some la, Some lo =>
          Some {| core := setView (SetView (la, lo) 12) (core p);
                  loading := loading p; errorMsg := errorMsg p;
                  initRing := Some (la, lo) |}
      | _, _, _ => None
      end
  end.

(** *** The type toggles *)

Inductive FilterKey : Type :=
| KeyWash | KeySelfservice | KeyTruck | KeyChargingLocation.

(** [typeFilter[key] = !typeFilter[key]] *)
Definition flip (key : FilterKey) (f : TypeFilter) : TypeFilter :=
  match key with
  | KeyWash =>
      {| hideWash := negb (hideWash f); hideSelfservice := hideSelfservice f;
         hideTruck := hideTruck f; hideChargingLocation := hideChargingLocation f |}
  | KeySelfservice =>
      {| hideWash := hideWash f; hideSelfservice := negb (hideSelfservice f);
         hideTruck := hideTruck f; hideChargingLocation := hideChargingLocation f |}
  | KeyTruck =>
      {| hideWash := hideWash f; hideSelfservice := hideSelfservice f;
         hideTruck := negb (hideTruck f);
         hideChargingLocation := hideChargingLocation f |}
  | KeyChargingLocation =>
      {| hideWash := hideWash f; hideSelfservice := hideSelfservice f;
         hideTruck := hideTruck f;
         hideChargingLocation := negb (hideChargingLocation f) |}
  end.

Definition toggleType (clock : Clock) (key : FilterKey) (st : State)
  : option State :=
  redrawMarkers clock (setTypeFilter (flip key (typeFilter st)) st).

(** *** Mounting *)

(** The variables as they are initialised. *)
Definition initialPage : Page :=
  {| core :=
       {| map := None; markersGroup := None; searchMarker := None;
          stations := []; visibleCount := 0;
          typeFilter := {| hideWash := false; hideSelfservice := false;
                           hideTruck := false; hideChargingLocation := false |};
          q := JString ""; results := []; searching := false;
          showList := false; activeIndex := -1 |};
     loading := false; errorMsg := ""; initRing := None |}.

(** [onMount] up to the [await] of [loadStations]: the map is created,
    centred on (60.5, 8.5) at zoom 6. *)
Definition mountStart (p : Page) : Page :=
  loadStart {| core := setView (SetView (Fin (121 # 2), Fin (17 # 2)) 6) (core p);
               loading := loading p; errorMsg := errorMsg p;
               initRing := initRing p |}.

(** [onMount] from that [await] on: the load finishes, the map is
    centred, the markers are drawn.  [clock1] is the clock of the loop
    of [firstValidLatLng], [clock2] that of [redrawMarkers]. *)
Definition mountFinish (o : LoadOutcome) (clock1 clock2 : Clock) (p : Page)
  : option Page :=
  do p1 <- centerOnFirstStationOnce clock1 (loadFinish o p);
  do st <- redrawMarkers clock2 (core p1);
  Some {| core := st; loading := loading p1; errorMsg := errorMsg p1;
          initRing := initRing p1 |}.

End Page.

(** ** Vocabulary of the further properties *)

Section FurtherVocabulary.
Import Val App Page.

(** The string holds a comma. *)
Fixpoint hasComma (s : string) : bool :=
  match s with
  | String c s' => (c =? ",")%char || hasComma s'
  | EmptyString => false
  end.

(** The station has both coordinates. *)
Definition hasCoordinates (s : JSValue) : bool :=
  match lat (normalizeStation "" s), lng (normalizeStation "" s) with
  | Some _, Some _ => true
  | _, _ => false
  end.

(** The keys [normalizeStation] reads on the record itself. *)
Definition recognisedKeys : list string :=
  ["station"; "name"; "title"; "stationName"; "geolocation"; "geo";
   "latitude"; "lat"; "Latitude"; "Lat";
   "longitude"; "lng"; "Longitude"; "Lng";
   "lastUpdated"; "updatedAt"; "modified"; "lastModified"; "stationType"].

(** Every flag that is on in [f] is on in [f']. *)
Definition fewerFlags (f f' : TypeFilter) : bool :=
  implb (hideWash f) (hideWash f')
  && implb (hideSelfservice f) (hideSelfservice f')
  && implb (hideTruck f) (hideTruck f')
  && implb (hideChargingLocation f) (hideChargingLocation f').

Definition noFlags : TypeFilter :=
  {| hideWash := false; hideSelfservice := false;
     hideTruck := false; hideChargingLocation := false |}.

Definition allFlags : TypeFilter :=
  {| hideWash := true; hideSelfservice := true;
     hideTruck := true; hideChargingLocation := true |}.

(** A normalised station of the given type. *)
Definition stationOfType (t : JSValue) : NormalizedStation :=
  {| name := JString fallbackName; lat := None; lng := None;
     lastUpdated := JString ""; stationType := t |}.

(** The active index designates an entry of the result list, and is -1
    when the list is empty. *)
Definition activeInRange (st : State) : Prop :=
  match results st with
  | [] => activeIndex st = -1
  | _ => 0 <= activeIndex st < Z.of_nat (List.length (results st))
  end.

(** [n] presses of a key. *)
Fixpoint presses (n : nat) (key : Key) (st : State) : option State :=
  match n with
  | O => Some st
  | S n' => do st' <- onKeydown key st; presses n' key st'
  end.

(** The record every field of which is the fall-back. *)
Definition defaultStation (now : string) : NormalizedStation :=
  {| name := JString fallbackName; lat := None; lng := None;
     lastUpdated := JString now; stationType := JNull |}.

(** The value is an object that has one of the recognised keys. *)
Definition hasRecognisedKey (v : JSValue) : bool :=
  match v with
  | JObject es => existsb (fun k => hasOwn k es) recognisedKeys
  | _ => false
  end.

(** The entries of an object but those under the key [k]. *)
Definition without (k : string) (es : list (string * JSValue))
  : list (string * JSValue) :=
  filter (fun e => negb (fst e =? k)%string) es.

(** The search fails: the request is rejected, the response is not
    ok, its body is not JSON, or it is an array with a null entry. *)
Definition failedSearch (r : option FetchResponse) : bool :=
  match r with
  | None => true
  | Some resp =>
      negb (ok resp)
      || match json resp with
         | None => true
         | Some (JArray items) => existsb isNullish items
         | Some _ => false
         end
  end.

(** [url.searchParams.get(k)] on the parameters of a request. *)
Fixpoint param (k : string) (ps : list (string * string)) : option string :=
  match ps with
  | (k', v) :: r => if (k' =? k)%string then Some v else param k r
  | [] => None
  end.

(** The request the proxy receives when the page sends these
    parameters. *)
Definition asProxyRequest (ps : list (string * string)) : Proxy.Request :=
  {| Proxy.req_q := param "q" ps; Proxy.req_limit := param "limit" ps |}.

(** What [fetch] gives the page for a response of the stations proxy:
    [ok] for a status from 200 to 299; [text] is the status text and
    [decode] what [r.json()] makes of a body. *)
Definition asSeenByPage (text : string) (decode : string -> Body)
           (resp : Proxy.Response) : LoadResponse :=
  {| l_ok := (200 <=? Proxy.status resp) && (Proxy.status resp <=? 299);
     l_status := Proxy.status resp;
     l_statusText := text;
     l_body := decode (Proxy.body resp) |}.

(** The value is an array. *)
Definition isArray (v : JSValue) : bool :=
  match v with JArray _ => true | _ => false end.

(** The test of [colorForType] on a lower-cased type. *)
Definition knownType (k : string) : bool :=
  (k =? "charginglocation")%string || (k =? "truck")%string
  || (k =? "selfservice")%string || (k =? "wash")%string.

(** The stations arrive as a bare array: B, A and C. *)
Definition arrival : LoadOutcome :=
  Responded {| l_ok := true; l_status := 200; l_statusText := "OK";
               l_body := Json (JArray [recordB; recordA; recordC]) |}.

(** The page once mounted on that arrival. *)
Definition mounted : Page :=
  match mountFinish arrival (fun _ => "2024-01-01T00:00:00.000Z")
          (fun _ => "2024-01-01T00:00:01.000Z") (mountStart initialPage) with
  | Some x => x
  | None => initialPage
  end.

(** The position of a marker is a pair of finite numbers. *)
Definition finitePosition (m : Marker) : bool :=
  Num.isFinite (fst (position m)) && Num.isFinite (snd (position m)).

(** *** Numerals, as the grammar of numeric strings writes them *)

Inductive Sign : Type := NoSign | Plus | Minus.

Definition signText (sg : Sign) : string :=
  match sg with NoSign => "" | Plus => "+" | Minus => "-" end.

(** An exponent part: the letter [e] or [E], a sign, digits. *)
Record Exponent := {
  e_capital : bool;
  e_sign : Sign;
  e_digits : string
}.

Definition exponentText (e : option Exponent) : string :=
  match e with
  | None => ""
  | Some x => (if e_capital x then "E" else "e") ++ signText (e_sign x) ++ e_digits x
  end.

Definition exponentValue (e : option Exponent) : Z :=
  match e with
  | None => 0
  | Some x =>
      match e_sign x with
      | Minus => - NumStr.decValue 0 (e_digits x)
      | _ => NumStr.decValue 0 (e_digits x)
      end
  end.

Definition exponentOk (e : option Exponent) : bool :=
  match e with
  | None => true
  | Some x => Str.allDigits (e_digits x) && negb (e_digits x =? "")%string
  end.

(** A decimal numeral: a sign, the digits before and after the
    separator, an exponent part. *)
Record Decimal := {
  d_sign : Sign;
  d_int : string;
  d_frac : string;
  d_exp : option Exponent
}.

(** Digits only, at least one of them before or after the separator,
    and at least one in the exponent, if there is one. *)
Definition decimalOk (d : Decimal) : bool :=
  Str.allDigits (d_int d) && Str.allDigits (d_frac d)
  && negb ((d_int d =? "")%string && (d_frac d =? "")%string)
  && exponentOk (d_exp d).

(** The numeral written with [sep] for separator. *)
Definition written (sep : string) (d : Decimal) : string :=
  signText (d_sign d) ++ d_int d ++ sep ++ d_frac d ++ exponentText (d_exp d).

(** The number the numeral denotes. *)
Definition decimalNumber (d : Decimal) : Q :=
  let m := (inject_Z (NumStr.decValue 0 (d_int d ++ d_frac d))
            * Num.pow10 (exponentValue (d_exp d)
                         - Z.of_nat (String.length (d_frac d))))%Q in
  match d_sign d with
  | Minus => (- m)%Q
  | _ => m
  end.

(** The string starts with a digit or with the point. *)
Definition startsDecimal (u : string) : bool :=
  match u with
  | String c _ => Str.isDigit c || (c =? ".")%char
  | EmptyString => false
  end.

(** The letter after [0] that announces a radix. *)
Definition radixOf (c : ascii) : option Z :=
  if (c =? "x")%char || (c =? "X")%char then Some 16
  else if (c =? "o")%char || (c =? "O")%char then Some 8
  else if (c =? "b")%char || (c =? "B")%char then Some 2
  else None.

Definition digitsOfRadix (radix : Z) : string :=
  if radix =? 16 then "0123456789abcdefABCDEF"
  else if radix =? 8 then "01234567"
  else "01".

Fixpoint occurs (c : ascii) (s : string) : bool :=
  match s with
  | String x s' => (c =? x)%char || occurs c s'
  | EmptyString => false
  end.

Fixpoint allOf (alphabet s : string) : bool :=
  match s with
  | String c s' => occurs c alphabet && allOf alphabet s'
  | EmptyString => true
  end.

(** The numeric strings, white space apart: [Infinity] with a sign, a
    decimal numeral with a point, a decimal numeral without separator
    and fraction, and [0x], [0o], [0b] with digits of the radix. *)
Inductive Numeric : string -> Prop :=
| numeric_infinity (sg : Sign) : Numeric (signText sg ++ "Infinity")
| numeric_point (d : Decimal) : decimalOk d = true -> Numeric (written "." d)
| numeric_integer (d : Decimal) :
    decimalOk d = true -> d_frac d = "" -> Numeric (written "" d)
| numeric_radix (c : ascii) (radix : Z) (ds : string) :
    radixOf c = Some radix -> ds <> "" ->
    allOf (digitsOfRadix radix) ds = true ->
    Numeric (String "0" (String c ds)).

(** The string is numeric once its first comma is read as a decimal
    point and the white space around it is dropped. *)
Definition numericWithComma (t : string) : Prop :=
  Numeric (Str.trim (Str.replace "," "." t)).

(** The bounding box [selectResult] fits the view to: the value of
    [bbox] when it has exactly four entries. *)
Definition boxOf (r : SearchResult) : list JSNum :=
  match bbox r with
  | Some [south; north; west; east] => [south; north; west; east]
  | _ => []
  end.

(** An entry of the result list that can be selected: its name
    converts to text, its latitude and longitude are finite, and so are
    the four values of its bounding box, if it has one. *)
Definition selectable (r : SearchResult) : bool :=
  coercible (display r)
  && Num.isFinite (r_lat r) && Num.isFinite (r_lon r)
  && forallb Num.isFinite (boxOf r).

(** The entry at the active index. *)
Definition activeEntry (st : State) : option SearchResult :=
  nth_error (results st) (Z.to_nat (activeIndex st)).

(** A successful response with one entry, as Nominatim writes it:
    coordinates and bounding box as strings. *)
Definition responseOslo : FetchResponse :=
  {| ok := true; resp_status := 200;
     json := Some (JArray [JObject [("display_name", JString "Oslo");
                                    ("lat", JString "59.5");
                                    ("lon", JString "10.75");
                                    ("boundingbox",
                                     JArray [JString "59"; JString "60";
                                             JString "10"; JString "11"])]]) |}.

(** The page once that response has arrived. *)
Definition afterOslo : State :=
  onResponse (Some responseOslo) (setSearching true idle).

(** A station with coordinates whose name is an object with a
    [toString] entry, which is no function. *)
Definition recordOddName : JSValue :=
  JObject [("name", JObject [("toString", JNull)]);
           ("lat", JNumber (Fin 60)); ("lng", JNumber (Fin 10))].

(** The page with station C and that station loaded, no flag on, before
    the first redraw. *)
Definition loadedOdd : State :=
  {| map := Some (SetView (Fin (121 # 2), Fin (17 # 2)) 6);
     markersGroup := None; searchMarker := None;
     stations := [recordC; recordOddName];
     visibleCount := 0; typeFilter := noFlags;
     q := JString ""; results := []; searching := false; showList := false;
     activeIndex := -1 |}.

End FurtherVocabulary.

(* ================================================================== *)
(** * Properties *)

(** ** The operator [??] *)

Lemma coalesce_nullish_l (a b : JSValue) : Val.isNullish a = true -> a ?? b = b.
Proof. unfold Val.coalesce; intros ->; reflexivity. Qed.

Lemma coalesce_present_l (a b : JSValue) : Val.isNullish a = false -> a ?? b = a.
Proof. unfold Val.coalesce; intros ->; reflexivity. Qed.

(** Resolves a chain of [??] from the left, with what is known of its
    operands. *)
Ltac coalesce_chain :=
  repeat match goal with
         | H : Val.isNullish ?a = true |- context [?a ?? ?b] =>
             rewrite (coalesce_nullish_l a b H)
         | H : Val.isNullish ?a = false |- context [?a ?? ?b] =>
             rewrite (coalesce_present_l a b H)
         end.

(** ** Coordinates of a normalised station *)

Section Coordinates.
Import Val App.

Lemma toNumber_finiteOrNull (v : JSValue) : finiteOrNull (toNumber v) = true.
Proof.
  destruct v as [ | | b | x | s | l | es]; simpl; try reflexivity.
  - destruct (Num.isFinite x) eqn:E; simpl; [exact E | reflexivity].
  - destruct (Num.isFinite (NumStr.toNumber (Str.replace "," "." s))) eqn:E;
      simpl; [exact E | reflexivity].
Qed.

(** C1, as stated, fails: a record with an unparsable latitude and a
    numeric longitude is normalised to [lat = null] and [lng = 5]. *)
Lemma one_coordinate_null :
  lat (normalizeStation "2024-01-01T00:00:00.000Z" recordB) = None
  /\ lng (normalizeStation "2024-01-01T00:00:00.000Z" recordB) = Some (Fin 5).
Proof. split; vm_compute; reflexivity. Qed.

(** C1 (amended): for every raw record and clock reading, each of [lat]
    and [lng] of the normalised record is either a finite number or
    null; the two are resolved independently of each other. *)
Theorem coordinates_finite_or_null (now : string) (s : JSValue) :
  finiteOrNull (lat (normalizeStation now s)) = true
  /\ finiteOrNull (lng (normalizeStation now s)) = true.
Proof.
  unfold normalizeStation; simpl; split; apply toNumber_finiteOrNull.
Qed.

(** *** Where a coordinate is read from *)

Lemma coordinate_toNumber (a : Axis) (now : string) (s : JSValue) :
  coordinate a (normalizeStation now s) = toNumber (rawCoordinate a s).
Proof. destruct a; reflexivity. Qed.

Lemma geolocationOf_not_nullish (s : JSValue) :
  isNullish (geolocationOf s) = false.
Proof.
  unfold geolocationOf, coalesce.
  repeat match goal with
         | |- context [if isNullish ?v then _ else _] =>
             let E := fresh "E" in destruct (isNullish v) eqn:E; try exact E
         end; reflexivity.
Qed.

(** C2, as stated, fails: the sub-object's latitude is present but not
    numeric, the top-level latitude is the number 60, and the
    normalised latitude is null all the same: no fall-back happens. *)
Lemma unparsable_entry_blocks_fallback :
  toNumber (geolocationOf recordGeoText).["latitude"] = None
  /\ toNumber (recordGeoText?."lat") = Some (Fin 60)
  /\ lat (normalizeStation "2024-01-01T00:00:00.000Z" recordGeoText) = None.
Proof. repeat split; vm_compute; reflexivity. Qed.

(** C2 (amended): when the geolocation sub-object holds, under each of
    the four keys of an axis, nothing but null or undefined, the
    coordinate is the numeric coercion of the record's top-level
    [lat] (else [Latitude]) for the latitude and [lng] (else
    [Longitude]) for the longitude.  (An entry that is present is
    coerced as it is; an unparsable one gives null.) *)
Theorem fallback_to_top_level (a : Axis) (now : string) (s : JSValue) :
  forallb (fun k => isNullish (geolocationOf s).[k]) (subKeys a) = true ->
  coordinate a (normalizeStation now s)
  = toNumber (s?.(fst (topKeys a)) ?? s?.(snd (topKeys a))).
Proof.
  intros H.
  destruct a; cbn [subKeys forallb] in H;
    repeat (apply andb_prop in H; destruct H as [?H H]);
    unfold coordinate, normalizeStation; cbn [lat lng topKeys fst snd];
    fold (geolocationOf s); f_equal; now coalesce_chain.
Qed.

(** C2, witness: the sub-object [geo] has no coordinate, the top level
    has [Latitude]. *)
Lemma fallback_to_top_level_witness :
  coordinate Latitude (normalizeStation "2024-01-01T00:00:00.000Z" recordTopLevel)
  = toNumber (JString "59,91").
Proof.
  apply (fallback_to_top_level Latitude "2024-01-01T00:00:00.000Z" recordTopLevel).
  reflexivity.
Defined.

End Coordinates.

(** ** Time stamp and name of a normalised station *)

Section TimeAndName.
Import Val App.

(** C3, as stated, fails: two calls on the record [{}] at two different
    times return different [lastUpdated] values, each the time of its
    call. *)
Lemma clock_shows_in_result :
  lastUpdated (normalizeStation "2024-01-01T00:00:00.000Z" emptyRecord)
  = JString "2024-01-01T00:00:00.000Z"
  /\ lastUpdated (normalizeStation "2024-01-01T00:00:00.001Z" emptyRecord)
     = JString "2024-01-01T00:00:00.001Z"
  /\ ("2024-01-01T00:00:00.000Z" =? "2024-01-01T00:00:00.001Z")%string = false.
Proof. repeat split; vm_compute; reflexivity. Qed.

Lemma other_fields_ignore_clock (now1 now2 : string) (s : JSValue) :
  name (normalizeStation now1 s) = name (normalizeStation now2 s)
  /\ lat (normalizeStation now1 s) = lat (normalizeStation now2 s)
  /\ lng (normalizeStation now1 s) = lng (normalizeStation now2 s)
  /\ stationType (normalizeStation now1 s) = stationType (normalizeStation now2 s).
Proof. repeat split; reflexivity. Qed.

Lemma lastUpdated_firstPresent (now : string) (s : JSValue) :
  lastUpdated (normalizeStation now s) = firstPresent (timeStamps s) (JString now).
Proof.
  unfold normalizeStation, timeStamps; cbn [lastUpdated firstPresent].
  destruct (isNullish s?."lastUpdated") eqn:E1; [ | now coalesce_chain].
  destruct (isNullish s?."updatedAt") eqn:E2; [ | now coalesce_chain].
  destruct (isNullish s?."modified") eqn:E3; [ | now coalesce_chain].
  destruct (isNullish s?."lastModified") eqn:E4; now coalesce_chain.
Qed.

(** C3 (amended): [normalizeStation] writes nothing, and its result is
    a function of the record and of the clock reading alone.  Two calls
    on the same record return equal values whenever the record has one
    of the four time stamp fields, or the two calls read the same time.
    (For a record without time stamp, [lastUpdated] is the time of the
    call; the other four fields never depend on it.) *)
Theorem normalize_repeatable (now1 now2 : string) (s : JSValue) :
  hasTimeStamp s = true \/ now1 = now2 ->
  normalizeStation now1 s = normalizeStation now2 s.
Proof.
  intros [H | ->]; [ | reflexivity].
  assert (L : lastUpdated (normalizeStation now1 s)
              = lastUpdated (normalizeStation now2 s)).
  { rewrite !lastUpdated_firstPresent.
    unfold hasTimeStamp in H.
    induction (timeStamps s) as [ | v rest IH]; simpl in *; [discriminate | ].
    destruct (isNullish v); simpl in H; [apply IH; exact H | reflexivity]. }
  unfold normalizeStation in *; simpl in *.
  rewrite L; reflexivity.
Qed.

(** C3, witness: a record with [updatedAt], normalised at two times. *)
Lemma normalize_repeatable_witness :
  normalizeStation "2024-01-01T00:00:00.000Z" recordStamped
  = normalizeStation "2024-06-30T12:00:00.000Z" recordStamped.
Proof.
  apply (normalize_repeatable _ _ recordStamped).
  left; reflexivity.
Defined.

(** *** Name *)

(** C4, as stated, fails: a record whose [name] is the empty string is
    normalised to the empty name (the later [title] is not tried, the
    fall-back is not used). *)
Lemma empty_name_is_kept :
  name (normalizeStation "2024-01-01T00:00:00.000Z" recordEmptyName) = JString "".
Proof. vm_compute; reflexivity. Qed.

(** C4 (amended): the name of the normalised record is the first of
    [station.name], [name], [title], [stationName] that is neither null
    nor undefined, else the fixed fall-back string, which is not empty;
    a record lacking every one of the four fields gets the fall-back.
    (A field that is present is taken as it is, the empty string
    included.) *)
Theorem name_first_present_or_fallback (now : string) (s : JSValue) :
  name (normalizeStation now s) = firstPresent (nameFields s) (JString fallbackName)
  /\ (fallbackName =? "")%string = false
  /\ (forallb isNullish (nameFields s) = true ->
      name (normalizeStation now s) = JString fallbackName).
Proof.
  assert (E : name (normalizeStation now s)
              = firstPresent (nameFields s) (JString fallbackName)).
  { unfold normalizeStation, nameFields; cbn [name firstPresent].
    destruct (isNullish s?."station"?."name") eqn:E1; [ | now coalesce_chain].
    destruct (isNullish s?."name") eqn:E2; [ | now coalesce_chain].
    destruct (isNullish s?."title") eqn:E3; [ | now coalesce_chain].
    destruct (isNullish s?."stationName") eqn:E4; now coalesce_chain. }
  split; [exact E | split; [reflexivity | ]].
  intros H; rewrite E; clear E.
  induction (nameFields s) as [ | v rest IH]; simpl in *; [reflexivity | ].
  apply andb_prop in H; destruct H as [Hv Hr].
  rewrite Hv; apply IH; exact Hr.
Qed.

(** C4, witness: a record with coordinates and no name field. *)
Lemma name_first_present_or_fallback_witness :
  name (normalizeStation "2024-01-01T00:00:00.000Z" recordNameless)
  = JString "Ukjent stasjon".
Proof.
  apply (proj2 (proj2 (name_first_present_or_fallback
                         "2024-01-01T00:00:00.000Z" recordNameless))).
  reflexivity.
Defined.

End TimeAndName.

(** ** The type filter *)

Section TypeFilterRule.
Import Val App.

Lemma passesTypeHide_null (f : TypeFilter) (n : NormalizedStation) :
  stationType n = JNull -> passesTypeHide f n = Some true.
Proof.
  intros E; unfold passesTypeHide, flagged; rewrite E.
  destruct f as [[] [] [] []]; reflexivity.
Qed.

(** What the filter does with any type that converts to a string. *)
Lemma passesTypeHide_coerced (f : TypeFilter) (n : NormalizedStation) (s : string) :
  isNullish (stationType n) = false ->
  ToString (stationType n) = Some s ->
  passesTypeHide f n = Some (negb (hiddenByType f (Some s))).
Proof.
  intros Hn Hs; unfold passesTypeHide, flagged, eqType; rewrite Hn, Hs.
  cbn [hiddenByType].
  change (Str.toLowerCase "wash") with "wash".
  change (Str.toLowerCase "selfservice") with "selfservice".
  change (Str.toLowerCase "truck") with "truck".
  change (Str.toLowerCase "charginglocation") with "charginglocation".
  set (k := Str.toLowerCase (Str.trim s)).
  destruct f as [[] [] [] []]; cbn [hideWash hideSelfservice hideTruck
                                    hideChargingLocation andb orb];
    destruct (k =? "wash")%string; cbn [andb orb negb]; try reflexivity;
    destruct (k =? "selfservice")%string; cbn [andb orb negb]; try reflexivity;
    destruct (k =? "truck")%string; cbn [andb orb negb]; try reflexivity;
    destruct (k =? "charginglocation")%string; reflexivity.
Qed.

(** C6: for every normalised station whose type is a string or null,
    and every filter state, [passesTypeHide] returns false exactly when
    the type, trimmed and lower-cased, is one of [wash], [selfservice],
    [truck], [charginglocation] with its hide-flag on, and true in every
    other case, null included. *)
Theorem passesTypeHide_iff_not_hidden
        (f : TypeFilter) (nm : JSValue) (la lo : option JSNum) (lu : JSValue)
        (t : option string) :
  passesTypeHide f {| name := nm; lat := la; lng := lo; lastUpdated := lu;
                      stationType := typeValue t |}
  = Some (negb (hiddenByType f t)).
Proof.
  destruct t as [s | ].
  - apply passesTypeHide_coerced; reflexivity.
  - apply passesTypeHide_null; reflexivity.
Qed.

End TypeFilterRule.

(** ** Queries too short to be searched *)

Section ShortQueries.
Import Val App.

Lemma short_is_tooShort (s : string) : (String.length s < 2)%nat -> tooShort s.
Proof.
  unfold tooShort, Str.trim.
  destruct s as [ | c [ | d s]]; cbn [String.length]; [cbn; lia | | lia].
  intros _; cbn [Str.trimStart].
  destruct (Str.isWhiteSpace c) eqn:W; cbn [Str.trimEnd Str.trimStart];
    [ | rewrite W]; cbn; lia.
Qed.

(** C9: when [q] is absent, or shorter than two characters after
    trimming, the proxy answers 200 with the empty JSON array and calls
    no upstream service; and a search for a term that short settles at
    once, with an empty, closed result list and no request sent. *)
Theorem short_query_short_circuits
        (q limit : option string) (term : string) (st : State) :
  (q = None \/ exists s, q = Some s /\ tooShort s) ->
  tooShort term ->
  Proxy.GET {| Proxy.req_q := q; Proxy.req_limit := limit |}
  = Proxy.Respond emptyAnswer
  /\ Proxy.calls (Proxy.GET {| Proxy.req_q := q; Proxy.req_limit := limit |}) = []
  /\ runSearch term st = Settled (setSearch [] false (-1) (searching st) st)
  /\ requests (runSearch term st) = []
  /\ results (setSearch [] false (-1) (searching st) st) = []
  /\ showList (setSearch [] false (-1) (searching st) st) = false.
Proof.
  intros Hq Ht.
  assert (G : Proxy.GET {| Proxy.req_q := q; Proxy.req_limit := limit |}
              = Proxy.Respond emptyAnswer).
  { unfold Proxy.GET; cbn [Proxy.req_q].
    destruct Hq as [-> | [s [-> Hs]]]; [reflexivity | ].
    unfold tooShort in Hs.
    apply Nat.ltb_lt in Hs; rewrite Hs, orb_true_r; reflexivity. }
  assert (R : runSearch term st = Settled (setSearch [] false (-1) (searching st) st)).
  { unfold runSearch, tooShort in *.
    apply Nat.ltb_lt in Ht; rewrite Ht, orb_true_r; reflexivity. }
  rewrite G, R; repeat split; reflexivity.
Qed.

(** C9, witness: the query [" o "] to the proxy, the term ["o"] to the
    search. *)
Lemma short_query_short_circuits_witness :
  Proxy.GET {| Proxy.req_q := Some " o "; Proxy.req_limit := None |}
  = Proxy.Respond emptyAnswer
  /\ Proxy.calls (Proxy.GET {| Proxy.req_q := Some " o "; Proxy.req_limit := None |}) = []
  /\ runSearch "o" idle = Settled (setSearch [] false (-1) (searching idle) idle)
  /\ requests (runSearch "o" idle) = []
  /\ results (setSearch [] false (-1) (searching idle) idle) = []
  /\ showList (setSearch [] false (-1) (searching idle) idle) = false.
Proof.
  apply (short_query_short_circuits (Some " o ") None "o" idle).
  - right; exists " o "; split; [reflexivity | unfold tooShort; simpl; lia].
  - unfold tooShort; simpl; lia.
Defined.

End ShortQueries.

(** ** Numeric coercion of strings *)

Section Coercion.
Import Val App.

(** *** White space *)

Lemma prefix_comma (c : ascii) (s : string) :
  prefix "," (String c s) = if Ascii.ascii_dec "," c then true else false.
Proof.
  cbn [prefix]; destruct (Ascii.ascii_dec "," c); [destruct s | ]; reflexivity.
Qed.

Lemma replace_comma_here (s : string) :
  Str.replace "," "." (String "," s) = String "." s.
Proof. destruct s; reflexivity. Qed.

Lemma replace_comma_later (c : ascii) (s : string) :
  c <> ","%char ->
  Str.replace "," "." (String c s) = String c (Str.replace "," "." s).
Proof.
  intros Hc.
  change (Str.replace "," "." (String c s))
    with (if prefix "," (String c s)
          then "." ++ Str.drop (String.length ",") (String c s)
          else String c (Str.replace "," "." s)).
  rewrite prefix_comma.
  destruct (Ascii.ascii_dec "," c) as [E | _]; [ | reflexivity].
  exfalso; apply Hc; symmetry; exact E.
Qed.

Lemma white_not_comma (c : ascii) : Str.isWhiteSpace c = true -> c <> ","%char.
Proof. intros H ->; vm_compute in H; discriminate. Qed.

Lemma digit_not_comma (c : ascii) : Str.isDigit c = true -> c <> ","%char.
Proof. intros H ->; vm_compute in H; discriminate. Qed.

Lemma replace_allWhite (s : string) :
  Str.allWhite s = true -> Str.replace "," "." s = s.
Proof.
  induction s as [ | c s IH]; [reflexivity | ].
  cbn [Str.allWhite]; intros H; apply andb_prop in H; destruct H as [Hc Hs].
  rewrite (replace_comma_later c s (white_not_comma c Hc)), (IH Hs); reflexivity.
Qed.

Lemma trimStart_allWhite (s : string) :
  Str.allWhite s = true -> Str.trimStart s = "".
Proof.
  induction s as [ | c s IH]; [reflexivity | ].
  cbn [Str.allWhite Str.trimStart]; intros H; apply andb_prop in H.
  destruct H as [Hc Hs]; rewrite Hc; exact (IH Hs).
Qed.

Lemma trim_allWhite (s : string) : Str.allWhite s = true -> Str.trim s = "".
Proof. intros H; unfold Str.trim; rewrite (trimStart_allWhite s H); reflexivity. Qed.

Lemma toNumber_blank (ws : string) :
  Str.allWhite ws = true -> toNumber (JString ws) = Some Num.zero.
Proof.
  intros H; unfold toNumber, NumStr.toNumber.
  rewrite (replace_allWhite ws H), (trim_allWhite ws H); reflexivity.
Qed.

Lemma coordinatesOnly_lat (now la lo : string) :
  lat (normalizeStation now (coordinatesOnly la lo)) = toNumber (JString la).
Proof. reflexivity. Qed.

Lemma coordinatesOnly_lng (now la lo : string) :
  lng (normalizeStation now (coordinatesOnly la lo)) = toNumber (JString lo).
Proof. reflexivity. Qed.

(** C10: the numeric coercion maps the empty string and every string
    of white space to 0, not to null; a raw record whose coordinate
    fields are such strings is normalised to the coordinates (0, 0) and
    gets a marker at that position, whatever the filter. *)
Theorem blank_coordinate_is_zero
        (f : TypeFilter) (now ws1 ws2 : string) :
  Str.allWhite ws1 = true ->
  Str.allWhite ws2 = true ->
  toNumber (JString ws1) = Some Num.zero
  /\ lat (normalizeStation now (coordinatesOnly ws1 ws2)) = Some Num.zero
  /\ lng (normalizeStation now (coordinatesOnly ws1 ws2)) = Some Num.zero
  /\ drawStation f now (coordinatesOnly ws1 ws2)
     = Some (Some {| position := (Num.zero, Num.zero);
                     color := RED;
                     popup := {| title := fallbackName; typeLine := None;
                                 updated := JString now |} |}).
Proof.
  intros H1 H2.
  pose proof (toNumber_blank ws1 H1) as E1.
  pose proof (toNumber_blank ws2 H2) as E2.
  split; [exact E1 | split; [ | split]].
  - rewrite coordinatesOnly_lat; exact E1.
  - rewrite coordinatesOnly_lng; exact E2.
  - unfold drawStation; cbv zeta.
    rewrite coordinatesOnly_lat, coordinatesOnly_lng, E1, E2.
    rewrite (passesTypeHide_null
               f (normalizeStation now (coordinatesOnly ws1 ws2)) eq_refl).
    reflexivity.
Qed.

(** C10, witness: the empty string and two spaces. *)
Lemma blank_coordinate_is_zero_witness :
  toNumber (JString "") = Some Num.zero
  /\ lat (normalizeStation "2024-01-01T00:00:00.000Z" (coordinatesOnly "" "  "))
     = Some Num.zero
  /\ lng (normalizeStation "2024-01-01T00:00:00.000Z" (coordinatesOnly "" "  "))
     = Some Num.zero
  /\ drawStation idle.(typeFilter) "2024-01-01T00:00:00.000Z" (coordinatesOnly "" "  ")
     = Some (Some {| position := (Num.zero, Num.zero);
                     color := RED;
                     popup := {| title := fallbackName; typeLine := None;
                                 updated := JString "2024-01-01T00:00:00.000Z" |} |}).
Proof.
  apply (blank_coordinate_is_zero idle.(typeFilter)
           "2024-01-01T00:00:00.000Z" "" "  "); reflexivity.
Defined.

End Coercion.

(** ** Strings of digits and white space *)

Section Digits.
Import Val App.

Lemma digit_not_white (c : ascii) :
  Str.isDigit c = true -> Str.isWhiteSpace c = false.
Proof.
  unfold Str.isDigit, Str.isWhiteSpace; cbv zeta.
  set (n := N_of_ascii c); intros H.
  apply andb_prop in H; destruct H as [H1 H2].
  apply N.leb_le in H1; apply N.leb_le in H2.
  destruct (N.leb_spec 9 n), (N.leb_spec n 13), (N.eqb_spec n 32),
    (N.eqb_spec n 160); cbn [andb orb]; try reflexivity; lia.
Qed.

Lemma trimStart_digit (c : ascii) (s : string) :
  Str.isDigit c = true -> Str.trimStart (String c s) = String c s.
Proof.
  intros H; cbn [Str.trimStart]; rewrite (digit_not_white c H); reflexivity.
Qed.

Lemma trimEnd_last (s : string) (c : ascii) :
  Str.isWhiteSpace c = false ->
  Str.trimEnd (s ++ String c "") = s ++ String c "".
Proof.
  intros Hc; induction s as [ | x s IH].
  - cbn [append Str.trimEnd]; rewrite Hc; reflexivity.
  - cbn [append Str.trimEnd]; rewrite IH.
    destruct s; reflexivity.
Qed.

(** A non-empty string of digits ends in a digit. *)
Lemma digits_last (b : string) :
  Str.allDigits b = true -> b <> "" ->
  exists b' c, b = b' ++ String c "" /\ Str.isDigit c = true.
Proof.
  induction b as [ | x b IH]; [intros _ H; contradiction H; reflexivity | ].
  cbn [Str.allDigits]; intros H _; apply andb_prop in H; destruct H as [Hx Hb].
  destruct b as [ | y b].
  - exists "", x; split; [reflexivity | exact Hx].
  - destruct (IH Hb) as [b' [c [E Hc]]]; [discriminate | ].
    exists (String x b'), c; split; [cbn [append]; rewrite <- E; reflexivity | exact Hc].
Qed.

Lemma append_assoc (a b c : string) : (a ++ b) ++ c = a ++ (b ++ c).
Proof. induction a as [ | x a IH]; cbn [append]; [ | rewrite IH]; reflexivity. Qed.

Lemma spanDigits_dot (a r : string) :
  Str.allDigits a = true ->
  NumStr.spanDigits (a ++ String "." r) = (a, String "." r).
Proof.
  induction a as [ | c a IH]; [reflexivity | ].
  cbn [append Str.allDigits NumStr.spanDigits]; intros H; apply andb_prop in H.
  destruct H as [Hc Ha]; rewrite Hc, (IH Ha); reflexivity.
Qed.

Lemma trim_not_blank (t : string) :
  Str.allWhite t = false -> exists c r, Str.trim t = String c r.
Proof.
  unfold Str.trim; induction t as [ | x t IH]; [discriminate | ].
  cbn [Str.allWhite Str.trimStart].
  destruct (Str.isWhiteSpace x) eqn:Hx; [exact IH | intros _].
  cbn [Str.trimEnd].
  destruct (Str.trimEnd t); [rewrite Hx | ]; eexists; eexists; reflexivity.
Qed.

End Digits.

(** ** The result list of the search *)

Section SearchResults.
Import Val App.

(** C5 does not hold of the code.  An entry of the response without
    coordinates is kept in the result list with NaN for both, and the
    list is shown with that entry active; on Enter the entry goes to
    [selectResult], where the marker's constructor raises an Error that
    nothing catches.  The station path, given a record without
    coordinates, skips it before any marker is made. *)
Theorem nan_result_is_listed_and_enter_raises :
  results afterNoCoordinates
  = [{| display := JString "Oslo"; r_lat := NaN; r_lon := NaN; bbox := None |}]
  /\ showList afterNoCoordinates = true
  /\ activeIndex afterNoCoordinates = 0
  /\ onKeydown Enter afterNoCoordinates = None
  /\ drawStation (typeFilter idle) "2024-01-01T00:00:00.000Z"
                 (JObject [("display_name", JString "Oslo")])
     = Some None.
Proof.
  split; [ | split; [ | split; [ | split]]]; vm_compute; reflexivity.
Qed.

Lemma ToNumber_primitive (v : JSValue) :
  primitive v = true -> exists x, ToNumber v = Some x.
Proof. destruct v; try discriminate; intros _; eexists; reflexivity. Qed.

Lemma mapE_ToNumber_primitive (l : list JSValue) :
  forallb primitive l = true -> exists xs, mapE ToNumber l = Some xs.
Proof.
  induction l as [ | v l IH]; [intros _; exists []; reflexivity | ].
  cbn [forallb mapE]; intros H; apply andb_prop in H; destruct H as [Hv Hl].
  destruct (ToNumber_primitive v Hv) as [x ->], (IH Hl) as [xs ->].
  eexists; reflexivity.
Qed.

Lemma toResult_convertible (d : JSValue) :
  convertible d = true -> exists r, toResult d = Some r /\ madeFrom d r.
Proof.
  unfold convertible, toResult, propE, madeFrom; intros H.
  apply andb_prop in H; destruct H as [H Hb].
  apply andb_prop in H; destruct H as [H Hlo].
  apply andb_prop in H; destruct H as [Hd Hla].
  apply negb_true_iff in Hd; rewrite Hd.
  destruct (ToNumber_primitive _ Hla) as [la Ela].
  destruct (ToNumber_primitive _ Hlo) as [lo Elo].
  rewrite Ela, Elo.
  destruct d.["boundingbox"] as [ | | ? | ? | ? | items | ?];
    try discriminate; cbn [isNullish].
  - eexists; split; [reflexivity | cbn; auto].
  - eexists; split; [reflexivity | cbn; auto].
  - destruct (mapE_ToNumber_primitive items Hb) as [xs ->].
    eexists; split; [reflexivity | cbn; auto].
Qed.

Lemma mapE_toResult_convertible (items : list JSValue) :
  forallb convertible items = true ->
  exists rs, mapE toResult items = Some rs /\ Forall2 madeFrom items rs.
Proof.
  induction items as [ | d items IH]; [intros _; exists []; split; [reflexivity | constructor] | ].
  cbn [forallb mapE]; intros H; apply andb_prop in H; destruct H as [Hd Hi].
  destruct (toResult_convertible d Hd) as [r [-> M]], (IH Hi) as [rs [-> F]].
  exists (r :: rs); split; [reflexivity | constructor; assumption].
Qed.

(** X27: after a successful geocode response whose body is an array
    of entries that convert without exception, the result list has one
    entry for each entry of the response, in order, and is shown:
    nothing is excluded.  Each entry carries [Number(d.lat)] and
    [Number(d.lon)], which is NaN for a missing or malformed coordinate;
    the first entry, if any, is the active one. *)
Theorem every_response_entry_is_listed
        (resp : FetchResponse) (items : list JSValue) (st : State) :
  ok resp = true ->
  json resp = Some (JArray items) ->
  forallb convertible items = true ->
  exists rs,
    parseResponse (Some resp) = Some rs
    /\ results (onResponse (Some resp) st) = rs
    /\ showList (onResponse (Some resp) st) = true
    /\ activeIndex (onResponse (Some resp) st) = match rs with [] => -1 | _ => 0 end
    /\ List.length rs = List.length items
    /\ Forall2 madeFrom items rs.
Proof.
  intros Hok Hjson Hall.
  destruct (mapE_toResult_convertible items Hall) as [rs [E F]].
  assert (P : parseResponse (Some resp) = Some rs).
  { unfold parseResponse; rewrite Hok, Hjson; exact E. }
  exists rs; unfold onResponse; rewrite P.
  split; [reflexivity | split; [reflexivity | split; [reflexivity | split; [reflexivity | ]]]].
  split; [symmetry; exact (Forall2_length F) | exact F].
Qed.

(** When the request fails, the response is not ok, the body is not
    JSON or an entry raises an exception, the list is emptied and
    closed. *)
Lemma failed_search_closes_list (r : option FetchResponse) (st : State) :
  parseResponse r = None ->
  results (onResponse r st) = []
  /\ showList (onResponse r st) = false
  /\ activeIndex (onResponse r st) = -1
  /\ searching (onResponse r st) = false.
Proof. intros E; unfold onResponse; rewrite E; repeat split; reflexivity. Qed.

(** X27, witness: the response with one entry without coordinates. *)
Lemma every_response_entry_is_listed_witness :
  exists rs,
    parseResponse (Some responseNoCoordinates) = Some rs
    /\ results (onResponse (Some responseNoCoordinates) idle) = rs
    /\ showList (onResponse (Some responseNoCoordinates) idle) = true
    /\ activeIndex (onResponse (Some responseNoCoordinates) idle)
       = match rs with [] => -1 | _ => 0 end
    /\ List.length rs = 1%nat
    /\ Forall2 madeFrom [JObject [("display_name", JString "Oslo")]] rs.
Proof.
  apply (every_response_entry_is_listed
           responseNoCoordinates [JObject [("display_name", JString "Oslo")]] idle);
    reflexivity.
Defined.

End SearchResults.

(** ** Rendering the station list *)

Section Rendering.
Import Val App.

Lemma visible_clock (f : TypeFilter) (now1 now2 : string) (s : JSValue) :
  visible f now1 s = visible f now2 s.
Proof. reflexivity. Qed.

Lemma eqType_coercible (a : JSValue) (b : string) :
  coercible a = true -> exists r, eqType a b = Some r.
Proof.
  unfold coercible, eqType; destruct (ToString a); [intros _ | discriminate].
  destruct (isNullish a); eexists; reflexivity.
Qed.

Lemma passesTypeHide_coercible (f : TypeFilter) (n : NormalizedStation) :
  coercible (stationType n) = true -> exists r, passesTypeHide f n = Some r.
Proof.
  intros H; unfold passesTypeHide, flagged.
  destruct (eqType_coercible _ "wash" H) as [r1 ->].
  destruct (eqType_coercible _ "selfservice" H) as [r2 ->].
  destruct (eqType_coercible _ "truck" H) as [r3 ->].
  destruct (eqType_coercible _ "charginglocation" H) as [r4 ->].
  destruct f as [[] [] [] []]; cbn [hideWash hideSelfservice hideTruck hideChargingLocation];
    destruct r1, r2, r3, r4; eexists; reflexivity.
Qed.

Lemma colorForType_coercible (v : JSValue) :
  coercible v = true -> exists c, colorForType v = Some c.
Proof.
  unfold coercible, colorForType; destruct (ToString v) as [t | ]; [intros _ | discriminate].
  destruct (negb (ToBoolean v)); [eexists; reflexivity | ].
  match goal with |- context [if ?b then _ else _] => destruct b end;
    eexists; reflexivity.
Qed.

Lemma bindPopup_coercible (n : NormalizedStation) :
  coercible (name n) = true -> coercible (stationType n) = true ->
  coercible (lastUpdated n) = true ->
  exists p, bindPopup n = Some p.
Proof.
  unfold coercible, bindPopup, ToPrimitive; intros H1 H2 H3.
  destruct (ToString (name n)); [ | discriminate].
  destruct (ToString (stationType n)); [ | discriminate].
  destruct (ToBoolean (stationType n)); cbn [option_map];
    destruct (lastUpdated n); cbn [option_map];
    try (eexists; reflexivity);
    match goal with
    | H : match ?t with Some _ => true | None => false end = true |- _ =>
        destruct t; [eexists; reflexivity | discriminate]
    end.
Qed.

(** One station: a marker at its coordinates when it is visible,
    nothing otherwise, and no exception either way. *)
Lemma drawStation_renderable (f : TypeFilter) (now0 now : string) (s : JSValue) :
  renderable now0 s = true ->
  if visible f now0 s
  then exists m, drawStation f now s = Some (Some m)
  else drawStation f now s = Some None.
Proof.
  unfold renderable; cbv zeta; intros H.
  apply andb_prop in H; destruct H as [H Hu].
  apply andb_prop in H; destruct H as [Hn Ht].
  assert (Hu' : coercible (lastUpdated (normalizeStation now s)) = true).
  { rewrite lastUpdated_firstPresent in Hu |- *.
    induction (timeStamps s) as [ | v l IH]; [reflexivity | ].
    cbn [firstPresent] in *; destruct (isNullish v); [exact (IH Hu) | exact Hu]. }
  change (name (normalizeStation now0 s))
    with (name (normalizeStation now s)) in Hn.
  change (stationType (normalizeStation now0 s))
    with (stationType (normalizeStation now s)) in Ht.
  rewrite (visible_clock f now0 now s).
  unfold visible, drawStation; cbv zeta.
  destruct (lat (normalizeStation now s)) as [la | ]; [ | reflexivity].
  destruct (lng (normalizeStation now s)) as [lo | ]; [ | reflexivity].
  destruct (passesTypeHide_coercible f _ Ht) as [[] ->]; cbn [negb]; [ | reflexivity].
  destruct (colorForType_coercible _ Ht) as [c ->].
  destruct (bindPopup_coercible _ Hn Ht Hu') as [p ->].
  eexists; reflexivity.
Qed.

Lemma depicts_position (f : TypeFilter) (s : JSValue) (m1 m2 : Marker) :
  depicts f s m1 -> depicts f s m2 ->
  position m1 = position m2 /\ color m1 = color m2.
Proof.
  intros [now1 D1] [now2 D2]; revert D1 D2.
  unfold drawStation; cbv zeta.
  change (lat (normalizeStation now2 s)) with (lat (normalizeStation now1 s)).
  change (lng (normalizeStation now2 s)) with (lng (normalizeStation now1 s)).
  change (passesTypeHide f (normalizeStation now2 s))
    with (passesTypeHide f (normalizeStation now1 s)).
  change (stationType (normalizeStation now2 s))
    with (stationType (normalizeStation now1 s)).
  destruct (lat (normalizeStation now1 s)); [ | discriminate].
  destruct (lng (normalizeStation now1 s)); [ | discriminate].
  destruct (passesTypeHide f (normalizeStation now1 s)) as [[] | ];
    cbn [negb]; try discriminate.
  destruct (colorForType (stationType (normalizeStation now1 s))); [ | discriminate].
  destruct (bindPopup (normalizeStation now1 s)); [ | discriminate].
  destruct (bindPopup (normalizeStation now2 s)); [ | discriminate].
  intros E1 E2; injection E1 as <-; injection E2 as <-; split; reflexivity.
Qed.

Lemma drawFrom_renderable (f : TypeFilter) (clock : Clock) (now0 : string)
      (items : list JSValue) (i : nat) :
  forallb (renderable now0) items = true ->
  exists ms, drawFrom f clock i items = Some ms
             /\ Forall2 (depicts f) (filter (visible f now0) items) ms.
Proof.
  revert i; induction items as [ | s items IH]; intros i H.
  - exists []; split; [reflexivity | constructor].
  - cbn [forallb] in H; apply andb_prop in H; destruct H as [Hs Hi].
    destruct (IH (S i) Hi) as [ms [E F]].
    pose proof (drawStation_renderable f now0 (clock i) s Hs) as D.
    cbn [drawFrom filter]; rewrite E.
    destruct (visible f now0 s).
    + destruct D as [m D]; rewrite D.
      exists (m :: ms); split; [reflexivity | ].
      constructor; [exists (clock i); exact D | exact F].
    + rewrite D; exists ms; split; [reflexivity | exact F].
Qed.

Lemma depicts_same (f : TypeFilter) (l : list JSValue) (ms1 ms2 : list Marker) :
  Forall2 (depicts f) l ms1 -> Forall2 (depicts f) l ms2 ->
  List.map position ms1 = List.map position ms2
  /\ List.map color ms1 = List.map color ms2.
Proof.
  intros F1; revert ms2; induction F1 as [ | s m1 l ms1 D1 F1 IH]; intros ms2 F2.
  - inversion F2; split; reflexivity.
  - inversion F2 as [ | s' m2 l' ms2' D2 F2' ]; subst.
    destruct (depicts_position f s m1 m2 D1 D2) as [Ep Ec].
    destruct (IH _ F2') as [Ip Ic].
    cbn [List.map]; rewrite Ep, Ec, Ip, Ic; split; reflexivity.
Qed.

(** Whenever a station is drawn without exception, it gets a marker
    exactly when it is visible. *)
Lemma drawStation_visible (f : TypeFilter) (now : string) (s : JSValue)
      (r : option Marker) :
  drawStation f now s = Some r ->
  visible f now s = match r with Some _ => true | None => false end.
Proof.
  unfold drawStation, visible; cbv zeta.
  destruct (lat (normalizeStation now s)); [ | intros E; injection E as <-; reflexivity].
  destruct (lng (normalizeStation now s)); [ | intros E; injection E as <-; reflexivity].
  destruct (passesTypeHide f (normalizeStation now s)) as [[] | ]; cbn [negb];
    [ | intros E; injection E as <-; reflexivity | discriminate].
  destruct (colorForType (stationType (normalizeStation now s))); [ | discriminate].
  destruct (bindPopup (normalizeStation now s)); [ | discriminate].
  intros E; injection E as <-; reflexivity.
Qed.

Lemma drawFrom_count (f : TypeFilter) (clock : Clock) (now0 : string)
      (items : list JSValue) (i : nat) (ms : list Marker) :
  drawFrom f clock i items = Some ms ->
  List.length ms = List.length (filter (visible f now0) items).
Proof.
  revert i ms; induction items as [ | s items IH]; intros i ms.
  - intros E; injection E as <-; reflexivity.
  - cbn [drawFrom filter].
    destruct (drawStation f (clock i) s) as [r | ] eqn:D; [ | discriminate].
    destruct (drawFrom f clock (S i) items) as [rest | ] eqn:R; [ | discriminate].
    intros E; injection E as <-.
    rewrite (visible_clock f now0 (clock i) s), (drawStation_visible _ _ _ _ D).
    destruct r; cbn [List.length]; rewrite (IH _ _ R); reflexivity.
Qed.

(** Whenever a redraw returns, the count it leaves is the number of
    visible stations. *)
Lemma redraw_count_when_returns (clock : Clock) (now0 : string) (st st1 : State) :
  map st <> None ->
  redrawMarkers clock st = Some st1 ->
  visibleCount st1
  = List.length (filter (visible (typeFilter st) now0) (stations st)).
Proof.
  unfold redrawMarkers; intros M.
  destruct (map st); [ | contradiction M; reflexivity].
  destruct (drawFrom (typeFilter st) clock 0 (stations st)) as [ms | ] eqn:D;
    [ | discriminate].
  intros E; injection E as <-.
  exact (drawFrom_count _ _ now0 _ _ _ D).
Qed.

Lemma setMarkers_inputs (ms : list Marker) (st : State) :
  map (setMarkers ms st) = map st
  /\ stations (setMarkers ms st) = stations st
  /\ typeFilter (setMarkers ms st) = typeFilter st
  /\ markersGroup (setMarkers ms st) = Some ms
  /\ visibleCount (setMarkers ms st) = List.length ms.
Proof. repeat split; reflexivity. Qed.

(** The time stamp converts at one time when it does at another: the
    clock is read only when the record has no time stamp. *)
Lemma firstPresent_other_clock (l : list JSValue) (now1 now2 : string) :
  ToPrimitive (firstPresent l (JString now1)) <> None ->
  ToPrimitive (firstPresent l (JString now2)) <> None.
Proof.
  induction l as [ | v l IH]; [intros _; discriminate | ].
  cbn [firstPresent]; destruct (isNullish v); [exact IH | trivial].
Qed.

Lemma bindPopup_other_clock (now1 now2 : string) (s : JSValue) :
  bindPopup (normalizeStation now1 s) <> None ->
  bindPopup (normalizeStation now2 s) <> None.
Proof.
  unfold bindPopup.
  change (name (normalizeStation now2 s)) with (name (normalizeStation now1 s)).
  change (stationType (normalizeStation now2 s))
    with (stationType (normalizeStation now1 s)).
  pose proof (firstPresent_other_clock (timeStamps s) now1 now2) as P.
  rewrite <- !lastUpdated_firstPresent in P.
  destruct (ToString (name (normalizeStation now1 s))); [ | trivial].
  destruct (if ToBoolean (stationType (normalizeStation now1 s))
            then option_map Some (ToString (stationType (normalizeStation now1 s)))
            else Some None); [ | trivial].
  destruct (ToPrimitive (lastUpdated (normalizeStation now1 s)));
    [intros _ | intros H; contradiction H; reflexivity].
  destruct (ToPrimitive (lastUpdated (normalizeStation now2 s)));
    [discriminate | contradiction P; [discriminate | reflexivity]].
Qed.

(** A station drawn without exception at one time is drawn without
    exception at any other. *)
Lemma drawStation_other_clock (f : TypeFilter) (now1 now2 : string) (s : JSValue) :
  drawStation f now1 s <> None -> drawStation f now2 s <> None.
Proof.
  pose proof (bindPopup_other_clock now1 now2 s) as P.
  unfold drawStation; cbv zeta.
  change (lat (normalizeStation now2 s)) with (lat (normalizeStation now1 s)).
  change (lng (normalizeStation now2 s)) with (lng (normalizeStation now1 s)).
  change (passesTypeHide f (normalizeStation now2 s))
    with (passesTypeHide f (normalizeStation now1 s)).
  change (stationType (normalizeStation now2 s))
    with (stationType (normalizeStation now1 s)).
  destruct (lat (normalizeStation now1 s)); [ | trivial].
  destruct (lng (normalizeStation now1 s)); [ | trivial].
  destruct (passesTypeHide f (normalizeStation now1 s)) as [[] | ];
    cbn [negb]; [ | trivial | trivial].
  destruct (colorForType (stationType (normalizeStation now1 s))); [ | trivial].
  destruct (bindPopup (normalizeStation now1 s));
    [intros _ | intros H; contradiction H; reflexivity].
  destruct (bindPopup (normalizeStation now2 s));
    [discriminate | contradiction P; [discriminate | reflexivity]].
Qed.

(** A loop that ends without exception leaves one marker for each
    visible station, in order, and ends without exception at any other
    time too. *)
Lemma drawFrom_returns (f : TypeFilter) (clock1 clock2 : Clock) (now0 : string)
      (items : list JSValue) (i j : nat) (ms1 : list Marker) :
  drawFrom f clock1 i items = Some ms1 ->
  Forall2 (depicts f) (filter (visible f now0) items) ms1
  /\ exists ms2, drawFrom f clock2 j items = Some ms2
                 /\ Forall2 (depicts f) (filter (visible f now0) items) ms2.
Proof.
  revert i j ms1; induction items as [ | s items IH]; intros i j ms1.
  - intros E; injection E as <-; split; [constructor | ].
    exists []; split; [reflexivity | constructor].
  - cbn [drawFrom filter].
    destruct (drawStation f (clock1 i) s) as [r1 | ] eqn:D1; [ | discriminate].
    destruct (drawFrom f clock1 (S i) items) as [rest1 | ] eqn:R1; [ | discriminate].
    intros E; injection E as <-.
    destruct (IH (S i) (S j) rest1 R1) as [F1 [rest2 [R2 F2]]].
    rewrite R2.
    assert (N : drawStation f (clock1 i) s <> None) by (rewrite D1; discriminate).
    apply (drawStation_other_clock f (clock1 i) (clock2 j) s) in N.
    destruct (drawStation f (clock2 j) s) as [r2 | ] eqn:D2;
      [clear N | contradiction N; reflexivity].
    pose proof (drawStation_visible _ _ _ _ D1) as V1.
    pose proof (drawStation_visible _ _ _ _ D2) as V2.
    rewrite (visible_clock f now0 (clock1 i) s).
    rewrite <- (visible_clock f (clock1 i) (clock2 j) s) in V2.
    destruct r1 as [m1 | ], r2 as [m2 | ]; rewrite V1 in V2 |- *;
      try discriminate V2.
    + split; [constructor; [exists (clock1 i); exact D1 | exact F1] | ].
      exists (m2 :: rest2); split; [reflexivity | ].
      constructor; [exists (clock2 j); exact D2 | exact F2].
    + split; [exact F1 | exists rest2; split; [reflexivity | exact F2]].
Qed.

(** C8, as stated, fails: of the two stations loaded, both have
    coordinates and pass the filter, and the name of the second is an
    object that cannot be converted to text; the redraw raises a
    TypeError while it builds that station's popup, before the count is
    written, so that the count is still 0. *)
Lemma odd_name_interrupts_redraw :
  redrawMarkers (fun _ => "2024-01-01T00:00:00.000Z") loadedOdd = None
  /\ List.length (filter (visible (typeFilter loadedOdd) "2024-01-01T00:00:00.000Z")
                         (stations loadedOdd)) = 2%nat
  /\ visibleCount loadedOdd = 0%nat.
Proof. split; [ | split]; vm_compute; reflexivity. Qed.

(** C8 (amended): for every station list and filter state, a redraw
    that ends without exception leaves as the count the number of
    stations with both coordinates non-null that pass the type filter,
    and one marker for each of them, in order; a second redraw, at any
    later time, with the station list and the filter unchanged, ends
    without exception too, with the same count and markers for the same
    stations at the same positions. *)
Theorem completed_redraw_counts_visible_stations
        (clock1 clock2 : Clock) (now0 : string) (st st1 : State) :
  map st <> None ->
  redrawMarkers clock1 st = Some st1 ->
  exists st2 ms1 ms2,
    redrawMarkers clock2 st1 = Some st2
    /\ visibleCount st1
       = List.length (filter (visible (typeFilter st) now0) (stations st))
    /\ visibleCount st2 = visibleCount st1
    /\ markersGroup st1 = Some ms1
    /\ markersGroup st2 = Some ms2
    /\ Forall2 (depicts (typeFilter st))
               (filter (visible (typeFilter st) now0) (stations st)) ms1
    /\ Forall2 (depicts (typeFilter st))
               (filter (visible (typeFilter st) now0) (stations st)) ms2
    /\ List.map position ms1 = List.map position ms2
    /\ List.map color ms1 = List.map color ms2.
Proof.
  unfold redrawMarkers at 1; intros Hmap.
  destruct (map st) as [v | ] eqn:M; [clear Hmap | contradiction Hmap; reflexivity].
  destruct (drawFrom (typeFilter st) clock1 0 (stations st)) as [ms1 | ] eqn:E1;
    [ | discriminate].
  intros E; injection E as <-.
  destruct (drawFrom_returns _ clock1 clock2 now0 _ 0%nat 0%nat _ E1)
    as [F1 [ms2 [E2 F2]]].
  destruct (depicts_same _ _ _ _ F1 F2) as [Ep Ec].
  exists (setMarkers ms2 (setMarkers ms1 st)), ms1, ms2.
  split.
  { unfold redrawMarkers; cbn [map setMarkers stations typeFilter].
    rewrite M, E2; reflexivity. }
  cbn [visibleCount markersGroup setMarkers].
  rewrite <- (Forall2_length F1), <- (Forall2_length F2).
  repeat (split; [first [reflexivity | assumption] | ]).
  exact Ec.
Qed.

(** X28: a redraw raises no exception when the name, the type and the
    time stamp of every station convert to text: for every state with a
    map and such stations, the redraw and a second one, at any later
    time, return, each with the number of stations with both
    coordinates non-null that pass the type filter as count, and one
    marker for each of them, in order, at the same positions. *)
Theorem renderable_stations_are_all_drawn
        (clock1 clock2 : Clock) (now0 : string) (st : State) :
  map st <> None ->
  forallb (renderable now0) (stations st) = true ->
  exists st1 st2 ms1 ms2,
    redrawMarkers clock1 st = Some st1
    /\ redrawMarkers clock2 st1 = Some st2
    /\ visibleCount st1
       = List.length (filter (visible (typeFilter st) now0) (stations st))
    /\ visibleCount st2 = visibleCount st1
    /\ markersGroup st1 = Some ms1
    /\ markersGroup st2 = Some ms2
    /\ Forall2 (depicts (typeFilter st))
               (filter (visible (typeFilter st) now0) (stations st)) ms1
    /\ Forall2 (depicts (typeFilter st))
               (filter (visible (typeFilter st) now0) (stations st)) ms2
    /\ List.map position ms1 = List.map position ms2
    /\ List.map color ms1 = List.map color ms2.
Proof.
  intros Hmap Hall.
  destruct (drawFrom_renderable (typeFilter st) clock1 now0 (stations st) 0 Hall)
    as [ms1 [E1 F1]].
  destruct (drawFrom_renderable (typeFilter st) clock2 now0 (stations st) 0 Hall)
    as [ms2 [E2 F2]].
  destruct (depicts_same _ _ _ _ F1 F2) as [Ep Ec].
  exists (setMarkers ms1 st), (setMarkers ms2 (setMarkers ms1 st)), ms1, ms2.
  assert (R1 : redrawMarkers clock1 st = Some (setMarkers ms1 st)).
  { unfold redrawMarkers; destruct (map st); [ | contradiction Hmap; reflexivity].
    rewrite E1; reflexivity. }
  assert (R2 : redrawMarkers clock2 (setMarkers ms1 st)
               = Some (setMarkers ms2 (setMarkers ms1 st))).
  { unfold redrawMarkers; cbn [map setMarkers stations typeFilter].
    destruct (map st); [ | contradiction Hmap; reflexivity].
    rewrite E2; reflexivity. }
  split; [exact R1 | split; [exact R2 | ]].
  cbn [visibleCount markersGroup setMarkers].
  rewrite <- (Forall2_length F1), <- (Forall2_length F2).
  repeat (split; [first [reflexivity | assumption] | ]).
  exact Ec.
Qed.

(** Redrawing at the same clock readings changes nothing more. *)
Lemma redraw_idempotent (clock : Clock) (st st1 : State) :
  redrawMarkers clock st = Some st1 -> redrawMarkers clock st1 = Some st1.
Proof.
  unfold redrawMarkers; destruct (map st) eqn:M.
  - destruct (drawFrom (typeFilter st) clock 0 (stations st)) as [ms | ] eqn:D;
      [ | discriminate].
    intros E; injection E as <-.
    cbn [map setMarkers stations typeFilter]; rewrite M, D; reflexivity.
  - intros E; injection E as <-; rewrite M; reflexivity.
Qed.

(** C8, witness: of the three stations loaded, A is hidden by the
    filter, B has no latitude, C is shown. *)
Lemma completed_redraw_counts_visible_stations_witness :
  exists st2,
    redrawMarkers (fun _ => "2024-01-01T00:00:05.000Z")
                  (match redrawMarkers (fun _ => "2024-01-01T00:00:00.000Z") loaded with
                   | Some st1 => st1
                   | None => loaded
                   end) = Some st2
    /\ visibleCount (match redrawMarkers (fun _ => "2024-01-01T00:00:00.000Z") loaded with
                     | Some st1 => st1
                     | None => loaded
                     end) = 1%nat
    /\ visibleCount st2 = 1%nat.
Proof.
  destruct (completed_redraw_counts_visible_stations
              (fun _ => "2024-01-01T00:00:00.000Z")
              (fun _ => "2024-01-01T00:00:05.000Z") "" loaded
              (match redrawMarkers (fun _ => "2024-01-01T00:00:00.000Z") loaded with
               | Some st1 => st1
               | None => loaded
               end))
    as [st2 [ms1 [ms2 [R2 [C1 [C2 _]]]]]].
  - discriminate.
  - vm_compute; reflexivity.
  - exists st2; split; [exact R2 | ].
    rewrite C2, C1; split; vm_compute; reflexivity.
Defined.

(** X28, witness: the same three stations. *)
Lemma renderable_stations_are_all_drawn_witness :
  exists st1 st2,
    redrawMarkers (fun _ => "2024-01-01T00:00:00.000Z") loaded = Some st1
    /\ redrawMarkers (fun _ => "2024-01-01T00:00:05.000Z") st1 = Some st2
    /\ visibleCount st1 = 1%nat
    /\ visibleCount st2 = 1%nat.
Proof.
  destruct (renderable_stations_are_all_drawn
              (fun _ => "2024-01-01T00:00:00.000Z")
              (fun _ => "2024-01-01T00:00:05.000Z") "" loaded)
    as [st1 [st2 [ms1 [ms2 [R1 [R2 [C1 [C2 _]]]]]]]].
  - discriminate.
  - vm_compute; reflexivity.
  - exists st1, st2; split; [exact R1 | split; [exact R2 | ]].
    rewrite C2, C1; split; vm_compute; reflexivity.
Defined.

(** The end-to-end example of the specification: with [hideWash] on,
    A is hidden by the filter and B has no usable latitude. *)
Example spec_records_A_B_hidden :
  filter (visible (typeFilter loaded) "") [recordA; recordB] = [].
Proof. vm_compute; reflexivity. Qed.

End Rendering.

(* ================================================================== *)
(** * Further properties *)

(** ** Commas and white space in [toNumber] *)

Section Commas.
Import Val App.

Lemma hasComma_head (c : ascii) (s : string) :
  hasComma (String c s) = false -> c <> ","%char /\ hasComma s = false.
Proof.
  cbn [hasComma]; intros H; apply orb_false_elim in H; destruct H as [Hc Hs].
  split; [apply Ascii.eqb_neq; exact Hc | exact Hs].
Qed.

Lemma hasComma_app (a b : string) :
  hasComma (a ++ b) = hasComma a || hasComma b.
Proof.
  induction a as [ | c a IH]; [reflexivity | ].
  cbn [append hasComma]; rewrite IH, orb_assoc; reflexivity.
Qed.

Lemma replace_no_comma (s : string) :
  hasComma s = false -> Str.replace "," "." s = s.
Proof.
  induction s as [ | c s IH]; [reflexivity | ].
  intros H; destruct (hasComma_head c s H) as [Hc Hs].
  rewrite (replace_comma_later c s Hc), (IH Hs); reflexivity.
Qed.

Lemma replace_first_comma (a b : string) :
  hasComma a = false ->
  Str.replace "," "." (a ++ String "," b) = a ++ String "." b.
Proof.
  induction a as [ | c a IH]; cbn [append].
  - intros _; apply replace_comma_here.
  - intros H; destruct (hasComma_head c a H) as [Hc Ha].
    rewrite (replace_comma_later c _ Hc), (IH Ha); reflexivity.
Qed.

(** X1: a decimal comma is read as a decimal point: for texts [a] and
    [b] without comma, [a,b] and [a.b] are coerced to the same result. *)
Theorem comma_reads_as_point (a b : string) :
  hasComma a = false -> hasComma b = false ->
  toNumber (JString (a ++ "," ++ b)) = toNumber (JString (a ++ "." ++ b)).
Proof.
  intros Ha Hb.
  change (a ++ "," ++ b) with (a ++ String "," b).
  change (a ++ "." ++ b) with (a ++ String "." b).
  cbn [toNumber].
  rewrite (replace_first_comma a b Ha).
  rewrite (replace_no_comma (a ++ String "." b)); [reflexivity | ].
  rewrite hasComma_app, Ha; cbn [hasComma orb]; exact Hb.
Qed.

(** X1, witness: ["-1,5e3"] and ["-1.5e3"]. *)
Lemma comma_reads_as_point_witness :
  toNumber (JString "-1,5e3") = toNumber (JString "-1.5e3").
Proof. apply (comma_reads_as_point "-1" "5e3"); reflexivity. Defined.

(** *** A text with a comma is not a number *)

Lemma hasComma_trimStart (s : string) :
  hasComma s = true -> hasComma (Str.trimStart s) = true.
Proof.
  induction s as [ | c s IH]; [discriminate | ].
  cbn [Str.trimStart]; destruct (Str.isWhiteSpace c) eqn:W; [ | trivial].
  cbn [hasComma]; destruct (Ascii.eqb_spec c ","); [ | exact IH].
  subst c; vm_compute in W; discriminate W.
Qed.

Lemma hasComma_trimEnd (s : string) :
  hasComma s = true -> hasComma (Str.trimEnd s) = true.
Proof.
  induction s as [ | c s IH]; [discriminate | ].
  cbn [hasComma Str.trimEnd]; destruct (Ascii.eqb_spec c ",") as [-> | N].
  - intros _; destruct (Str.trimEnd s); reflexivity.
  - cbn [orb]; intros H; specialize (IH H).
    destruct (Str.trimEnd s); [discriminate IH | ].
    cbn [hasComma]; apply orb_true_iff; right; exact IH.
Qed.

Lemma hasComma_trim (s : string) :
  hasComma s = true -> hasComma (Str.trim s) = true.
Proof. intros H; apply hasComma_trimEnd, hasComma_trimStart, H. Qed.

Lemma allDigits_no_comma (s : string) :
  Str.allDigits s = true -> hasComma s = false.
Proof.
  induction s as [ | c s IH]; [reflexivity | ].
  cbn [Str.allDigits hasComma]; intros H; apply andb_prop in H.
  destruct H as [Hc Hs]; rewrite (IH Hs), orb_false_r.
  apply Ascii.eqb_neq, digit_not_comma, Hc.
Qed.

Lemma spanDigits_comma (s : string) :
  hasComma s = true -> hasComma (snd (NumStr.spanDigits s)) = true.
Proof.
  induction s as [ | c s IH]; [discriminate | ].
  cbn [NumStr.spanDigits]; destruct (Str.isDigit c) eqn:D; [ | trivial].
  cbn [hasComma]; rewrite (proj2 (Ascii.eqb_neq _ _) (digit_not_comma c D)).
  cbn [orb]; intros H; specialize (IH H).
  destruct (NumStr.spanDigits s); exact IH.
Qed.

Lemma exponentPart_comma (s : string) :
  hasComma s = true -> NumStr.exponentPart s = None.
Proof.
  destruct s as [ | c r]; [discriminate | ].
  cbn [NumStr.exponentPart hasComma].
  destruct ((c =? "e")%char || (c =? "E")%char) eqn:E; [ | reflexivity].
  assert (Hc : (c =? ",")%char = false).
  { apply orb_true_iff in E; destruct E as [E | E];
      apply Ascii.eqb_eq in E; subst c; reflexivity. }
  rewrite Hc; cbn [orb]; intros H.
  destruct r as [ | d r']; [discriminate H | ].
  destruct (Ascii.eqb_spec d "-") as [-> | N1];
    [ | destruct (Ascii.eqb_spec d "+") as [-> | N2]].
  - cbn [hasComma Ascii.eqb] in H; cbn in H.
    destruct r'; [discriminate H | ].
    destruct (Str.allDigits (String a r')) eqn:A; [ | reflexivity].
    rewrite (allDigits_no_comma _ A) in H; discriminate H.
  - cbn in H.
    destruct r'; [discriminate H | ].
    destruct (Str.allDigits (String a r')) eqn:A; [ | reflexivity].
    rewrite (allDigits_no_comma _ A) in H; discriminate H.
  - assert (M : (let '(neg, ds) :=
                   match String d r' with
                   | String "-" r0 => (true, r0)
                   | String "+" r0 => (false, r0)
                   | _ => (false, String d r')
                   end in
                 match ds with
                 | "" => None
                 | String _ _ =>
                     if Str.allDigits ds
                     then Some (if neg then - NumStr.decValue 0 ds
                                else NumStr.decValue 0 ds)
                     else None
                 end)
                = (if Str.allDigits (String d r')
                   then Some (NumStr.decValue 0 (String d r')) else None)).
    { destruct d as [[] [] [] [] [] [] [] []];
        first [reflexivity | contradiction N1; reflexivity
               | contradiction N2; reflexivity]. }
    rewrite M.
    destruct (Str.allDigits (String d r')) eqn:A; [ | reflexivity].
    rewrite (allDigits_no_comma _ A) in H; discriminate H.
Qed.

Lemma unsignedDecimal_comma (s : string) :
  hasComma s = true -> NumStr.unsignedDecimal s = None.
Proof.
  intros H; unfold NumStr.unsignedDecimal.
  pose proof (spanDigits_comma s H) as H1.
  destruct (NumStr.spanDigits s) as [ip r1]; cbn [snd] in H1.
  destruct r1 as [ | c r]; [discriminate H1 | ].
  destruct (Ascii.eqb_spec c ".") as [-> | N].
  - cbn in H1.
    pose proof (spanDigits_comma r H1) as H2.
    destruct (NumStr.spanDigits r) as [fp r2]; cbn [snd] in H2.
    rewrite (exponentPart_comma r2 H2).
    destruct ip, fp; reflexivity.
  - assert (M : match String c r with
                | String "." r0 => (true, NumStr.spanDigits r0)
                | _ => (false, ("", String c r))
                end = (false, ("", String c r))).
    { destruct c as [[] [] [] [] [] [] [] []];
        first [reflexivity | contradiction N; reflexivity]. }
    rewrite M, (exponentPart_comma _ H1).
    destruct ip; reflexivity.
Qed.

Lemma strDecimalLiteral_comma (s : string) :
  hasComma s = true -> NumStr.strDecimalLiteral s = None.
Proof.
  intros H; unfold NumStr.strDecimalLiteral.
  assert (K : forall (neg : bool) (u : string),
             hasComma u = true ->
             (if (u =? "Infinity")%string then Some (Inf neg)
              else match NumStr.unsignedDecimal u with
                   | Some q => Some (Num.roundDouble (if neg then (- q)%Q else q))
                   | None => None
                   end) = None).
  { intros neg u Hu; rewrite (unsignedDecimal_comma u Hu).
    destruct (String.eqb_spec u "Infinity") as [-> | _];
      [discriminate Hu | reflexivity]. }
  destruct s as [ | c r]; [discriminate H | ].
  destruct (Ascii.eqb_spec c "-") as [-> | N1];
    [ | destruct (Ascii.eqb_spec c "+") as [-> | N2]].
  - apply K; exact H.
  - apply K; exact H.
  - assert (M : match String c r with
                | String "-" r0 => (true, r0)
                | String "+" r0 => (false, r0)
                | _ => (false, String c r)
                end = (false, String c r)).
    { destruct c as [[] [] [] [] [] [] [] []];
        first [reflexivity | contradiction N1; reflexivity
               | contradiction N2; reflexivity]. }
    rewrite M; apply K; exact H.
Qed.

Lemma radixValue_comma (radix acc : Z) (ds : string) :
  radix <= 16 -> hasComma ds = true -> NumStr.radixValue radix acc ds = None.
Proof.
  intros R; revert acc; induction ds as [ | c ds IH]; intros acc; [discriminate | ].
  cbn [hasComma NumStr.radixValue].
  destruct (Ascii.eqb_spec c ",") as [-> | _].
  - intros _; unfold NumStr.radixDigit; cbn.
    destruct (Z.ltb_spec 99 radix); [lia | reflexivity].
  - cbn [orb]; intros H.
    destruct (NumStr.radixDigit radix c); [apply IH; exact H | reflexivity].
Qed.

Lemma nonDecimalLiteral_comma (s : string) :
  hasComma s = true -> NumStr.nonDecimalLiteral s = None.
Proof.
  intros H; unfold NumStr.nonDecimalLiteral.
  destruct s as [ | c0 [ | c ds]];
    [discriminate H
    | destruct c0 as [[] [] [] [] [] [] [] []]; reflexivity | ].
  destruct c0 as [[] [] [] [] [] [] [] []]; try reflexivity.
  change (hasComma (String c ds) = true) in H; cbn [hasComma] in H.
  destruct ds as [ | d ds]; [reflexivity | ].
  destruct (Ascii.eqb_spec c ",") as [-> | N]; [reflexivity | ].
  cbn [orb] in H; cbv zeta.
  destruct ((c =? "x")%char || (c =? "X")%char);
    [ | destruct ((c =? "o")%char || (c =? "O")%char);
        [ | destruct ((c =? "b")%char || (c =? "B")%char); [ | reflexivity]]];
    cbn [Z.eqb]; rewrite radixValue_comma by (trivial; lia); reflexivity.
Qed.

(** Number(t) is NaN for every text [t] that holds a comma. *)
Lemma toNumber_comma_NaN (t : string) :
  hasComma t = true -> NumStr.toNumber t = NaN.
Proof.
  intros H; unfold NumStr.toNumber, NumStr.strNumericLiteral.
  pose proof (hasComma_trim t H) as Ht.
  destruct (Str.trim t) as [ | c r]; [discriminate Ht | ].
  rewrite (nonDecimalLiteral_comma _ Ht), (strDecimalLiteral_comma _ Ht).
  reflexivity.
Qed.

Lemma replace_keeps_second_comma (a b : string) :
  hasComma b = true ->
  hasComma (Str.replace "," "." (a ++ String "," b)) = true.
Proof.
  intros Hb; induction a as [ | c a IH]; cbn [append].
  - rewrite replace_comma_here; exact Hb.
  - destruct (Ascii.eqb_spec c ",") as [-> | N].
    + rewrite replace_comma_here; cbn [hasComma Ascii.eqb]; cbn.
      rewrite hasComma_app; cbn [hasComma]; cbn; apply orb_true_r.
    + rewrite (replace_comma_later c _ N); cbn [hasComma].
      rewrite IH; apply orb_true_r.
Qed.

(** X2: only the first comma is read as a decimal point: a text with
    two commas or more (a thousands separator, a list of numbers) is
    coerced to null. *)
Theorem two_commas_give_null (a b c : string) :
  toNumber (JString (a ++ "," ++ b ++ "," ++ c)) = None.
Proof.
  change (a ++ "," ++ b ++ "," ++ c) with (a ++ String "," (b ++ String "," c)).
  cbn [toNumber].
  assert (H : hasComma (b ++ String "," c) = true).
  { rewrite hasComma_app; cbn [hasComma]; cbn; apply orb_true_r. }
  rewrite (toNumber_comma_NaN _ (replace_keeps_second_comma a _ H)); reflexivity.
Qed.

(** *** White space around the text *)

Lemma allWhite_no_comma (w : string) : Str.allWhite w = true -> hasComma w = false.
Proof.
  induction w as [ | c w IH]; [reflexivity | ].
  cbn [Str.allWhite hasComma]; intros H; apply andb_prop in H.
  destruct H as [Hc Hw]; rewrite (IH Hw), orb_false_r.
  apply Ascii.eqb_neq, white_not_comma, Hc.
Qed.

Lemma replace_app_l (w t : string) :
  hasComma w = false ->
  Str.replace "," "." (w ++ t) = w ++ Str.replace "," "." t.
Proof.
  induction w as [ | c w IH]; [reflexivity | ].
  intros H; destruct (hasComma_head c w H) as [Hc Hw]; cbn [append].
  rewrite (replace_comma_later c _ Hc), (IH Hw); reflexivity.
Qed.

Lemma replace_app_r (t w : string) :
  hasComma w = false ->
  Str.replace "," "." (t ++ w) = Str.replace "," "." t ++ w.
Proof.
  intros H; induction t as [ | c t IH]; cbn [append].
  - apply replace_no_comma, H.
  - destruct (Ascii.eqb_spec c ",") as [-> | N].
    + rewrite !replace_comma_here; reflexivity.
    + rewrite !(replace_comma_later c _ N), IH; reflexivity.
Qed.

Lemma trimStart_app_white (w t : string) :
  Str.allWhite w = true -> Str.trimStart (w ++ t) = Str.trimStart t.
Proof.
  induction w as [ | c w IH]; [reflexivity | ].
  cbn [Str.allWhite append Str.trimStart]; intros H; apply andb_prop in H.
  destruct H as [Hc Hw]; rewrite Hc; exact (IH Hw).
Qed.

Lemma trimEnd_allWhite (w : string) : Str.allWhite w = true -> Str.trimEnd w = "".
Proof.
  induction w as [ | c w IH]; [reflexivity | ].
  cbn [Str.allWhite Str.trimEnd]; intros H; apply andb_prop in H.
  destruct H as [Hc Hw]; rewrite (IH Hw), Hc; reflexivity.
Qed.

Lemma trimEnd_app_white (t w : string) :
  Str.allWhite w = true -> Str.trimEnd (t ++ w) = Str.trimEnd t.
Proof.
  intros H; induction t as [ | c t IH]; cbn [append].
  - apply trimEnd_allWhite, H.
  - cbn [Str.trimEnd]; rewrite IH; reflexivity.
Qed.

Lemma trim_app_white (w1 t w2 : string) :
  Str.allWhite w1 = true -> Str.allWhite w2 = true ->
  Str.trim (w1 ++ t ++ w2) = Str.trim t.
Proof.
  intros H1 H2; unfold Str.trim; rewrite (trimStart_app_white w1 _ H1).
  induction t as [ | c t IH]; cbn [append].
  - rewrite (trimStart_allWhite w2 H2); reflexivity.
  - cbn [Str.trimStart]; destruct (Str.isWhiteSpace c); [exact IH | ].
    exact (trimEnd_app_white (String c t) w2 H2).
Qed.

(** X3: white space around the text does not change the coercion: a
    text with white space before and after it is coerced like the text
    itself. *)
Theorem toNumber_ignores_white_space (w1 t w2 : string) :
  Str.allWhite w1 = true -> Str.allWhite w2 = true ->
  toNumber (JString (w1 ++ t ++ w2)) = toNumber (JString t).
Proof.
  intros H1 H2; cbn [toNumber]; unfold NumStr.toNumber.
  rewrite (replace_app_l w1 _ (allWhite_no_comma w1 H1)).
  rewrite (replace_app_r t w2 (allWhite_no_comma w2 H2)).
  rewrite (trim_app_white w1 _ w2 H1 H2); reflexivity.
Qed.

(** X3, witness: ["59,91"] with one space before and two after. *)
Lemma toNumber_ignores_white_space_witness :
  toNumber (JString (" " ++ "59,91" ++ "  ")) = toNumber (JString "59,91").
Proof. apply (toNumber_ignores_white_space " " "59,91" "  "); reflexivity. Defined.

End Commas.


(** ** Numerals with a decimal comma *)

Section Numerals.
Import Val App.

Lemma spanDigits_sound (s d r : string) :
  NumStr.spanDigits s = (d, r) -> s = d ++ r /\ Str.allDigits d = true.
Proof.
  revert d r; induction s as [ | c s IH]; intros d r.
  - intros E; injection E as <- <-; split; reflexivity.
  - cbn [NumStr.spanDigits]; destruct (Str.isDigit c) eqn:Hc.
    + destruct (NumStr.spanDigits s) as [d' r'].
      destruct (IH d' r' eq_refl) as [-> Hd].
      intros E; injection E as <- <-; split; [reflexivity | ].
      cbn [Str.allDigits]; rewrite Hc, Hd; reflexivity.
    + intros E; injection E as <- <-; split; reflexivity.
Qed.

Lemma spanDigits_app (d r : string) :
  Str.allDigits d = true ->
  match r with String c _ => Str.isDigit c = false | EmptyString => True end ->
  NumStr.spanDigits (d ++ r) = (d, r).
Proof.
  intros Hd Hr; induction d as [ | c d IH].
  - destruct r as [ | c r]; [reflexivity | ].
    cbn [append NumStr.spanDigits]; rewrite Hr; reflexivity.
  - cbn [Str.allDigits] in Hd; apply andb_prop in Hd; destruct Hd as [Hc Hd].
    cbn [append NumStr.spanDigits]; rewrite Hc, (IH Hd); reflexivity.
Qed.

(** How the parser reads a sign. *)
Lemma sign_cases (s : string) :
  exists sg u,
    s = signText sg ++ u
    /\ match s with
       | String "-" r => (true, r)
       | String "+" r => (false, r)
       | _ => (false, s)
       end = (match sg with Minus => true | _ => false end, u).
Proof.
  destruct s as [ | c r]; [exists NoSign, ""; split; reflexivity | ].
  destruct c as [[] [] [] [] [] [] [] []];
    first [ exists Minus, r; split; reflexivity
          | exists Plus, r; split; reflexivity
          | eexists NoSign, _; split; reflexivity ].
Qed.

Lemma unsigned_start (u : string) :
  match u with
  | String c _ => (c =? "+")%char || (c =? "-")%char = false
  | EmptyString => True
  end ->
  match u with
  | String "-" r => (true, r)
  | String "+" r => (false, r)
  | _ => (false, u)
  end = (false, u).
Proof.
  destruct u as [ | c r]; [reflexivity | ].
  destruct c as [[] [] [] [] [] [] [] []]; intros H;
    first [reflexivity | discriminate H].
Qed.

(** How the parser reads the decimal point. *)
Lemma point_cases (r1 : string) :
  (exists r, r1 = String "." r
             /\ match r1 with
                | String "." r => (true, NumStr.spanDigits r)
                | _ => (false, (EmptyString, r1))
                end = (true, NumStr.spanDigits r))
  \/ match r1 with
     | String "." r => (true, NumStr.spanDigits r)
     | _ => (false, (EmptyString, r1))
     end = (false, (EmptyString, r1)).
Proof.
  destruct r1 as [ | c r]; [right; reflexivity | ].
  destruct c as [[] [] [] [] [] [] [] []];
    first [right; reflexivity | left; exists r; split; reflexivity].
Qed.

Lemma digit_unsigned (c : ascii) :
  Str.isDigit c = true -> (c =? "+")%char || (c =? "-")%char = false.
Proof.
  destruct c as [[] [] [] [] [] [] [] []]; intros H;
    first [reflexivity | discriminate H].
Qed.

Lemma exponentPart_sound (r : string) (e : Z) :
  NumStr.exponentPart r = Some e ->
  exists ex, exponentOk ex = true /\ r = exponentText ex /\ e = exponentValue ex.
Proof.
  destruct r as [ | c r].
  - intros E; injection E as <-; exists None; repeat split.
  - unfold NumStr.exponentPart.
    destruct ((c =? "e")%char || (c =? "E")%char) eqn:Hc; [ | discriminate].
    destruct (sign_cases r) as [sg [u [-> Em]]]; rewrite Em.
    destruct u as [ | a u]; [discriminate | ].
    destruct (Str.allDigits (String a u)) eqn:Hd; [ | discriminate].
    intros E; injection E as <-.
    apply orb_prop in Hc; destruct Hc as [Hc | Hc]; apply Ascii.eqb_eq in Hc; subst c.
    + exists (Some {| e_capital := false; e_sign := sg; e_digits := String a u |}).
      cbn [exponentOk exponentText exponentValue e_capital e_sign e_digits].
      rewrite Hd; destruct sg; repeat split.
    + exists (Some {| e_capital := true; e_sign := sg; e_digits := String a u |}).
      cbn [exponentOk exponentText exponentValue e_capital e_sign e_digits].
      rewrite Hd; destruct sg; repeat split.
Qed.

Lemma exponentPart_complete (ex : option Exponent) :
  exponentOk ex = true ->
  NumStr.exponentPart (exponentText ex) = Some (exponentValue ex).
Proof.
  destruct ex as [[cap sg ds] | ]; [ | reflexivity].
  cbn [exponentOk exponentText exponentValue e_capital e_sign e_digits].
  intros H; apply andb_prop in H; destruct H as [Hd Hn].
  destruct ds as [ | a ds]; [discriminate Hn | clear Hn].
  assert (Ha : (a =? "+")%char || (a =? "-")%char = false).
  { cbn [Str.allDigits] in Hd; apply andb_prop in Hd.
    apply digit_unsigned, Hd. }
  pose proof (unsigned_start (String a ds) Ha) as U.
  destruct cap, sg; cbn [signText append NumStr.exponentPart Ascii.eqb Bool.eqb orb andb];
    try rewrite U; rewrite Hd; reflexivity.
Qed.

(** The value the parser gives an unsigned decimal literal. *)
Lemma unsignedDecimal_sound (u : string) (q : Q) :
  NumStr.unsignedDecimal u = Some q ->
  exists ip fp ex,
    decimalOk {| d_sign := NoSign; d_int := ip; d_frac := fp; d_exp := ex |} = true
    /\ (u = ip ++ "." ++ fp ++ exponentText ex
        \/ (fp = "" /\ u = ip ++ exponentText ex))
    /\ q = (inject_Z (NumStr.decValue 0 (ip ++ fp))
            * Num.pow10 (exponentValue ex - Z.of_nat (String.length fp)))%Q.
Proof.
  unfold NumStr.unsignedDecimal.
  destruct (NumStr.spanDigits u) as [ip r1] eqn:E1.
  destruct (spanDigits_sound _ _ _ E1) as [-> Hip].
  destruct (point_cases r1) as [[r [-> _]] | Em]; [cbv beta iota | rewrite Em].
  - destruct (NumStr.spanDigits r) as [fp r2] eqn:E2.
    destruct (spanDigits_sound _ _ _ E2) as [-> Hfp].
    intros H.
    assert (K : (ip =? "")%string && (fp =? "")%string = false
                /\ match NumStr.exponentPart r2 with
                   | Some e =>
                       Some (inject_Z (NumStr.decValue 0 (ip ++ fp))
                             * Num.pow10 (e - Z.of_nat (String.length fp)))%Q
                   | None => None
                   end = Some q).
    { destruct ip, fp; try discriminate H; split; try reflexivity; exact H. }
    clear H; destruct K as [Hne H].
    destruct (NumStr.exponentPart r2) as [e | ] eqn:Ee; [ | discriminate].
    destruct (exponentPart_sound _ _ Ee) as [ex [Hex [-> ->]]].
    injection H as <-.
    exists ip, fp, ex; split; [ | split; [left; reflexivity | reflexivity]].
    unfold decimalOk; cbn [d_int d_frac d_exp].
    rewrite Hip, Hfp, Hne, Hex; reflexivity.
  - intros H.
    assert (K : (ip =? "")%string = false
                /\ match NumStr.exponentPart r1 with
                   | Some e =>
                       Some (inject_Z (NumStr.decValue 0 (ip ++ ""))
                             * Num.pow10 (e - Z.of_nat (String.length "")))%Q
                   | None => None
                   end = Some q).
    { destruct ip; try discriminate H; split; try reflexivity; exact H. }
    clear H; destruct K as [Hne H].
    destruct (NumStr.exponentPart r1) as [e | ] eqn:Ee; [ | discriminate].
    destruct (exponentPart_sound _ _ Ee) as [ex [Hex [-> ->]]].
    injection H as <-.
    exists ip, "", ex; split; [ | split; [right; split; reflexivity | reflexivity]].
    unfold decimalOk; cbn [d_int d_frac d_exp].
    rewrite Hip, Hne, Hex; reflexivity.
Qed.

Lemma exponentText_start (ex : option Exponent) :
  match exponentText ex with
  | String c _ => Str.isDigit c = false
  | EmptyString => True
  end.
Proof. destruct ex as [[[] sg ds] | ]; cbn; trivial. Qed.

Lemma unsignedDecimal_point (ip fp : string) (ex : option Exponent) :
  decimalOk {| d_sign := NoSign; d_int := ip; d_frac := fp; d_exp := ex |} = true ->
  NumStr.unsignedDecimal (ip ++ "." ++ fp ++ exponentText ex)
  = Some (inject_Z (NumStr.decValue 0 (ip ++ fp))
          * Num.pow10 (exponentValue ex - Z.of_nat (String.length fp)))%Q.
Proof.
  unfold decimalOk; cbn [d_int d_frac d_exp]; intros H.
  apply andb_prop in H; destruct H as [H Hex].
  apply andb_prop in H; destruct H as [H Hne].
  apply andb_prop in H; destruct H as [Hip Hfp].
  unfold NumStr.unsignedDecimal; cbn [append].
  rewrite (spanDigits_dot ip _ Hip).
  rewrite (spanDigits_app fp _ Hfp (exponentText_start ex)).
  rewrite (exponentPart_complete ex Hex).
  destruct ip, fp; try reflexivity; discriminate Hne.
Qed.

Lemma exponentText_no_point (ex : option Exponent) :
  match exponentText ex with
  | String "." r => (true, NumStr.spanDigits r)
  | _ => (false, (EmptyString, exponentText ex))
  end = (false, (EmptyString, exponentText ex)).
Proof. destruct ex as [[[] sg ds] | ]; reflexivity. Qed.

Lemma unsignedDecimal_integer (ip : string) (ex : option Exponent) :
  decimalOk {| d_sign := NoSign; d_int := ip; d_frac := ""; d_exp := ex |} = true ->
  NumStr.unsignedDecimal (ip ++ exponentText ex)
  = Some (inject_Z (NumStr.decValue 0 (ip ++ ""))
          * Num.pow10 (exponentValue ex - 0))%Q.
Proof.
  unfold decimalOk; cbn [d_int d_frac d_exp]; intros H.
  apply andb_prop in H; destruct H as [H Hex].
  apply andb_prop in H; destruct H as [H Hne].
  apply andb_prop in H; destruct H as [Hip _].
  unfold NumStr.unsignedDecimal.
  rewrite (spanDigits_app ip _ Hip (exponentText_start ex)).
  rewrite (exponentText_no_point ex), (exponentPart_complete ex Hex).
  destruct ip; [discriminate Hne | reflexivity].
Qed.

(** *** Signed literals *)

Lemma strDecimalLiteral_sound (s : string) (v : JSNum) :
  NumStr.strDecimalLiteral s = Some v ->
  (exists sg, s = signText sg ++ "Infinity")
  \/ exists d, decimalOk d = true
               /\ (s = written "." d \/ (d_frac d = "" /\ s = written "" d))
               /\ v = Num.roundDouble (decimalNumber d).
Proof.
  unfold NumStr.strDecimalLiteral.
  destruct (sign_cases s) as [sg [u [-> Em]]]; rewrite Em.
  destruct (String.eqb_spec u "Infinity") as [-> | _];
    [intros _; left; exists sg; reflexivity | ].
  destruct (NumStr.unsignedDecimal u) as [q | ] eqn:U; [ | discriminate].
  destruct (unsignedDecimal_sound _ _ U) as [ip [fp [ex [Hok [Hu ->]]]]].
  intros E; injection E as <-; right.
  exists {| d_sign := sg; d_int := ip; d_frac := fp; d_exp := ex |}.
  split; [exact Hok | split].
  - unfold written; cbn [d_sign d_int d_frac d_exp].
    destruct Hu as [-> | [-> ->]]; [left; reflexivity | right; split; reflexivity].
  - unfold decimalNumber; cbn [d_sign d_int d_frac d_exp].
    destruct sg; reflexivity.
Qed.

Lemma startsDecimal_unsigned (u : string) :
  startsDecimal u = true ->
  match u with
  | String c _ => (c =? "+")%char || (c =? "-")%char = false
  | EmptyString => True
  end.
Proof.
  destruct u as [ | c r]; [trivial | cbn [startsDecimal]].
  destruct c as [[] [] [] [] [] [] [] []]; intros H;
    first [reflexivity | discriminate H].
Qed.

Lemma startsDecimal_not_infinity (u : string) :
  startsDecimal u = true -> (u =? "Infinity")%string = false.
Proof.
  destruct u as [ | c r]; [reflexivity | cbn [startsDecimal]].
  destruct c as [[] [] [] [] [] [] [] []]; intros H;
    first [reflexivity | discriminate H].
Qed.

Lemma strDecimalLiteral_signed (sg : Sign) (u : string) (q : Q) :
  startsDecimal u = true ->
  NumStr.unsignedDecimal u = Some q ->
  NumStr.strDecimalLiteral (signText sg ++ u)
  = Some (Num.roundDouble (match sg with Minus => (- q)%Q | _ => q end)).
Proof.
  intros Hs U; unfold NumStr.strDecimalLiteral.
  pose proof (unsigned_start u (startsDecimal_unsigned u Hs)) as N.
  destruct sg; cbn [signText append]; try rewrite N;
    rewrite (startsDecimal_not_infinity u Hs), U; reflexivity.
Qed.

(** *** Hexadecimal, octal and binary literals *)

Lemma radixDigit_hex (c : ascii) :
  occurs c (digitsOfRadix 16)
  = match NumStr.radixDigit 16 c with Some _ => true | None => false end.
Proof. destruct c as [[] [] [] [] [] [] [] []]; vm_compute; reflexivity. Qed.

Lemma radixDigit_octal (c : ascii) :
  occurs c (digitsOfRadix 8)
  = match NumStr.radixDigit 8 c with Some _ => true | None => false end.
Proof. destruct c as [[] [] [] [] [] [] [] []]; vm_compute; reflexivity. Qed.

Lemma radixDigit_binary (c : ascii) :
  occurs c (digitsOfRadix 2)
  = match NumStr.radixDigit 2 c with Some _ => true | None => false end.
Proof. destruct c as [[] [] [] [] [] [] [] []]; vm_compute; reflexivity. Qed.

Lemma radixOf_values (c : ascii) (radix : Z) :
  radixOf c = Some radix -> radix = 16 \/ radix = 8 \/ radix = 2.
Proof.
  unfold radixOf.
  destruct ((c =? "x")%char || (c =? "X")%char);
    [intros E; injection E as <-; auto | ].
  destruct ((c =? "o")%char || (c =? "O")%char);
    [intros E; injection E as <-; auto | ].
  destruct ((c =? "b")%char || (c =? "B")%char);
    [intros E; injection E as <-; auto | discriminate].
Qed.

Lemma radixDigit_occurs (radix : Z) (c : ascii) :
  radix = 16 \/ radix = 8 \/ radix = 2 ->
  occurs c (digitsOfRadix radix)
  = match NumStr.radixDigit radix c with Some _ => true | None => false end.
Proof.
  intros [-> | [-> | ->]];
    [apply radixDigit_hex | apply radixDigit_octal | apply radixDigit_binary].
Qed.

Lemma radixValue_allOf (radix acc : Z) (ds : string) :
  radix = 16 \/ radix = 8 \/ radix = 2 ->
  allOf (digitsOfRadix radix) ds
  = match NumStr.radixValue radix acc ds with Some _ => true | None => false end.
Proof.
  intros Hr; revert acc; induction ds as [ | c ds IH]; intros acc; [reflexivity | ].
  cbn [allOf NumStr.radixValue]; rewrite (radixDigit_occurs radix c Hr).
  destruct (NumStr.radixDigit radix c); [apply IH | reflexivity].
Qed.

(** What the parser does after [0] and a letter. *)
Lemma nonDecimalLiteral_zero (c : ascii) (ds : string) :
  NumStr.nonDecimalLiteral (String "0" (String c ds))
  = match radixOf c, ds with
    | Some radix, String _ _ =>
        option_map (fun v => Num.roundDouble (inject_Z v))
                   (NumStr.radixValue radix 0 ds)
    | _, _ => None
    end.
Proof.
  unfold NumStr.nonDecimalLiteral, radixOf.
  destruct ((c =? "x")%char || (c =? "X")%char); [destruct ds; reflexivity | ].
  destruct ((c =? "o")%char || (c =? "O")%char); [destruct ds; reflexivity | ].
  destruct ((c =? "b")%char || (c =? "B")%char); destruct ds; reflexivity.
Qed.

Lemma nonDecimalLiteral_other (c : ascii) (r : string) :
  (c =? "0")%char = false -> NumStr.nonDecimalLiteral (String c r) = None.
Proof.
  destruct c as [[] [] [] [] [] [] [] []]; intros H;
    first [reflexivity | discriminate H | destruct r; reflexivity].
Qed.

Lemma nonDecimalLiteral_sound (s : string) (v : JSNum) :
  NumStr.nonDecimalLiteral s = Some v ->
  exists c radix ds,
    s = String "0" (String c ds) /\ radixOf c = Some radix /\ ds <> ""
    /\ allOf (digitsOfRadix radix) ds = true.
Proof.
  destruct s as [ | c0 s]; [discriminate | ].
  destruct (Ascii.eqb_spec c0 "0") as [-> | N];
    [ | rewrite nonDecimalLiteral_other by (apply Ascii.eqb_neq, N); discriminate].
  destruct s as [ | c ds]; [discriminate | ].
  rewrite nonDecimalLiteral_zero.
  destruct (radixOf c) as [radix | ] eqn:R; [ | discriminate].
  destruct ds as [ | a ds]; [discriminate | ].
  intros E; exists c, radix, (String a ds).
  split; [reflexivity | split; [exact R | split; [discriminate | ]]].
  rewrite (radixValue_allOf radix 0 _ (radixOf_values c radix R)).
  destruct (NumStr.radixValue radix 0 (String a ds)); [reflexivity | discriminate E].
Qed.

(** *** The parser accepts the numeric strings and no others *)

Lemma parser_sound (t : string) (v : JSNum) :
  NumStr.strNumericLiteral t = Some v -> Numeric t.
Proof.
  unfold NumStr.strNumericLiteral.
  destruct (NumStr.nonDecimalLiteral t) as [w | ] eqn:N.
  - intros _.
    destruct (nonDecimalLiteral_sound _ _ N) as [c [radix [ds [-> [R [Hn Hd]]]]]].
    exact (numeric_radix c radix ds R Hn Hd).
  - intros D; destruct (strDecimalLiteral_sound _ _ D)
      as [[sg ->] | [d [Hok [[-> | [Hf ->]] _]]]].
    + apply numeric_infinity.
    + apply numeric_point, Hok.
    + apply numeric_integer; assumption.
Qed.

Lemma signText_decimal_not_radix (sg : Sign) (u : string) :
  startsDecimal u = true ->
  (forall c r, u = String "0" (String c r) -> radixOf c = None) ->
  NumStr.nonDecimalLiteral (signText sg ++ u) = None.
Proof.
  intros Hs Hr; destruct sg; cbn [signText append]; try reflexivity.
  destruct u as [ | c0 r]; [reflexivity | ].
  destruct (Ascii.eqb_spec c0 "0") as [-> | N];
    [ | apply nonDecimalLiteral_other, Ascii.eqb_neq, N].
  destruct r as [ | c ds]; [reflexivity | ].
  rewrite nonDecimalLiteral_zero, (Hr c ds eq_refl); reflexivity.
Qed.

Lemma digit_no_radix (c : ascii) :
  Str.isDigit c || (c =? ".")%char || (c =? "e")%char || (c =? "E")%char = true ->
  radixOf c = None.
Proof.
  destruct c as [[] [] [] [] [] [] [] []]; intros H;
    first [reflexivity | discriminate H].
Qed.

Lemma exponentText_no_radix (ex : option Exponent) (c : ascii) (r : string) :
  exponentText ex = String c r -> radixOf c = None.
Proof.
  destruct ex as [[[] sg ds] | ]; cbn [exponentText e_capital append];
    [ | | discriminate]; intros E; injection E as <- _; reflexivity.
Qed.

(** The value of a numeral written with a point. *)
Lemma point_value (d : Decimal) :
  decimalOk d = true ->
  NumStr.strNumericLiteral (written "." d)
  = Some (Num.roundDouble (decimalNumber d)).
Proof.
  destruct d as [sg ip fp ex]; intros Hok.
  pose proof (unsignedDecimal_point ip fp ex Hok) as U.
  unfold decimalOk in Hok; cbn [d_int d_frac d_exp] in Hok.
  apply andb_prop in Hok; destruct Hok as [Hok _].
  apply andb_prop in Hok; destruct Hok as [Hok _].
  apply andb_prop in Hok; destruct Hok as [Hip _].
  unfold written, decimalNumber, NumStr.strNumericLiteral;
    cbn [d_sign d_int d_frac d_exp].
  assert (Hs : startsDecimal (ip ++ "." ++ fp ++ exponentText ex) = true).
  { destruct ip as [ | c ip]; [reflexivity | ].
    cbn [Str.allDigits] in Hip; apply andb_prop in Hip; destruct Hip as [Hc _].
    cbn [append startsDecimal]; rewrite Hc; reflexivity. }
  rewrite signText_decimal_not_radix; [ | exact Hs | ].
  - rewrite (strDecimalLiteral_signed sg _ _ Hs U); destruct sg; reflexivity.
  - intros c r E; destruct ip as [ | c0 [ | c2 ip]]; cbn [append] in E.
    + discriminate E.
    + injection E as _ <- _; reflexivity.
    + injection E as _ <- _.
      cbn [Str.allDigits] in Hip; apply andb_prop in Hip; destruct Hip as [_ Hip].
      apply andb_prop in Hip; destruct Hip as [Hc2 _].
      apply digit_no_radix; rewrite Hc2; reflexivity.
Qed.

(** The value of a numeral without separator and fraction. *)
Lemma integer_value (d : Decimal) :
  decimalOk d = true -> d_frac d = "" ->
  NumStr.strNumericLiteral (written "" d)
  = Some (Num.roundDouble (decimalNumber d)).
Proof.
  destruct d as [sg ip fp ex]; cbn [d_frac]; intros Hok ->.
  pose proof (unsignedDecimal_integer ip ex Hok) as U.
  unfold decimalOk in Hok; cbn [d_int d_frac d_exp] in Hok.
  apply andb_prop in Hok; destruct Hok as [Hok _].
  apply andb_prop in Hok; destruct Hok as [Hok Hne].
  apply andb_prop in Hok; destruct Hok as [Hip _].
  unfold written, decimalNumber, NumStr.strNumericLiteral;
    cbn [d_sign d_int d_frac d_exp append].
  destruct ip as [ | c0 ip]; [discriminate Hne | clear Hne].
  cbn [Str.allDigits] in Hip; apply andb_prop in Hip; destruct Hip as [Hc0 Hip].
  assert (Hs : startsDecimal (String c0 ip ++ exponentText ex) = true)
    by (cbn [append startsDecimal]; rewrite Hc0; reflexivity).
  rewrite signText_decimal_not_radix; [ | exact Hs | ].
  - rewrite (strDecimalLiteral_signed sg _ _ Hs U); destruct sg; reflexivity.
  - intros c r E; destruct ip as [ | c2 ip]; cbn [append] in E.
    + injection E as _ E; exact (exponentText_no_radix ex c r E).
    + injection E as _ <- _.
      cbn [Str.allDigits] in Hip; apply andb_prop in Hip; destruct Hip as [Hc2 _].
      apply digit_no_radix; rewrite Hc2; reflexivity.
Qed.

Lemma infinity_value (sg : Sign) :
  NumStr.strNumericLiteral (signText sg ++ "Infinity")
  = Some (Inf match sg with Minus => true | _ => false end).
Proof. destruct sg; vm_compute; reflexivity. Qed.

Lemma parser_complete (t : string) :
  Numeric t -> exists v, NumStr.strNumericLiteral t = Some v.
Proof.
  intros [sg | d Hok | d Hok Hf | c radix ds R Hn Hd].
  - eexists; apply infinity_value.
  - eexists; apply point_value, Hok.
  - eexists; apply integer_value; assumption.
  - unfold NumStr.strNumericLiteral; rewrite nonDecimalLiteral_zero, R.
    destruct ds as [ | a ds]; [contradiction Hn; reflexivity | ].
    rewrite (radixValue_allOf radix 0 _ (radixOf_values c radix R)) in Hd.
    destruct (NumStr.radixValue radix 0 (String a ds)); [ | discriminate Hd].
    eexists; reflexivity.
Qed.

(** A string is numeric exactly when the parser gives it a value. *)
Lemma numeric_iff_parsed (t : string) :
  Numeric t <-> exists v, NumStr.strNumericLiteral t = Some v.
Proof.
  split; [apply parser_complete | intros [v E]; exact (parser_sound t v E)].
Qed.

(** *** White space around a numeral *)

Lemma ends_app (a b : string) :
  (exists b' c, b = b' ++ String c "" /\ Str.isWhiteSpace c = false) ->
  exists s' c, a ++ b = s' ++ String c "" /\ Str.isWhiteSpace c = false.
Proof.
  intros [b' [c [-> Hc]]]; exists (a ++ b'), c; split; [ | exact Hc].
  symmetry; apply append_assoc.
Qed.

Lemma ends_digits (ds : string) :
  Str.allDigits ds = true -> ds <> "" ->
  exists s' c, ds = s' ++ String c "" /\ Str.isWhiteSpace c = false.
Proof.
  intros Hd Hn; destruct (digits_last ds Hd Hn) as [b' [c [E Hc]]].
  exists b', c; split; [exact E | apply digit_not_white, Hc].
Qed.

Lemma append_empty (s : string) : s ++ "" = s.
Proof. induction s as [ | c s IH]; cbn [append]; [ | rewrite IH]; reflexivity. Qed.

Lemma written_ends (d : Decimal) :
  decimalOk d = true ->
  exists s' c, written "." d = s' ++ String c "" /\ Str.isWhiteSpace c = false.
Proof.
  destruct d as [sg ip fp ex]; unfold decimalOk, written;
    cbn [d_sign d_int d_frac d_exp]; intros H.
  apply andb_prop in H; destruct H as [H Hex].
  apply andb_prop in H; destruct H as [H _].
  apply andb_prop in H; destruct H as [_ Hfp].
  apply ends_app, ends_app.
  destruct ex as [[cap esg ds] | ].
  - cbn [exponentOk e_digits] in Hex; apply andb_prop in Hex.
    destruct Hex as [Hd Hn].
    apply ends_app, ends_app; cbn [exponentText e_capital e_sign e_digits].
    apply ends_app, ends_app, ends_digits; [exact Hd | ].
    intros ->; discriminate Hn.
  - cbn [exponentText]; rewrite append_empty.
    destruct fp as [ | c fp].
    + exists "", "."%char; split; reflexivity.
    + apply ends_app, ends_digits; [exact Hfp | discriminate].
Qed.

Lemma written_starts (d : Decimal) :
  decimalOk d = true ->
  Str.trimStart (written "." d) = written "." d.
Proof.
  destruct d as [sg ip fp ex]; unfold decimalOk, written;
    cbn [d_sign d_int d_frac d_exp]; intros H.
  apply andb_prop in H; destruct H as [H _].
  apply andb_prop in H; destruct H as [H _].
  apply andb_prop in H; destruct H as [Hip _].
  destruct sg; cbn [signText append]; try reflexivity.
  destruct ip as [ | c ip]; [reflexivity | ].
  cbn [Str.allDigits] in Hip; apply andb_prop in Hip; destruct Hip as [Hc _].
  cbn [append]; apply trimStart_digit, Hc.
Qed.

Lemma trim_written (d : Decimal) :
  decimalOk d = true -> Str.trim (written "." d) = written "." d.
Proof.
  intros H; unfold Str.trim; rewrite (written_starts d H).
  destruct (written_ends d H) as [s' [c [-> Hc]]]; apply trimEnd_last, Hc.
Qed.

Lemma signText_no_comma (sg : Sign) : hasComma (signText sg) = false.
Proof. destruct sg; reflexivity. Qed.

(** The first comma of a numeral written with a comma is its
    separator. *)
Lemma replace_written (w1 w2 : string) (d : Decimal) :
  Str.allWhite w1 = true -> decimalOk d = true ->
  Str.replace "," "." (w1 ++ written "," d ++ w2) = w1 ++ written "." d ++ w2.
Proof.
  destruct d as [sg ip fp ex]; unfold decimalOk, written;
    cbn [d_sign d_int d_frac d_exp]; intros Hw H.
  apply andb_prop in H; destruct H as [H _].
  apply andb_prop in H; destruct H as [H _].
  apply andb_prop in H; destruct H as [Hip _].
  assert (E : forall sep : ascii,
             w1 ++ (signText sg ++ ip ++ String sep "" ++ fp ++ exponentText ex) ++ w2
             = (w1 ++ signText sg ++ ip)
                 ++ String sep ((fp ++ exponentText ex) ++ w2)).
  { intros sep; rewrite !append_assoc; reflexivity. }
  rewrite (E ","%char), (E "."%char).
  apply replace_first_comma.
  rewrite !hasComma_app, (allWhite_no_comma w1 Hw), (signText_no_comma sg),
    (allDigits_no_comma ip Hip); reflexivity.
Qed.

(** A numeral written with a comma, white space around it or not, is
    coerced to the number nearest to what it denotes, if that is
    finite. *)
Lemma toNumber_written (w1 w2 : string) (d : Decimal) :
  Str.allWhite w1 = true -> Str.allWhite w2 = true -> decimalOk d = true ->
  toNumber (JString (w1 ++ written "," d ++ w2))
  = finiteOnly (Num.roundDouble (decimalNumber d)).
Proof.
  intros H1 H2 Hok; unfold toNumber, NumStr.toNumber.
  rewrite (replace_written w1 w2 d H1 Hok), (trim_app_white w1 _ w2 H1 H2),
    (trim_written d Hok).
  pose proof (point_value d Hok) as V.
  destruct (written "." d) as [ | c r]; [discriminate V | ].
  rewrite V; reflexivity.
Qed.

Lemma allWhite_replace (t : string) :
  Str.allWhite t = false -> Str.allWhite (Str.replace "," "." t) = false.
Proof.
  induction t as [ | c t IH]; [discriminate | ].
  destruct (Ascii.eqb_spec c ",") as [-> | N].
  - intros _; rewrite replace_comma_here; reflexivity.
  - rewrite (replace_comma_later c t N); cbn [Str.allWhite].
    destruct (Str.isWhiteSpace c); [exact IH | reflexivity].
Qed.

(** A string that is neither blank nor numeric is coerced to null. *)
Lemma toNumber_not_numeric (t : string) :
  Str.allWhite t = false -> ~ numericWithComma t -> toNumber (JString t) = None.
Proof.
  unfold numericWithComma, toNumber, NumStr.toNumber; intros W N.
  destruct (trim_not_blank _ (allWhite_replace t W)) as [c [r E]]; rewrite E in *.
  destruct (NumStr.strNumericLiteral (String c r)) as [v | ] eqn:P;
    [contradiction N; exact (parser_sound _ _ P) | reflexivity].
Qed.

(** A string that the parser refuses is not numeric. *)
Lemma refused_not_numeric (t : string) :
  NumStr.strNumericLiteral (Str.trim (Str.replace "," "." t)) = None ->
  ~ numericWithComma t.
Proof.
  intros E H; destruct (parser_complete _ H) as [v P]; rewrite E in P; discriminate P.
Qed.

(** C7, as stated, fails at two places: the empty string is not
    numeric, and is coerced to 0, not to null; and a numeral with a
    decimal comma that denotes a number too large for a finite value is
    coerced to null. *)
Lemma blank_string_is_zero_and_large_is_null :
  rawCoordinate Latitude recordBlankAndLarge = JString ""
  /\ ~ numericWithComma ""
  /\ lat (normalizeStation "2024-01-01T00:00:00.000Z" recordBlankAndLarge)
     = Some Num.zero
  /\ rawCoordinate Longitude recordBlankAndLarge
     = JString (written "," {| d_sign := NoSign; d_int := Str.repeat "9" 400;
                               d_frac := "5"; d_exp := None |})
  /\ decimalOk {| d_sign := NoSign; d_int := Str.repeat "9" 400;
                  d_frac := "5"; d_exp := None |} = true
  /\ lng (normalizeStation "2024-01-01T00:00:00.000Z" recordBlankAndLarge) = None.
Proof.
  split; [vm_compute; reflexivity | ].
  split; [apply refused_not_numeric; reflexivity | ].
  split; [ | split; [ | split]]; vm_compute; reflexivity.
Qed.

(** C7 (amended): for every raw record and either coordinate: when the
    coordinate's value is a numeral with a decimal comma (white space,
    a sign, digits, the comma, digits, an exponent part, of which only
    the comma and a digit are required; such as ["59,91"]),
    normalisation yields the number nearest to the one it denotes
    (59.91), or null when that number is not finite; when it is a number
    that is not finite, null; when it is a string that is not blank and,
    with its first comma read as a decimal point, not numeric, null; and
    when it is a blank string, 0. *)
Theorem comma_decimal_coercion (ax : Axis) (now : string) (s : JSValue) :
  (forall (w1 w2 : string) (d : Decimal),
      Str.allWhite w1 = true -> Str.allWhite w2 = true -> decimalOk d = true ->
      rawCoordinate ax s = JString (w1 ++ written "," d ++ w2) ->
      coordinate ax (normalizeStation now s)
      = finiteOnly (Num.roundDouble (decimalNumber d)))
  /\ (forall x : JSNum,
         rawCoordinate ax s = JNumber x -> Num.isFinite x = false ->
         coordinate ax (normalizeStation now s) = None)
  /\ (forall t : string,
         rawCoordinate ax s = JString t ->
         Str.allWhite t = false -> ~ numericWithComma t ->
         coordinate ax (normalizeStation now s) = None)
  /\ (forall t : string,
         rawCoordinate ax s = JString t -> Str.allWhite t = true ->
         coordinate ax (normalizeStation now s) = Some Num.zero).
Proof.
  rewrite (coordinate_toNumber ax now s).
  split; [ | split; [ | split]].
  - intros w1 w2 d H1 H2 Hok ->; apply toNumber_written; assumption.
  - intros x -> H; cbn [toNumber]; rewrite H; reflexivity.
  - intros t ->; apply toNumber_not_numeric.
  - intros t ->; apply toNumber_blank.
Qed.

(** C7, witness: [" -59,91e0"], a blank string, Infinity and a text
    that is not numeric. *)
Lemma comma_decimal_coercion_witness :
  lat (normalizeStation "2024-01-01T00:00:00.000Z" (coordinatesOnly " -59,91e0" " "))
  = Some (Fin (- 2107895731841925 # 35184372088832))
  /\ lng (normalizeStation "2024-01-01T00:00:00.000Z" (coordinatesOnly " -59,91e0" " "))
     = Some Num.zero
  /\ lat (normalizeStation "2024-01-01T00:00:00.000Z" recordInfinite) = None
  /\ lng (normalizeStation "2024-01-01T00:00:00.000Z" recordInfinite) = None.
Proof.
  split; [ | split; [ | split]].
  - exact (proj1 (comma_decimal_coercion
                    Latitude "2024-01-01T00:00:00.000Z"
                    (coordinatesOnly " -59,91e0" " "))
                 " " ""
                 {| d_sign := Minus; d_int := "59"; d_frac := "91";
                    d_exp := Some {| e_capital := false; e_sign := NoSign;
                                     e_digits := "0" |} |}
                 eq_refl eq_refl eq_refl eq_refl).
  - exact (proj2 (proj2 (proj2 (comma_decimal_coercion
                    Longitude "2024-01-01T00:00:00.000Z"
                    (coordinatesOnly " -59,91e0" " "))))
                 " " eq_refl eq_refl).
  - exact (proj1 (proj2 (comma_decimal_coercion
                    Latitude "2024-01-01T00:00:00.000Z" recordInfinite))
                 (Inf false) eq_refl eq_refl).
  - exact (proj1 (proj2 (proj2 (comma_decimal_coercion
                    Longitude "2024-01-01T00:00:00.000Z" recordInfinite)))
                 "not-a-number" eq_refl eq_refl
                 (refused_not_numeric "not-a-number" eq_refl)).
Defined.

(** The number of the witness prints as -59.91. *)
Example nearest_to_59_91 :
  NumStr.toString (Fin (- 2107895731841925 # 35184372088832)) = "-59.91".
Proof. vm_compute; reflexivity. Qed.

(** The examples of the grammar: each is numeric, and so is each with
    a decimal comma at the place of the point. *)
Example numeric_examples :
  Forall numericWithComma
         ["59.91"; "59,91"; " -59,91"; "1,5e3"; ",5"; "5,"; "+.5E-2"; "12";
          "0x1F"; "0b101"; "-Infinity"].
Proof.
  repeat constructor; apply numeric_iff_parsed; eexists; vm_compute; reflexivity.
Qed.

End Numerals.

(** ** What [normalizeStation] reads *)

Section RecordShape.
Import Val App.

Lemma prop_absent (es : list (string * JSValue)) (k : string) :
  hasOwn k es = false -> (JObject es).[k] = JUndefined.
Proof.
  unfold hasOwn; cbn [prop]; destruct (lookup k es); [discriminate | reflexivity].
Qed.

Lemma lookup_without (k key : string) (es : list (string * JSValue)) :
  (key =? k)%string = false -> lookup key (without k es) = lookup key es.
Proof.
  intros N; induction es as [ | [k' v] es IH]; [reflexivity | ].
  cbn [without filter fst lookup]; fold (without k es).
  destruct (String.eqb_spec k' k) as [-> | Nk]; cbn [negb].
  - rewrite String.eqb_sym, N; exact IH.
  - cbn [lookup]; rewrite IH; reflexivity.
Qed.

Lemma prop_without (k key : string) (es : list (string * JSValue)) :
  (key =? k)%string = false -> (JObject (without k es)).[key] = (JObject es).[key].
Proof. intros N; cbn [prop]; rewrite (lookup_without k key es N); reflexivity. Qed.

(** X4: a list element that is not an object (null, a number, a text,
    an array), or an object with none of the keys the function reads,
    is normalised to the record of fall-backs: the fixed name, no
    coordinates, the time of the call, no type. *)
Theorem unreadable_record_gets_defaults (now : string) (v : JSValue) :
  hasRecognisedKey v = false ->
  normalizeStation now v = defaultStation now.
Proof.
  destruct v as [ | | b | x | t | l | es]; try reflexivity.
  cbn [hasRecognisedKey recognisedKeys existsb]; intros H.
  repeat (apply orb_false_elim in H; destruct H as [?H H]).
  unfold normalizeStation, optProp, coalesce; cbn [isNullish].
  repeat (progress (repeat match goal with
                           | K : hasOwn ?k es = false |- _ =>
                               rewrite (prop_absent es k K)
                           end; cbn [isNullish])).
  reflexivity.
Qed.

(** X4, witness: the number 7 as a list element. *)
Lemma unreadable_record_gets_defaults_witness :
  normalizeStation "2024-01-01T00:00:00.000Z" (JNumber (Fin 7))
  = defaultStation "2024-01-01T00:00:00.000Z".
Proof.
  apply (unreadable_record_gets_defaults _ (JNumber (Fin 7))); reflexivity.
Defined.

Lemma coalesce_present_r (a b : JSValue) :
  isNullish b = false -> isNullish (a ?? b) = false.
Proof.
  unfold coalesce; intros H; destruct (isNullish a) eqn:E; [exact H | exact E].
Qed.

(** X5: whatever the record, the name and the time stamp of the
    normalised station are neither null nor undefined, and its type is
    never undefined (it is null when the record has none). *)
Theorem normalized_fields_are_present (now : string) (s : JSValue) :
  isNullish (name (normalizeStation now s)) = false
  /\ isNullish (lastUpdated (normalizeStation now s)) = false
  /\ (stationType (normalizeStation now s) = JNull
      \/ isNullish (stationType (normalizeStation now s)) = false).
Proof.
  unfold normalizeStation; cbn [name lastUpdated stationType].
  split; [apply coalesce_present_r; reflexivity | ].
  split; [apply coalesce_present_r; reflexivity | ].
  set (a := s?."station"?."stationType" ?? s?."stationType").
  destruct (isNullish a) eqn:E.
  - left; apply coalesce_nullish_l; exact E.
  - right; rewrite (coalesce_present_l a _ E); exact E.
Qed.

(** X6: the result depends on the recognised keys only: taking away
    from the record every entry under a key the function does not read
    changes nothing. *)
Theorem unrecognised_keys_are_ignored
        (now k : string) (es : list (string * JSValue)) :
  forallb (fun key => negb (key =? k)%string) recognisedKeys = true ->
  normalizeStation now (JObject (without k es)) = normalizeStation now (JObject es).
Proof.
  cbn [recognisedKeys forallb]; intros H.
  repeat (apply andb_prop in H; destruct H as [?H H]).
  repeat match goal with
         | K : negb _ = true |- _ => apply negb_true_iff in K
         end.
  unfold normalizeStation, optProp; cbn [isNullish].
  repeat match goal with
         | K : (?key =? k)%string = false |- _ =>
             rewrite !(prop_without k key es K)
         end.
  set (sub := (if isNullish (JObject es).["station"] then JUndefined
               else (JObject es).["station"].["geolocation"])
              ?? (JObject es).["geolocation"] ?? (JObject es).["geo"]).
  assert (G : forall key, (key =? k)%string = false ->
                          (sub ?? JObject (without k es) ?? JObject []).[key]
                          = (sub ?? JObject es ?? JObject []).[key]).
  { intros key K; destruct (isNullish sub) eqn:E.
    - rewrite !(coalesce_nullish_l sub _ E).
      rewrite !coalesce_present_l by reflexivity.
      apply prop_without, K.
    - rewrite !(coalesce_present_l sub _ E); reflexivity. }
  repeat match goal with
         | K : (?key =? k)%string = false |- _ =>
             rewrite !(G key K); clear K
         end.
  reflexivity.
Qed.

(** X6, witness: a record with a [comment] entry. *)
Lemma unrecognised_keys_are_ignored_witness :
  normalizeStation "2024-01-01T00:00:00.000Z"
    (JObject (without "comment"
                [("comment", JString "closed"); ("name", JString "A");
                 ("lat", JString "60,1"); ("lng", JString "10,2")]))
  = normalizeStation "2024-01-01T00:00:00.000Z"
      (JObject [("comment", JString "closed"); ("name", JString "A");
                ("lat", JString "60,1"); ("lng", JString "10,2")]).
Proof.
  apply (unrecognised_keys_are_ignored _ "comment"); reflexivity.
Defined.

End RecordShape.

(** ** Colours and flags *)

Section ColoursAndFlags.
Import Val App.

Lemma white_lowerChar (c : ascii) :
  Str.isWhiteSpace (Str.lowerChar c) = Str.isWhiteSpace c.
Proof. destruct c as [[] [] [] [] [] [] [] []]; vm_compute; reflexivity. Qed.

Lemma trimStart_lower (s : string) :
  Str.trimStart (Str.toLowerCase s) = Str.toLowerCase (Str.trimStart s).
Proof.
  induction s as [ | c s IH]; [reflexivity | ].
  cbn [Str.toLowerCase Str.trimStart]; rewrite white_lowerChar.
  destruct (Str.isWhiteSpace c); [exact IH | reflexivity].
Qed.

Lemma trimEnd_lower (s : string) :
  Str.trimEnd (Str.toLowerCase s) = Str.toLowerCase (Str.trimEnd s).
Proof.
  induction s as [ | c s IH]; [reflexivity | ].
  cbn [Str.toLowerCase Str.trimEnd]; rewrite IH, white_lowerChar.
  destruct (Str.trimEnd s); cbn [Str.toLowerCase];
    [destruct (Str.isWhiteSpace c) | ]; reflexivity.
Qed.

Lemma trim_lower (s : string) :
  Str.trim (Str.toLowerCase s) = Str.toLowerCase (Str.trim s).
Proof. unfold Str.trim; rewrite trimStart_lower, trimEnd_lower; reflexivity. Qed.

Lemma colorForType_string (t : string) :
  colorForType (JString t)
  = Some (if negb (t =? "")%string && knownType (Str.toLowerCase t)
          then YELLOW else RED).
Proof.
  unfold colorForType, knownType; cbn [ToBoolean ToString].
  destruct (t =? "")%string; cbn [negb andb]; [reflexivity | ].
  destruct ((Str.toLowerCase t =? "charginglocation")%string
            || (Str.toLowerCase t =? "truck")%string
            || (Str.toLowerCase t =? "selfservice")%string
            || (Str.toLowerCase t =? "wash")%string); reflexivity.
Qed.

Lemma knownType_trimmed (k : string) : knownType k = true -> Str.trim k = k.
Proof.
  unfold knownType; intros H.
  repeat (apply orb_true_iff in H; destruct H as [H | H]);
    apply String.eqb_eq in H; subst k; reflexivity.
Qed.

Lemma hiddenByType_allFlags (t : string) :
  hiddenByType allFlags (Some t) = knownType (Str.toLowerCase (Str.trim t)).
Proof.
  unfold hiddenByType, knownType; cbn [allFlags hideWash hideSelfservice hideTruck
                                       hideChargingLocation andb].
  destruct (Str.toLowerCase (Str.trim t) =? "wash")%string,
    (Str.toLowerCase (Str.trim t) =? "selfservice")%string,
    (Str.toLowerCase (Str.trim t) =? "truck")%string,
    (Str.toLowerCase (Str.trim t) =? "charginglocation")%string; reflexivity.
Qed.

(** X7: the colour and the filter agree on what a known type is, up
    to white space: a station drawn yellow for its (string) type is
    hidden when all four flags are on; and a station whose type has no
    white space around it and is hidden by the four flags is yellow.
    (The colour is decided on the type as it is, the filter on the
    trimmed type.) *)
Theorem yellow_iff_hidden_by_all_flags (t : string) :
  (colorForType (JString t) = Some YELLOW ->
   passesTypeHide allFlags (stationOfType (JString t)) = Some false)
  /\ (Str.trim t = t ->
      passesTypeHide allFlags (stationOfType (JString t)) = Some false ->
      colorForType (JString t) = Some YELLOW).
Proof.
  rewrite (passesTypeHide_coerced allFlags (stationOfType (JString t)) t
             eq_refl eq_refl).
  rewrite hiddenByType_allFlags, colorForType_string.
  split.
  - destruct (negb (t =? "")%string && knownType (Str.toLowerCase t)) eqn:E;
      [intros _ | intros K; vm_compute in K; discriminate K].
    apply andb_prop in E; destruct E as [_ E].
    rewrite <- trim_lower, (knownType_trimmed _ E), E; reflexivity.
  - intros T; rewrite T.
    destruct (knownType (Str.toLowerCase t)) eqn:E; [intros _ | discriminate].
    destruct (String.eqb_spec t "") as [-> | _]; [discriminate E | reflexivity].
Qed.

(** X7, witness: the type ["Wash"]. *)
Lemma yellow_iff_hidden_by_all_flags_witness :
  passesTypeHide allFlags (stationOfType (JString "Wash")) = Some false
  /\ colorForType (JString "Wash") = Some YELLOW.
Proof.
  split.
  - apply (proj1 (yellow_iff_hidden_by_all_flags "Wash")); reflexivity.
  - apply (proj2 (yellow_iff_hidden_by_all_flags "Wash")); reflexivity.
Defined.

Lemma lowerChar_twice (c : ascii) :
  Str.lowerChar (Str.lowerChar c) = Str.lowerChar c.
Proof. destruct c as [[] [] [] [] [] [] [] []]; vm_compute; reflexivity. Qed.

Lemma toLowerCase_twice (s : string) :
  Str.toLowerCase (Str.toLowerCase s) = Str.toLowerCase s.
Proof.
  induction s as [ | c s IH]; [reflexivity | ].
  cbn [Str.toLowerCase]; rewrite lowerChar_twice, IH; reflexivity.
Qed.

(** X26: the filter reads a type without regard to letter case and to
    white space around it: a station whose type is padded with white
    space, or lower-cased, passes or is hidden exactly as with the type
    itself. *)
Theorem filter_ignores_case_and_padding
        (f : TypeFilter) (w1 t w2 : string) :
  Str.allWhite w1 = true -> Str.allWhite w2 = true ->
  passesTypeHide f (stationOfType (JString (w1 ++ t ++ w2)))
  = passesTypeHide f (stationOfType (JString t))
  /\ passesTypeHide f (stationOfType (JString (Str.toLowerCase t)))
     = passesTypeHide f (stationOfType (JString t)).
Proof.
  intros H1 H2.
  rewrite (passesTypeHide_coerced f (stationOfType (JString (w1 ++ t ++ w2)))
             (w1 ++ t ++ w2) eq_refl eq_refl).
  rewrite (passesTypeHide_coerced f (stationOfType (JString (Str.toLowerCase t)))
             (Str.toLowerCase t) eq_refl eq_refl).
  rewrite (passesTypeHide_coerced f (stationOfType (JString t)) t eq_refl eq_refl).
  unfold hiddenByType.
  rewrite (trim_app_white w1 t w2 H1 H2), trim_lower, toLowerCase_twice.
  split; reflexivity.
Qed.

(** X26, witness: [" WASH  "] under the wash flag. *)
Lemma filter_ignores_case_and_padding_witness :
  passesTypeHide {| hideWash := true; hideSelfservice := false;
                    hideTruck := false; hideChargingLocation := false |}
                 (stationOfType (JString (" " ++ "WASH" ++ "  ")))
  = passesTypeHide {| hideWash := true; hideSelfservice := false;
                      hideTruck := false; hideChargingLocation := false |}
                   (stationOfType (JString "WASH")).
Proof.
  apply (filter_ignores_case_and_padding _ " " "WASH" "  "); reflexivity.
Defined.

(** A station passes exactly when the comparison fails for every flag
    that is on. *)
Lemma passesTypeHide_true_iff (f : TypeFilter) (n : NormalizedStation) :
  passesTypeHide f n = Some true
  <-> (hideWash f = true -> eqType (stationType n) "wash" = Some false)
      /\ (hideSelfservice f = true ->
          eqType (stationType n) "selfservice" = Some false)
      /\ (hideTruck f = true -> eqType (stationType n) "truck" = Some false)
      /\ (hideChargingLocation f = true ->
          eqType (stationType n) "charginglocation" = Some false).
Proof.
  unfold passesTypeHide, flagged.
  destruct f as [w s t c]; cbn [hideWash hideSelfservice hideTruck
                                 hideChargingLocation].
  destruct (eqType (stationType n) "wash") as [[] | ],
    (eqType (stationType n) "selfservice") as [[] | ],
    (eqType (stationType n) "truck") as [[] | ],
    (eqType (stationType n) "charginglocation") as [[] | ];
    destruct w, s, t, c; split;
    try (intros E; discriminate E);
    try (intros _; repeat split; intros E; first [reflexivity | discriminate E]);
    try reflexivity;
    intros [H1 [H2 [H3 H4]]];
    first [discriminate (H1 eq_refl) | discriminate (H2 eq_refl)
           | discriminate (H3 eq_refl) | discriminate (H4 eq_refl)].
Qed.

Lemma fewerFlags_each (f f' : TypeFilter) :
  fewerFlags f f' = true ->
  (hideWash f = true -> hideWash f' = true)
  /\ (hideSelfservice f = true -> hideSelfservice f' = true)
  /\ (hideTruck f = true -> hideTruck f' = true)
  /\ (hideChargingLocation f = true -> hideChargingLocation f' = true).
Proof.
  unfold fewerFlags; intros H.
  repeat (apply andb_prop in H; destruct H as [H ?H]).
  repeat split; intros E; rewrite E in *; cbn [implb] in *; assumption.
Qed.

(** X8: turning flags on never shows a station that was hidden: a
    station that passes a filter passes every filter with fewer flags
    on; in particular it passes the filter with no flag. *)
Theorem fewer_flags_hide_less (f f' : TypeFilter) (n : NormalizedStation) :
  fewerFlags f f' = true ->
  passesTypeHide f' n = Some true ->
  passesTypeHide f n = Some true.
Proof.
  intros L P; destruct (fewerFlags_each f f' L) as [L1 [L2 [L3 L4]]].
  apply passesTypeHide_true_iff in P; destruct P as [P1 [P2 [P3 P4]]].
  apply passesTypeHide_true_iff; repeat split; auto.
Qed.

(** X8, witness: a truck station under the wash flag, and under no
    flag. *)
Lemma fewer_flags_hide_less_witness :
  passesTypeHide noFlags (stationOfType (JString "Truck")) = Some true.
Proof.
  apply (fewer_flags_hide_less
           noFlags {| hideWash := true; hideSelfservice := false;
                      hideTruck := false; hideChargingLocation := false |}
           (stationOfType (JString "Truck"))); reflexivity.
Defined.

End ColoursAndFlags.

(** ** The first station and the markers *)

Section FirstStationAndMarkers.
Import Val App Page.

Lemma hasCoordinates_clock (now : string) (s : JSValue) :
  hasCoordinates s
  = match lat (normalizeStation now s), lng (normalizeStation now s) with
    | Some _, Some _ => true
    | _, _ => false
    end.
Proof. reflexivity. Qed.

Lemma firstValidFrom_first (clock : Clock) (items : list JSValue) (i : nat) :
  match firstValidFrom clock i items with
  | None => forallb (fun s => negb (hasCoordinates s)) items = true
  | Some n =>
      exists k s,
        nth_error items k = Some s
        /\ n = normalizeStation (clock (i + k)%nat) s
        /\ hasCoordinates s = true
        /\ forallb (fun s => negb (hasCoordinates s)) (firstn k items) = true
  end.
Proof.
  revert i; induction items as [ | s items IH]; intros i; [reflexivity | ].
  cbn [firstValidFrom forallb].
  rewrite (hasCoordinates_clock (clock i) s).
  destruct (lat (normalizeStation (clock i) s)) eqn:La;
    [destruct (lng (normalizeStation (clock i) s)) eqn:Lo | ].
  - exists 0%nat, s; rewrite Nat.add_0_r.
    rewrite (hasCoordinates_clock (clock i) s), La, Lo.
    repeat split; reflexivity.
  - specialize (IH (S i)); cbn [negb andb].
    destruct (firstValidFrom clock (S i) items) as [n | ]; [ | exact IH].
    destruct IH as [k [s' [N [E [C F]]]]].
    exists (S k), s'; rewrite Nat.add_succ_r; cbn [nth_error firstn forallb].
    rewrite (hasCoordinates_clock (clock i) s), La, Lo.
    repeat split; assumption.
  - specialize (IH (S i)); cbn [negb andb].
    destruct (firstValidFrom clock (S i) items) as [n | ]; [ | exact IH].
    destruct IH as [k [s' [N [E [C F]]]]].
    exists (S k), s'; rewrite Nat.add_succ_r; cbn [nth_error firstn forallb].
    rewrite (hasCoordinates_clock (clock i) s), La.
    repeat split; assumption.
Qed.

(** X9: [firstValidLatLng] returns the normalisation of the first
    station of the list that has both coordinates (every station before
    it lacks one), and null exactly when no station has both. *)
Theorem firstValidLatLng_is_first (clock : Clock) (items : list JSValue) :
  match firstValidLatLng clock items with
  | None => forallb (fun s => negb (hasCoordinates s)) items = true
  | Some n =>
      exists k s,
        nth_error items k = Some s
        /\ n = normalizeStation (clock k) s
        /\ hasCoordinates s = true
        /\ forallb (fun s => negb (hasCoordinates s)) (firstn k items) = true
  end.
Proof. exact (firstValidFrom_first clock items 0). Qed.

Lemma firstValidLatLng_none_all (clock : Clock) (items : list JSValue) :
  firstValidLatLng clock items = None ->
  forallb (fun s => negb (hasCoordinates s)) items = true.
Proof.
  intros E; pose proof (firstValidFrom_first clock items 0) as H.
  unfold firstValidLatLng in E; rewrite E in H; exact H.
Qed.

Lemma drawStation_no_coordinates (f : TypeFilter) (now : string) (s : JSValue) :
  hasCoordinates s = false -> drawStation f now s = Some None.
Proof.
  rewrite (hasCoordinates_clock now s); unfold drawStation; cbv zeta.
  destruct (lat (normalizeStation now s)); [ | reflexivity].
  destruct (lng (normalizeStation now s)); [discriminate | reflexivity].
Qed.

Lemma drawFrom_no_coordinates (f : TypeFilter) (clock : Clock)
      (items : list JSValue) (i : nat) :
  forallb (fun s => negb (hasCoordinates s)) items = true ->
  drawFrom f clock i items = Some [].
Proof.
  revert i; induction items as [ | s items IH]; intros i; [reflexivity | ].
  cbn [forallb drawFrom]; intros H; apply andb_prop in H; destruct H as [Hs Hi].
  apply negb_true_iff in Hs.
  rewrite (drawStation_no_coordinates f (clock i) s Hs), (IH (S i) Hi); reflexivity.
Qed.

(** X10: when there is no station to centre the map on, there is no
    marker either: the redraw returns, whatever the records hold, with an
    empty layer and the counter at 0. *)
Theorem no_first_station_no_marker (clock1 clock2 : Clock) (st : State) :
  map st <> None ->
  firstValidLatLng clock1 (stations st) = None ->
  redrawMarkers clock2 st = Some (setMarkers [] st)
  /\ visibleCount (setMarkers [] st) = 0%nat.
Proof.
  intros M F; split; [ | reflexivity].
  pose proof (firstValidLatLng_none_all clock1 (stations st)) as A.
  unfold redrawMarkers; destruct (map st); [ | contradiction M; reflexivity].
  rewrite (drawFrom_no_coordinates _ clock2 _ 0 (A F)); reflexivity.
Qed.

(** X10, witness: the page with record B alone, which has no
    latitude. *)
Lemma no_first_station_no_marker_witness :
  redrawMarkers (fun _ => "2024-01-01T00:00:05.000Z")
                (setStations [recordB] idle)
  = Some (setMarkers [] (setStations [recordB] idle))
  /\ visibleCount (setMarkers [] (setStations [recordB] idle)) = 0%nat.
Proof.
  apply (no_first_station_no_marker
           (fun _ => "2024-01-01T00:00:00.000Z")
           (fun _ => "2024-01-01T00:00:05.000Z") (setStations [recordB] idle)).
  - discriminate.
  - vm_compute; reflexivity.
Defined.

(** What a marker that was drawn tells of its station. *)
Lemma drawStation_marker (f : TypeFilter) (now : string) (s : JSValue)
      (m : Marker) :
  drawStation f now s = Some (Some m) ->
  lat (normalizeStation now s) = Some (fst (position m))
  /\ lng (normalizeStation now s) = Some (snd (position m))
  /\ passesTypeHide f (normalizeStation now s) = Some true
  /\ colorForType (stationType (normalizeStation now s)) = Some (color m).
Proof.
  unfold drawStation; cbv zeta.
  destruct (lat (normalizeStation now s)); [ | discriminate].
  destruct (lng (normalizeStation now s)); [ | discriminate].
  destruct (passesTypeHide f (normalizeStation now s)) as [[] | ]; cbn [negb];
    try discriminate.
  destruct (colorForType (stationType (normalizeStation now s))); [ | discriminate].
  destruct (bindPopup (normalizeStation now s)); [ | discriminate].
  intros E; injection E as <-; repeat split; reflexivity.
Qed.

Lemma colorForType_two (v : JSValue) (c : Color) :
  colorForType v = Some c -> c = RED \/ c = YELLOW.
Proof.
  unfold colorForType; destruct (negb (ToBoolean v));
    [intros E; injection E as <-; left; reflexivity | ].
  destruct (ToString v); [ | discriminate].
  match goal with |- context [if ?b then _ else _] => destruct b end;
    intros E; injection E as <-; [right | left]; reflexivity.
Qed.

Lemma finite_of_toNumber (v : JSValue) (x : JSNum) :
  toNumber v = Some x -> Num.isFinite x = true.
Proof.
  intros E; pose proof (toNumber_finiteOrNull v) as F.
  rewrite E in F; exact F.
Qed.

Lemma drawFrom_markers (f : TypeFilter) (clock : Clock) (items : list JSValue)
      (i : nat) (ms : list Marker) :
  drawFrom f clock i items = Some ms ->
  Forall (fun m => finitePosition m = true /\ (color m = RED \/ color m = YELLOW))
         ms.
Proof.
  revert i ms; induction items as [ | s items IH]; intros i ms.
  - intros E; injection E as <-; constructor.
  - cbn [drawFrom].
    destruct (drawStation f (clock i) s) as [r | ] eqn:D; [ | discriminate].
    destruct (drawFrom f clock (S i) items) as [rest | ] eqn:R; [ | discriminate].
    intros E; injection E as <-.
    specialize (IH _ _ R); destruct r as [m | ]; [ | exact IH].
    constructor; [ | exact IH].
    destruct (drawStation_marker _ _ _ _ D) as [La [Lo [_ C]]].
    split; [ | exact (colorForType_two _ _ C)].
    unfold finitePosition, normalizeStation in *; cbn [lat lng] in La, Lo.
    rewrite (finite_of_toNumber _ _ La), (finite_of_toNumber _ _ Lo); reflexivity.
Qed.

(** X11: every marker a redraw leaves on the map is placed at a pair
    of finite numbers (never NaN, never an infinity), and is red or
    yellow. *)
Theorem markers_are_finite_and_coloured
        (clock : Clock) (st st1 : State) (ms : list Marker) :
  map st <> None ->
  redrawMarkers clock st = Some st1 ->
  markersGroup st1 = Some ms ->
  Forall (fun m => finitePosition m = true /\ (color m = RED \/ color m = YELLOW))
         ms.
Proof.
  unfold redrawMarkers; intros M.
  destruct (map st); [ | contradiction M; reflexivity].
  destruct (drawFrom (typeFilter st) clock 0 (stations st)) as [ms' | ] eqn:D;
    [ | discriminate].
  intros E; injection E as <-; cbn [markersGroup setMarkers].
  intros E; injection E as <-.
  exact (drawFrom_markers _ _ _ _ _ D).
Qed.

(** X11, witness: the three stations loaded, one marker. *)
Lemma markers_are_finite_and_coloured_witness :
  Forall (fun m => finitePosition m = true /\ (color m = RED \/ color m = YELLOW))
         [{| position := (Fin (119 # 2), Fin (43 # 4)); color := YELLOW;
             popup := {| title := "C"; typeLine := Some "Truck";
                         updated := JString "2024-01-01T00:00:00.000Z" |} |}].
Proof.
  apply (markers_are_finite_and_coloured
           (fun _ => "2024-01-01T00:00:00.000Z") loaded
           (setMarkers
              [{| position := (Fin (119 # 2), Fin (43 # 4)); color := YELLOW;
                  popup := {| title := "C"; typeLine := Some "Truck";
                              updated := JString "2024-01-01T00:00:00.000Z" |} |}]
              loaded)).
  - discriminate.
  - vm_compute; reflexivity.
  - reflexivity.
Defined.

(** *** The counter under different filters *)

Lemma visible_hasCoordinates (f : TypeFilter) (now : string) (s : JSValue) :
  visible f now s = true -> hasCoordinates s = true.
Proof.
  rewrite (hasCoordinates_clock now s); unfold visible; cbv zeta.
  destruct (lat (normalizeStation now s)); [ | discriminate].
  destruct (lng (normalizeStation now s)); [reflexivity | discriminate].
Qed.

Lemma visible_fewerFlags (f f' : TypeFilter) (now : string) (s : JSValue) :
  fewerFlags f f' = true -> visible f' now s = true -> visible f now s = true.
Proof.
  intros L; unfold visible; cbv zeta.
  destruct (lat (normalizeStation now s)); [ | discriminate].
  destruct (lng (normalizeStation now s)); [ | discriminate].
  destruct (passesTypeHide f' (normalizeStation now s)) as [[] | ] eqn:P;
    try discriminate.
  intros _.
  destruct (fewerFlags_each f f' L) as [L1 [L2 [L3 L4]]].
  apply passesTypeHide_true_iff in P; destruct P as [P1 [P2 [P3 P4]]].
  rewrite (proj2 (passesTypeHide_true_iff f (normalizeStation now s)));
    [reflexivity | repeat split; auto].
Qed.

Lemma filter_length_mono {A : Type} (p r : A -> bool) (l : list A) :
  (forall x, p x = true -> r x = true) ->
  (List.length (filter p l) <= List.length (filter r l))%nat.
Proof.
  intros H; induction l as [ | x l IH]; [apply le_n | ].
  cbn [filter]; destruct (p x) eqn:P.
  - rewrite (H x P); cbn [List.length]; lia.
  - destruct (r x); cbn [List.length]; lia.
Qed.

(** X12: hiding more types never raises the counter: of two redraws
    of the same station list, the one under the filter with more flags
    on counts no more stations; and no redraw counts more stations than
    have both coordinates. *)
Theorem more_flags_never_raise_the_count
        (clock clock' : Clock) (f f' : TypeFilter) (st st1 st2 : State) :
  map st <> None ->
  fewerFlags f f' = true ->
  redrawMarkers clock (setTypeFilter f st) = Some st1 ->
  redrawMarkers clock' (setTypeFilter f' st) = Some st2 ->
  (visibleCount st2 <= visibleCount st1)%nat
  /\ (visibleCount st1 <= List.length (filter hasCoordinates (stations st)))%nat
  /\ (List.length (filter hasCoordinates (stations st))
      <= List.length (stations st))%nat.
Proof.
  intros M L R1 R2.
  rewrite (redraw_count_when_returns clock "" (setTypeFilter f st) st1 M R1).
  rewrite (redraw_count_when_returns clock' "" (setTypeFilter f' st) st2 M R2).
  cbn [typeFilter stations setTypeFilter].
  split; [apply filter_length_mono; intros s; apply visible_fewerFlags, L | ].
  split; [apply filter_length_mono; intros s; apply visible_hasCoordinates | ].
  apply List.filter_length_le.
Qed.

(** X12, witness: the three stations loaded, without flag and with
    the four flags. *)
Lemma more_flags_never_raise_the_count_witness :
  (0 <= 2)%nat /\ (2 <= 2)%nat /\ (2 <= 3)%nat.
Proof.
  pose (clock := fun _ : nat => "2024-01-01T00:00:00.000Z").
  pose (st1 := match redrawMarkers clock (setTypeFilter noFlags loaded) with
               | Some x => x
               | None => loaded
               end).
  pose (st2 := match redrawMarkers clock (setTypeFilter allFlags loaded) with
               | Some x => x
               | None => loaded
               end).
  assert (R1 : redrawMarkers clock (setTypeFilter noFlags loaded) = Some st1)
    by (vm_compute; reflexivity).
  assert (R2 : redrawMarkers clock (setTypeFilter allFlags loaded) = Some st2)
    by (vm_compute; reflexivity).
  assert (M : map loaded <> None) by discriminate.
  pose proof (more_flags_never_raise_the_count
                clock clock noFlags allFlags loaded st1 st2 M eq_refl R1 R2) as H.
  vm_compute in H; exact H.
Defined.

End FirstStationAndMarkers.

(** ** Toggling and resetting the flags *)

Section Toggles.
Import Val App Page.

Lemma flip_flip (key : FilterKey) (f : TypeFilter) : flip key (flip key f) = f.
Proof. destruct key, f as [[] [] [] []]; reflexivity. Qed.

(** X13: toggling the same flag twice comes back: after a toggle that
    returned, a second toggle of that flag, read at the same clock, does
    what a plain redraw of the first state does: the same filter, the
    same markers, the same counter, or the same exception. *)
Theorem toggle_twice_is_redraw
        (clock clock' : Clock) (key : FilterKey) (st st1 : State) :
  toggleType clock' key st = Some st1 ->
  toggleType clock key st1 = redrawMarkers clock st.
Proof.
  destruct st as [m mg sm sts vc f qq rs sg sl ai].
  unfold toggleType, redrawMarkers, setTypeFilter, setMarkers;
    cbn [map markersGroup searchMarker stations visibleCount typeFilter q
         results searching showList activeIndex].
  destruct m as [v | ].
  - destruct (drawFrom (flip key f) clock' 0 sts) as [ms1 | ]; [ | discriminate].
    intros E; injection E as <-.
    cbn [map markersGroup searchMarker stations visibleCount typeFilter q
         results searching showList activeIndex].
    rewrite flip_flip.
    destruct (drawFrom f clock 0 sts); reflexivity.
  - intros E; injection E as <-.
    cbn [map markersGroup searchMarker stations visibleCount typeFilter q
         results searching showList activeIndex].
    rewrite flip_flip; reflexivity.
Qed.

(** X13, witness: the truck flag, toggled twice on the three stations. *)
Lemma toggle_twice_is_redraw_witness :
  toggleType (fun _ => "2024-01-01T00:00:09.000Z") KeyTruck
    (match toggleType (fun _ => "2024-01-01T00:00:05.000Z") KeyTruck loaded with
     | Some x => x
     | None => loaded
     end)
  = redrawMarkers (fun _ => "2024-01-01T00:00:09.000Z") loaded.
Proof.
  apply (toggle_twice_is_redraw _ (fun _ => "2024-01-01T00:00:05.000Z")).
  vm_compute; reflexivity.
Defined.

Lemma visible_noFlags (now : string) (s : JSValue) :
  visible noFlags now s = hasCoordinates s.
Proof.
  rewrite (hasCoordinates_clock now s); unfold visible; cbv zeta.
  destruct (lat (normalizeStation now s)); [ | reflexivity].
  destruct (lng (normalizeStation now s)); reflexivity.
Qed.

(** X14: after a reset of the filters that returned, no flag is on and
    the counter is the number of stations that have both coordinates,
    whatever their types. *)
Theorem reset_shows_every_station_with_coordinates
        (clock : Clock) (st st1 : State) :
  map st <> None ->
  resetTypeFilters clock st = Some st1 ->
  typeFilter st1 = noFlags
  /\ visibleCount st1 = List.length (filter hasCoordinates (stations st)).
Proof.
  unfold resetTypeFilters; fold noFlags; intros M R; split.
  - revert R; unfold redrawMarkers; cbn [map typeFilter stations setTypeFilter].
    destruct (map st); [ | contradiction M; reflexivity].
    destruct (drawFrom noFlags clock 0 (stations st)); [ | discriminate].
    intros E; injection E as <-; reflexivity.
  - rewrite (redraw_count_when_returns clock "" (setTypeFilter noFlags st) st1 M R).
    cbn [typeFilter stations setTypeFilter].
    rewrite (filter_ext (visible noFlags "") hasCoordinates
               (visible_noFlags "") (stations st)); reflexivity.
Qed.

(** X14, witness: the three stations loaded under the wash flag; A and
    C have coordinates. *)
Lemma reset_shows_every_station_with_coordinates_witness :
  typeFilter (match resetTypeFilters (fun _ => "2024-01-01T00:00:05.000Z") loaded with
              | Some x => x
              | None => loaded
              end) = noFlags
  /\ visibleCount (match resetTypeFilters (fun _ => "2024-01-01T00:00:05.000Z") loaded with
                   | Some x => x
                   | None => loaded
                   end) = 2%nat.
Proof.
  apply (reset_shows_every_station_with_coordinates
           (fun _ => "2024-01-01T00:00:05.000Z") loaded).
  - discriminate.
  - vm_compute; reflexivity.
Defined.

(** X15: a redraw that returned is a fixed point: redrawing again at
    the same clock readings returns the very same state. *)
Theorem second_redraw_changes_nothing (clock : Clock) (st st1 : State) :
  redrawMarkers clock st = Some st1 -> redrawMarkers clock st1 = Some st1.
Proof.
  unfold redrawMarkers; destruct (map st) eqn:M.
  - destruct (drawFrom (typeFilter st) clock 0 (stations st)) as [ms | ] eqn:D;
      [ | discriminate].
    intros E; injection E as <-.
    cbn [map setMarkers stations typeFilter]; rewrite M, D; reflexivity.
  - intros E; injection E as <-; rewrite M; reflexivity.
Qed.

(** X15, witness: the three stations loaded. *)
Lemma second_redraw_changes_nothing_witness :
  redrawMarkers (fun _ => "2024-01-01T00:00:05.000Z")
    (match redrawMarkers (fun _ => "2024-01-01T00:00:05.000Z") loaded with
     | Some x => x
     | None => loaded
     end)
  = Some (match redrawMarkers (fun _ => "2024-01-01T00:00:05.000Z") loaded with
          | Some x => x
          | None => loaded
          end).
Proof.
  apply (second_redraw_changes_nothing _ loaded); vm_compute; reflexivity.
Defined.

End Toggles.

(** ** The result list and the keyboard *)

Section Keyboard.
Import Val App.

Lemma activeInRange_setSearch (rs : list SearchResult) (show busy : bool)
      (i : Z) (st : State) :
  match rs with
  | [] => i = -1
  | _ => 0 <= i < Z.of_nat (List.length rs)
  end ->
  activeInRange (setSearch rs show i busy st).
Proof. unfold activeInRange; cbn [results activeIndex setSearch]; trivial. Qed.

Lemma rem_next (i n : Z) : 0 <= i < n -> 0 <= Z.rem (i + 1) n < n.
Proof. intros H; apply Z.rem_bound_pos; lia. Qed.

Lemma rem_previous (i n : Z) : 0 <= i < n -> 0 <= Z.rem (i - 1 + n) n < n.
Proof. intros H; apply Z.rem_bound_pos; lia. Qed.

Lemma latLng_finite (la lo : JSNum) :
  Num.isFinite la = true -> Num.isFinite lo = true ->
  latLng la lo = Some (la, lo).
Proof. destruct la, lo; try discriminate; reflexivity. Qed.

(** A selection that returns leaves the list and its index alone. *)
Lemma selectResult_keeps_list (r : SearchResult) (st st' : State) :
  selectResult r st = Some st' ->
  results st' = results st /\ activeIndex st' = activeIndex st.
Proof.
  unfold selectResult.
  destruct (map st); [ | discriminate].
  destruct (latLng (r_lat r) (r_lon r)); [ | discriminate].
  destruct (ToString (display r)); [ | discriminate].
  match goal with
  | |- match ?v with Some _ => _ | None => _ end = _ -> _ =>
      destruct v; [ | discriminate]
  end.
  intros E; injection E as <-; split; reflexivity.
Qed.

(** X16: the active index always designates an entry of the result
    list, or is -1 when the list is empty: the page starts that way, and
    every response, every search that settles at once and every key
    keep it so. *)
Theorem active_index_stays_in_range (st : State) :
  activeInRange st ->
  (forall r st0, activeInRange (onResponse r st0))
  /\ (forall term st', runSearch term st = Settled st' -> activeInRange st')
  /\ (forall term st' url ps k,
         runSearch term st = Fetching st' url ps k -> activeInRange st')
  /\ (forall key st', onKeydown key st = Some st' -> activeInRange st').
Proof.
  intros I; split; [ | split; [ | split]].
  - intros r st0; unfold onResponse.
    destruct (parseResponse r) as [[ | x rs] | ];
      apply activeInRange_setSearch; cbn [List.length]; lia.
  - intros term st'; unfold runSearch.
    destruct ((term =? "")%string || (String.length (Str.trim term) <? 2)%nat);
      [ | discriminate].
    intros E; injection E as <-; apply activeInRange_setSearch; reflexivity.
  - intros term st' url ps k; unfold runSearch.
    destruct ((term =? "")%string || (String.length (Str.trim term) <? 2)%nat);
      [discriminate | ].
    intros E; injection E as <- _ _ _.
    unfold setSearching; apply activeInRange_setSearch; exact I.
  - intros key st'; unfold onKeydown.
    destruct (negb (showList st) || (List.length (results st) =? 0)%nat) eqn:G;
      [intros E; injection E as <-; exact I | ].
    apply orb_false_elim in G; destruct G as [_ G]; apply Nat.eqb_neq in G.
    unfold activeInRange in I.
    destruct (results st) as [ | x rs] eqn:R; [contradiction G; reflexivity | ].
    destruct key.
    + intros E; injection E as <-; apply activeInRange_setSearch.
      apply rem_next, I.
    + intros E; injection E as <-; apply activeInRange_setSearch.
      apply rem_previous, I.
    + destruct (0 <=? activeIndex st); [ | intros E; injection E as <-;
                                             unfold activeInRange; rewrite R; exact I].
      destruct (nth_error (x :: rs) (Z.to_nat (activeIndex st))) as [r | ];
        [ | discriminate].
      intros E; destruct (selectResult_keeps_list _ _ _ E) as [Er Ei].
      unfold activeInRange; rewrite Er, Ei, R; exact I.
    + intros E; injection E as <-; apply activeInRange_setSearch; exact I.
    + intros E; injection E as <-; unfold activeInRange; rewrite R; exact I.
Qed.

(** X16, witness: ArrowDown on the page with the response without
    coordinates. *)
Lemma active_index_stays_in_range_witness :
  activeInRange (match onKeydown ArrowDown afterNoCoordinates with
                 | Some x => x
                 | None => afterNoCoordinates
                 end).
Proof.
  assert (I : activeInRange afterNoCoordinates)
    by (unfold activeInRange; cbn; lia).
  apply (proj2 (proj2 (proj2 (active_index_stays_in_range afterNoCoordinates I)))
           ArrowDown).
  vm_compute; reflexivity.
Defined.

(** *** The arrows *)

Lemma next_previous (i n : Z) :
  0 <= i < n -> Z.rem (Z.rem (i + 1) n - 1 + n) n = i.
Proof.
  intros H; destruct (Z.eq_dec (i + 1) n) as [E | N].
  - rewrite E, Z.rem_same by lia.
    replace (0 - 1 + n) with i by lia; apply Z.rem_small; lia.
  - rewrite (Z.rem_small (i + 1) n) by lia.
    rewrite Z.rem_mod_nonneg by lia.
    replace (i + 1 - 1 + n) with (i + 1 * n) by lia.
    rewrite Z_mod_plus_full; apply Z.mod_small; lia.
Qed.

Lemma previous_next (i n : Z) :
  0 <= i < n -> Z.rem (Z.rem (i - 1 + n) n + 1) n = i.
Proof.
  intros H; destruct (Z.eq_dec i 0) as [E | N].
  - subst i; rewrite (Z.rem_small (0 - 1 + n) n) by lia.
    replace (0 - 1 + n + 1) with n by lia; apply Z.rem_same; lia.
  - rewrite (Z.rem_mod_nonneg (i - 1 + n) n) by lia.
    replace (i - 1 + n) with (i - 1 + 1 * n) by lia.
    rewrite Z_mod_plus_full, (Z.mod_small (i - 1) n) by lia.
    replace (i - 1 + 1) with i by lia; apply Z.rem_small; lia.
Qed.

(** X17: ArrowUp undoes ArrowDown and ArrowDown undoes ArrowUp: on a
    page whose active index is in range, the two keys in a row leave
    the page as it was (the selection wraps around at both ends). *)
Theorem arrows_undo_each_other (st : State) :
  activeInRange st ->
  (forall st1, onKeydown ArrowDown st = Some st1 -> onKeydown ArrowUp st1 = Some st)
  /\ (forall st1, onKeydown ArrowUp st = Some st1 ->
                  onKeydown ArrowDown st1 = Some st).
Proof.
  destruct st as [m mg sm sts vc f qq rs sg sl ai].
  unfold activeInRange, onKeydown, setSearch;
    cbn [map markersGroup searchMarker stations visibleCount typeFilter q
         results searching showList activeIndex].
  intros I; split; intros st1;
    (destruct (negb sl || (List.length rs =? 0)%nat) eqn:G;
     [intros E; injection E as <-;
      cbn [map markersGroup searchMarker stations visibleCount typeFilter q
           results searching showList activeIndex];
      rewrite G; reflexivity | ]);
    apply orb_false_elim in G; destruct G as [G1 G2];
    destruct rs as [ | x rs]; try discriminate G2;
    intros E; injection E as <-;
    cbn [map markersGroup searchMarker stations visibleCount typeFilter q
         results searching showList activeIndex];
    rewrite G1, G2; cbn [orb]; do 2 f_equal.
  - apply next_previous, I.
  - apply previous_next, I.
Qed.

(** X17, witness: the page with the response without coordinates. *)
Lemma arrows_undo_each_other_witness :
  onKeydown ArrowUp (match onKeydown ArrowDown afterNoCoordinates with
                     | Some x => x
                     | None => afterNoCoordinates
                     end)
  = Some afterNoCoordinates.
Proof.
  assert (I : activeInRange afterNoCoordinates)
    by (unfold activeInRange; cbn; lia).
  apply (proj1 (arrows_undo_each_other afterNoCoordinates I)).
  vm_compute; reflexivity.
Defined.

Lemma presses_closed (k : nat) (key : Key) (st : State) :
  negb (showList st) || (List.length (results st) =? 0)%nat = true ->
  presses k key st = Some st.
Proof.
  intros G; induction k as [ | k IH]; [reflexivity | ].
  cbn [presses]; unfold onKeydown at 1; rewrite G; exact IH.
Qed.

Lemma presses_down (k : nat) (m : option View) (mg : option (list Marker))
      (sm : option (JSNum * JSNum * string)) (sts : list JSValue) (vc : nat)
      (f : TypeFilter) (qq : JSValue) (x : SearchResult) (rs : list SearchResult)
      (sg : bool) (i : Z) :
  0 <= i < Z.of_nat (List.length (x :: rs)) ->
  presses k ArrowDown
          {| map := m; markersGroup := mg; searchMarker := sm; stations := sts;
             visibleCount := vc; typeFilter := f; q := qq; results := x :: rs;
             searching := sg; showList := true; activeIndex := i |}
  = Some {| map := m; markersGroup := mg; searchMarker := sm; stations := sts;
            visibleCount := vc; typeFilter := f; q := qq; results := x :: rs;
            searching := sg; showList := true;
            activeIndex := (i + Z.of_nat k) mod Z.of_nat (List.length (x :: rs)) |}.
Proof.
  revert i; induction k as [ | k IH]; intros i H.
  - cbn [presses]; rewrite Z.add_0_r, Z.mod_small by exact H; reflexivity.
  - cbn [presses]; unfold onKeydown at 1, setSearch;
      cbn [map markersGroup searchMarker stations visibleCount typeFilter q
           results searching showList activeIndex negb orb].
    change ((List.length (x :: rs) =? 0)%nat) with false; cbn iota.
    rewrite (IH _ (rem_next i _ H)); do 2 f_equal.
    rewrite Z.rem_mod_nonneg by lia.
    rewrite Zplus_mod_idemp_l; f_equal; lia.
Qed.

(** X20: the selection is circular: on a page whose active index is in
    range, ArrowDown pressed as many times as the list has results
    brings the page back to where it was. *)
Theorem arrow_down_goes_round (st : State) :
  activeInRange st ->
  presses (List.length (results st)) ArrowDown st = Some st.
Proof.
  intros I.
  destruct (negb (showList st) || (List.length (results st) =? 0)%nat) eqn:G;
    [exact (presses_closed _ _ _ G) | ].
  apply orb_false_elim in G; destruct G as [G1 G2]; apply negb_false_iff in G1.
  destruct st as [m mg sm sts vc f qq rs sg sl ai].
  unfold activeInRange in I; cbn [results activeIndex showList] in *; subst sl.
  destruct rs as [ | x rs]; [discriminate G2 | ].
  rewrite (presses_down _ m mg sm sts vc f qq x rs sg ai I); do 2 f_equal.
  replace (ai + Z.of_nat (List.length (x :: rs)))
    with (ai + 1 * Z.of_nat (List.length (x :: rs))) by lia.
  rewrite Z_mod_plus_full; apply Z.mod_small, I.
Qed.

(** X20, witness: a list of three results, the second one active. *)
Lemma arrow_down_goes_round_witness :
  presses 3 ArrowDown
          (setSearch [{| display := JString "a"; r_lat := Fin 1; r_lon := Fin 2;
                         bbox := None |};
                      {| display := JString "b"; r_lat := Fin 3; r_lon := Fin 4;
                         bbox := None |};
                      {| display := JString "c"; r_lat := Fin 5; r_lon := Fin 6;
                         bbox := None |}] true 1 false idle)
  = Some (setSearch [{| display := JString "a"; r_lat := Fin 1; r_lon := Fin 2;
                        bbox := None |};
                     {| display := JString "b"; r_lat := Fin 3; r_lon := Fin 4;
                        bbox := None |};
                     {| display := JString "c"; r_lat := Fin 5; r_lon := Fin 6;
                        bbox := None |}] true 1 false idle).
Proof.
  apply (arrow_down_goes_round
           (setSearch [{| display := JString "a"; r_lat := Fin 1; r_lon := Fin 2;
                          bbox := None |};
                       {| display := JString "b"; r_lat := Fin 3; r_lon := Fin 4;
                          bbox := None |};
                       {| display := JString "c"; r_lat := Fin 5; r_lon := Fin 6;
                          bbox := None |}] true 1 false idle)).
  unfold activeInRange; cbn; lia.
Defined.

(** *** Enter *)

(** X25: Enter selects the active entry and cannot fail on a range
    error: on a page with a map, whose list is shown, is not empty and
    has its active index in range, and whose active entry has a name
    that converts to text, finite coordinates and, if its bounding box
    has four values, finite values there, Enter hands the entry's
    position and name to the search marker, puts its name in the search
    box, closes the list, and fits the view to the entry's bounding
    box, read as south, north, west, east, when it has exactly four
    values (the view is centred on the entry at zoom 13 otherwise); the
    list, the stations and the markers stay as they are. *)
Theorem enter_selects_the_active_entry (st : State) :
  activeInRange st ->
  showList st = true ->
  results st <> [] ->
  map st <> None ->
  (forall r, activeEntry st = Some r -> selectable r = true) ->
  exists r text st',
    activeEntry st = Some r
    /\ ToString (display r) = Some text
    /\ onKeydown Enter st = Some st'
    /\ searchMarker st' = Some (r_lat r, r_lon r, text)
    /\ q st' = display r
    /\ showList st' = false
    /\ map st' = Some (match bbox r with
                       | Some [south; north; west; east] =>
                           FitBounds (south, west) (north, east) (1 # 10)
                       | _ => SetView (r_lat r, r_lon r) 13
                       end)
    /\ results st' = results st
    /\ stations st' = stations st
    /\ markersGroup st' = markersGroup st
    /\ visibleCount st' = visibleCount st.
Proof.
  intros I S N M C; unfold activeInRange in I; unfold activeEntry in *.
  destruct (results st) as [ | x rs] eqn:R; [contradiction N; reflexivity | ].
  destruct (nth_error (x :: rs) (Z.to_nat (activeIndex st))) as [r | ] eqn:E.
  - pose proof (C r eq_refl) as Cr; unfold selectable, coercible in Cr.
    apply andb_prop in Cr; destruct Cr as [Cr Fb].
    apply andb_prop in Cr; destruct Cr as [Cr Flo].
    apply andb_prop in Cr; destruct Cr as [Cr Fla].
    destruct (ToString (display r)) as [text | ] eqn:T; [ | discriminate Cr].
    exists r, text.
    unfold onKeydown; rewrite S, R; cbn [negb orb List.length Nat.eqb].
    destruct (Z.leb_spec 0 (activeIndex st)); [ | lia].
    rewrite E; unfold selectResult.
    destruct (map st); [ | contradiction M; reflexivity].
    rewrite (latLng_finite _ _ Fla Flo), T.
    unfold boxOf in Fb.
    destruct (bbox r) as [[ | south [ | north [ | west [ | east [ | ? ?]]]]] | ];
      try (eexists; repeat split; try reflexivity; exact R).
    cbn [forallb] in Fb.
    apply andb_prop in Fb; destruct Fb as [Fs Fb].
    apply andb_prop in Fb; destruct Fb as [Fn Fb].
    apply andb_prop in Fb; destruct Fb as [Fw Fb].
    apply andb_prop in Fb; destruct Fb as [Fe _].
    rewrite (latLng_finite _ _ Fs Fw), (latLng_finite _ _ Fn Fe).
    eexists; repeat split; try reflexivity; exact R.
  - apply nth_error_None in E; lia.
Qed.

(** X25, witness: the page with the response for Oslo, whose entry has
    a bounding box. *)
Lemma enter_selects_the_active_entry_witness :
  exists r text st',
    activeEntry afterOslo = Some r
    /\ ToString (display r) = Some text
    /\ onKeydown Enter afterOslo = Some st'
    /\ searchMarker st' = Some (r_lat r, r_lon r, text)
    /\ q st' = display r
    /\ showList st' = false
    /\ map st' = Some (match bbox r with
                       | Some [south; north; west; east] =>
                           FitBounds (south, west) (north, east) (1 # 10)
                       | _ => SetView (r_lat r, r_lon r) 13
                       end)
    /\ results st' = results afterOslo
    /\ stations st' = stations afterOslo
    /\ markersGroup st' = markersGroup afterOslo
    /\ visibleCount st' = visibleCount afterOslo.
Proof.
  apply (enter_selects_the_active_entry afterOslo).
  - unfold activeInRange; cbn; lia.
  - reflexivity.
  - discriminate.
  - discriminate.
  - intros r E; vm_compute in E; injection E as <-; vm_compute; reflexivity.
Defined.

(** What the witness selects: the marker at (59.5, 10.75), the view
    fitted to the box from (59, 10) to (60, 11). *)
Example enter_on_oslo :
  option_map (fun st => (searchMarker st, map st)) (onKeydown Enter afterOslo)
  = Some (Some (Fin (119 # 2), Fin (43 # 4), "Oslo"),
          Some (FitBounds (Fin 59, Fin 10) (Fin 60, Fin 11) (1 # 10))).
Proof. vm_compute; reflexivity. Qed.

(** X29: an active entry whose latitude or longitude is NaN cannot be
    selected: on a page whose list is shown, Enter raises an exception
    (the marker's constructor refuses the position), whatever else the
    entry holds. *)
Theorem enter_on_nan_entry_raises (st : State) (r : SearchResult) :
  showList st = true ->
  activeEntry st = Some r ->
  0 <= activeIndex st ->
  Num.isNaN (r_lat r) || Num.isNaN (r_lon r) = true ->
  onKeydown Enter st = None.
Proof.
  unfold activeEntry; intros S E I H; unfold onKeydown; rewrite S.
  destruct (results st) as [ | x rs] eqn:R.
  - destruct (Z.to_nat (activeIndex st)); discriminate E.
  - cbn [negb orb List.length Nat.eqb].
    destruct (Z.leb_spec 0 (activeIndex st)); [ | lia].
    rewrite E; unfold selectResult, latLng; rewrite H.
    destruct (map st); reflexivity.
Qed.

(** X29, witness: the page with the response without coordinates. *)
Lemma enter_on_nan_entry_raises_witness :
  onKeydown Enter afterNoCoordinates = None.
Proof.
  apply (enter_on_nan_entry_raises afterNoCoordinates
           {| display := JString "Oslo"; r_lat := NaN; r_lon := NaN;
              bbox := None |}); first [reflexivity | vm_compute; discriminate].
Defined.

(** *** Failures of the search *)

Lemma toResult_null (d : JSValue) : isNullish d = true -> toResult d = None.
Proof. intros H; unfold toResult, propE; rewrite H; reflexivity. Qed.

Lemma mapE_toResult_null (items : list JSValue) :
  existsb isNullish items = true -> mapE toResult items = None.
Proof.
  induction items as [ | d items IH]; [discriminate | ].
  cbn [existsb mapE]; intros H; apply orb_true_iff in H.
  destruct H as [H | H]; [rewrite (toResult_null d H); reflexivity | ].
  rewrite (IH H); destruct (toResult d); reflexivity.
Qed.

(** X18: a search that fails, whether the request is rejected, the
    response is not ok, its body is not JSON, or an entry of the array
    is null, leaves an empty, closed list with no active entry, is no
    longer searching, and touches nothing else of the page. *)
Theorem failed_search_leaves_empty_closed_list
        (r : option FetchResponse) (st : State) :
  failedSearch r = true ->
  onResponse r st = setSearch [] false (-1) false st
  /\ results (onResponse r st) = []
  /\ showList (onResponse r st) = false
  /\ searching (onResponse r st) = false
  /\ stations (onResponse r st) = stations st
  /\ markersGroup (onResponse r st) = markersGroup st
  /\ visibleCount (onResponse r st) = visibleCount st.
Proof.
  intros F.
  assert (P : parseResponse r = None).
  { unfold failedSearch in F; unfold parseResponse.
    destruct r as [resp | ]; [ | reflexivity].
    destruct (ok resp); cbn [negb orb] in *; [ | reflexivity].
    destruct (json resp) as [[ | | ? | ? | ? | items | ?] | ];
      try discriminate F; [ | reflexivity].
    exact (mapE_toResult_null items F). }
  unfold onResponse; rewrite P; repeat split; reflexivity.
Qed.

(** X18, witness: a response with status 502. *)
Lemma failed_search_leaves_empty_closed_list_witness :
  results (onResponse (Some {| ok := false; resp_status := 502; json := None |})
                      afterNoCoordinates) = []
  /\ showList (onResponse (Some {| ok := false; resp_status := 502; json := None |})
                          afterNoCoordinates) = false.
Proof.
  destruct (failed_search_leaves_empty_closed_list
              (Some {| ok := false; resp_status := 502; json := None |})
              afterNoCoordinates eq_refl) as [_ [R [S _]]].
  split; [exact R | exact S].
Defined.

(** *** From the page to the upstream service *)

(** X19: every request the search sends is forwarded: the proxy never
    answers it with the empty array, and calls the upstream service
    with the term as typed (not trimmed) and the limit 8. *)
Theorem search_requests_reach_upstream
        (term : string) (st : State) (url : string) (ps : list (string * string)) :
  requests (runSearch term st) = [(url, ps)] ->
  url = GEOCODE_ENDPOINT
  /\ Proxy.calls (Proxy.GET (asProxyRequest ps))
     = [{| Proxy.call_base := Proxy.NOMINATIM;
           Proxy.call_params := [("format", "jsonv2"); ("addressdetails", "1");
                                 ("limit", "8"); ("q", term)];
           Proxy.call_headers :=
             [("accept", "application/json");
              ("user-agent", "Unox-Map/1.0 (contact: it@unox.no)")] |}].
Proof.
  unfold runSearch.
  destruct ((term =? "")%string || (String.length (Str.trim term) <? 2)%nat) eqn:G;
    [discriminate | ].
  cbn [requests]; intros E; injection E as <- <-.
  split; [reflexivity | ].
  unfold Proxy.GET, asProxyRequest; cbn [param Proxy.req_q Proxy.req_limit].
  change (("q" =? "q")%string) with true; cbn iota.
  change (("q" =? "limit")%string) with false; cbn iota.
  change (("limit" =? "limit")%string) with true; cbn iota.
  rewrite G; reflexivity.
Qed.

(** X19, witness: the term ["Oslo S"]. *)
Lemma search_requests_reach_upstream_witness :
  GEOCODE_ENDPOINT = GEOCODE_ENDPOINT
  /\ Proxy.calls (Proxy.GET (asProxyRequest [("q", "Oslo S"); ("limit", "8")]))
     = [{| Proxy.call_base := Proxy.NOMINATIM;
           Proxy.call_params := [("format", "jsonv2"); ("addressdetails", "1");
                                 ("limit", "8"); ("q", "Oslo S")];
           Proxy.call_headers :=
             [("accept", "application/json");
              ("user-agent", "Unox-Map/1.0 (contact: it@unox.no)")] |}].
Proof.
  apply (search_requests_reach_upstream "Oslo S" idle); reflexivity.
Defined.

(** X30: the geocode proxy relays what the upstream service answered.
    For a query of two characters or more once trimmed, the handler
    awaits one upstream call; its answer raises an exception exactly
    when the upstream status is outside 200-599 or is 204, 205 or 304,
    and has otherwise the upstream's status and body, the upstream's
    content type ([application/json] when there is none) and a cache
    lifetime of 60 seconds. *)
Theorem geocode_answer_relays_upstream
        (qs : string) (limit : option string) (up : Proxy.Upstream) :
  (2 <= String.length (Str.trim qs))%nat ->
  exists c k,
    Proxy.GET {| Proxy.req_q := Some qs; Proxy.req_limit := limit |}
    = Proxy.Await c k
    /\ (k up = None
        <-> Proxy.up_status up < 200 \/ 599 < Proxy.up_status up
            \/ In (Proxy.up_status up) [204; 205; 304])
    /\ forall r, k up = Some r ->
                 r = {| Proxy.status := Proxy.up_status up;
                        Proxy.body := Proxy.up_body up;
                        Proxy.headers :=
                          [("content-type",
                            match Proxy.up_contentType up with
                            | Some ct => ct
                            | None => "application/json"
                            end);
                           ("cache-control", "public, max-age=60")] |}.
Proof.
  intros L; unfold Proxy.GET; cbn [Proxy.req_q Proxy.req_limit].
  assert (G : (qs =? "")%string || (String.length (Str.trim qs) <? 2)%nat = false).
  { apply orb_false_intro.
    - destruct qs; [cbn in L; lia | reflexivity].
    - apply Nat.ltb_ge, L. }
  rewrite G; eexists; eexists; split; [reflexivity | ].
  unfold Proxy.newResponse, Proxy.nullBodyStatus.
  set (n := Proxy.up_status up).
  destruct (Z.ltb_spec n 200), (Z.ltb_spec 599 n), (Z.eqb_spec n 101),
    (Z.eqb_spec n 103), (Z.eqb_spec n 204), (Z.eqb_spec n 205),
    (Z.eqb_spec n 304); cbn [orb In];
    (split; [split; [intros E; first [discriminate E | lia | auto 6]
                    | intros E; first [reflexivity | exfalso; lia]]
            | intros r E; first [discriminate E | injection E as <-; reflexivity]]).
Qed.

(** X30, witness: the upstream service answers 200 and 304 to the
    query ["Oslo"]. *)
Lemma geocode_answer_relays_upstream_witness :
  exists c k,
    Proxy.GET {| Proxy.req_q := Some "Oslo"; Proxy.req_limit := None |}
    = Proxy.Await c k
    /\ k {| Proxy.up_status := 200; Proxy.up_body := "[]";
            Proxy.up_contentType := None |}
       = Some {| Proxy.status := 200; Proxy.body := "[]";
                 Proxy.headers := [("content-type", "application/json");
                                   ("cache-control", "public, max-age=60")] |}
    /\ k {| Proxy.up_status := 304; Proxy.up_body := "";
            Proxy.up_contentType := None |} = None.
Proof.
  destruct (geocode_answer_relays_upstream
              "Oslo" None
              {| Proxy.up_status := 304; Proxy.up_body := "";
                 Proxy.up_contentType := None |})
    as [c [k [E _]]]; [vm_compute; lia | ].
  exists c, k; split; [exact E | ].
  injection E as <- <-; split; reflexivity.
Defined.

End Keyboard.

(** ** Loading and mounting *)

Section LoadingAndMounting.
Import Val App Page.

(** X21: an upstream failure reaches the user: when the stations proxy
    has relayed an upstream answer whose status is outside 200-299,
    the page ends the load with an empty station list, the message
    [HTTP <status> <status text>], and [loading] off; the body is not
    looked at. *)
Theorem upstream_error_reaches_the_page
        (query : list (string * string)) (up : Proxy.Upstream)
        (resp : Proxy.Response) (text : string) (decode : string -> Body)
        (p : Page) :
  StationsProxy.respond (StationsProxy.GET query) up = Some resp ->
  (Proxy.up_status up < 200 \/ 299 < Proxy.up_status up) ->
  stations (core (loadFinish (Responded (asSeenByPage text decode resp)) p)) = []
  /\ errorMsg (loadFinish (Responded (asSeenByPage text decode resp)) p)
     = "HTTP " ++ NumStr.digitsOf (Proxy.up_status up) ++ " " ++ text
  /\ loading (loadFinish (Responded (asSeenByPage text decode resp)) p) = false.
Proof.
  cbn [StationsProxy.respond StationsProxy.GET]; unfold Proxy.newResponse.
  destruct ((Proxy.up_status up <? 200) || (599 <? Proxy.up_status up)
            || Proxy.nullBodyStatus (Proxy.up_status up)); [discriminate | ].
  intros E; injection E as <-; intros S.
  assert (K : (200 <=? Proxy.up_status up) && (Proxy.up_status up <=? 299) = false).
  { destruct (Z.leb_spec 200 (Proxy.up_status up)),
      (Z.leb_spec (Proxy.up_status up) 299); cbn [andb]; try reflexivity; lia. }
  unfold loadFinish, received, asSeenByPage; cbn [l_ok l_status l_statusText
                                                   Proxy.status Proxy.body].
  rewrite K; repeat split; reflexivity.
Qed.

(** X21, witness: upstream answers 503. *)
Lemma upstream_error_reaches_the_page_witness :
  stations (core (loadFinish
                    (Responded
                       (asSeenByPage "Service Unavailable" (fun _ => NotJson None)
                          {| Proxy.status := 503; Proxy.body := "busy";
                             Proxy.headers :=
                               [("content-type", "text/plain");
                                ("cache-control", "public, max-age=60")] |}))
                    (loadStart initialPage))) = []
  /\ errorMsg (loadFinish
                 (Responded
                    (asSeenByPage "Service Unavailable" (fun _ => NotJson None)
                       {| Proxy.status := 503; Proxy.body := "busy";
                          Proxy.headers :=
                            [("content-type", "text/plain");
                             ("cache-control", "public, max-age=60")] |}))
                 (loadStart initialPage))
     = "HTTP 503 Service Unavailable"
  /\ loading (loadFinish
                (Responded
                   (asSeenByPage "Service Unavailable" (fun _ => NotJson None)
                      {| Proxy.status := 503; Proxy.body := "busy";
                         Proxy.headers :=
                           [("content-type", "text/plain");
                            ("cache-control", "public, max-age=60")] |}))
                (loadStart initialPage)) = false.
Proof.
  apply (upstream_error_reaches_the_page
           [("x", "1")]
           {| Proxy.up_status := 503; Proxy.up_body := "busy";
              Proxy.up_contentType := Some "text/plain" |}
           _ "Service Unavailable" (fun _ => NotJson None) (loadStart initialPage)).
  - reflexivity.
  - right; reflexivity.
Defined.

(** X22: whatever [fetch] gives, a load ends with [loading] off and
    never shows stations together with an error: either the error
    message is empty or the station list is; and it touches neither the
    map, the markers, the counter, the filter nor the search. *)
Theorem load_ends_with_list_or_error (o : LoadOutcome) (p : Page) :
  loading (loadFinish o (loadStart p)) = false
  /\ (errorMsg (loadFinish o (loadStart p)) = ""
      \/ stations (core (loadFinish o (loadStart p))) = [])
  /\ setStations (stations (core p)) (core (loadFinish o (loadStart p))) = core p.
Proof.
  unfold loadFinish, loadStart; cbn [core errorMsg].
  destruct (received o) as [l | m]; cbn [loading errorMsg core stations setStations];
    (split; [reflexivity | split; [auto | destruct (core p); reflexivity]]).
Qed.

(** X23: a body that is not an array and has no [items] (an object
    without that key or with a null one, null itself, a number, a text)
    is taken for the empty list: no station, and no error message. *)
Theorem body_without_items_is_an_empty_list
        (status : Z) (text : string) (raw : JSValue) (p : Page) :
  isArray raw = false ->
  isNullish (raw?."items") = true ->
  stations (core (loadFinish
                    (Responded {| l_ok := true; l_status := status;
                                  l_statusText := text; l_body := Json raw |})
                    (loadStart p))) = []
  /\ errorMsg (loadFinish
                 (Responded {| l_ok := true; l_status := status;
                               l_statusText := text; l_body := Json raw |})
                 (loadStart p)) = "".
Proof.
  intros A N.
  assert (L : stationList raw = Some []).
  { unfold stationList; rewrite (coalesce_nullish_l _ _ N).
    destruct raw; try reflexivity; discriminate A. }
  unfold loadFinish, received; cbn [l_ok l_body negb]; rewrite L.
  split; reflexivity.
Qed.

(** X23, witness: the body [{"error": "maintenance"}]. *)
Lemma body_without_items_is_an_empty_list_witness :
  stations (core (loadFinish
                    (Responded {| l_ok := true; l_status := 200;
                                  l_statusText := "OK";
                                  l_body := Json (JObject [("error",
                                                            JString "maintenance")]) |})
                    (loadStart initialPage))) = []
  /\ errorMsg (loadFinish
                 (Responded {| l_ok := true; l_status := 200;
                               l_statusText := "OK";
                               l_body := Json (JObject [("error",
                                                         JString "maintenance")]) |})
                 (loadStart initialPage)) = "".
Proof.
  apply (body_without_items_is_an_empty_list
           200 "OK" (JObject [("error", JString "maintenance")]) initialPage);
    reflexivity.
Defined.

(** *** Mounting *)

Lemma passesTypeHide_noFlags (n : NormalizedStation) :
  passesTypeHide noFlags n = Some true.
Proof. reflexivity. Qed.

(** Under no flag, the first marker drawn is that of the first station
    with coordinates. *)
Lemma drawFrom_first_marker (clock clock' : Clock) (items : list JSValue)
      (i i' : nat) (ms : list Marker) (first : NormalizedStation) :
  drawFrom noFlags clock i items = Some ms ->
  firstValidFrom clock' i' items = Some first ->
  exists m rest,
    ms = m :: rest
    /\ lat first = Some (fst (position m))
    /\ lng first = Some (snd (position m)).
Proof.
  revert i i' ms; induction items as [ | s items IH]; intros i i' ms;
    [discriminate 2 | ].
  cbn [drawFrom firstValidFrom].
  destruct (drawStation noFlags (clock i) s) as [r | ] eqn:D; [ | discriminate].
  destruct (drawFrom noFlags clock (S i) items) as [rest | ] eqn:R; [ | discriminate].
  intros E; injection E as <-.
  change (lat (normalizeStation (clock' i') s))
    with (lat (normalizeStation (clock i) s)).
  change (lng (normalizeStation (clock' i') s))
    with (lng (normalizeStation (clock i) s)).
  revert D; unfold drawStation; cbv zeta.
  rewrite passesTypeHide_noFlags; cbn [negb].
  destruct (lat (normalizeStation (clock i) s)) as [la | ] eqn:La;
    [destruct (lng (normalizeStation (clock i) s)) as [lo | ] eqn:Lo | ].
  - destruct (colorForType (stationType (normalizeStation (clock i) s)));
      [ | discriminate].
    destruct (bindPopup (normalizeStation (clock i) s)); [ | discriminate].
    intros E; injection E as <-; intros E; injection E as <-.
    eexists; eexists; split; [reflexivity | ].
    change (lat (normalizeStation (clock' i') s))
      with (lat (normalizeStation (clock i) s)).
    change (lng (normalizeStation (clock' i') s))
      with (lng (normalizeStation (clock i) s)).
    rewrite La, Lo; split; reflexivity.
  - intros E; injection E as <-; intros F; exact (IH _ _ _ R F).
  - intros E; injection E as <-; intros F; exact (IH _ _ _ R F).
Qed.

Lemma firstValidFrom_coordinates (clock : Clock) (items : list JSValue) (i : nat)
      (first : NormalizedStation) :
  firstValidFrom clock i items = Some first ->
  exists la lo, lat first = Some la /\ lng first = Some lo.
Proof.
  revert i; induction items as [ | s items IH]; intros i; [discriminate | ].
  cbn [firstValidFrom].
  destruct (lat (normalizeStation (clock i) s)) as [la | ] eqn:La;
    [destruct (lng (normalizeStation (clock i) s)) as [lo | ] eqn:Lo | ];
    try apply IH.
  intros E; injection E as <-; exists la, lo; split; assumption.
Qed.

(** X24: after mounting under no flag, the map is centred on the first
    marker: when a station of the loaded list has both coordinates, the
    view is at zoom 12 on the first such station, the ring is there, and
    the first marker of the layer is at that very position; when none
    has, the view is still (60.5, 8.5) at zoom 6, there is no ring and
    no marker. *)
Theorem mount_centres_on_first_marker
        (o : LoadOutcome) (clock1 clock2 : Clock) (p p' : Page) :
  typeFilter (core p) = noFlags ->
  initRing p = None ->
  mountFinish o clock1 clock2 (mountStart p) = Some p' ->
  match firstValidLatLng clock1 (stations (core p')) with
  | Some first =>
      exists la lo m rest,
        lat first = Some la /\ lng first = Some lo
        /\ map (core p') = Some (SetView (la, lo) 12)
        /\ initRing p' = Some (la, lo)
        /\ markersGroup (core p') = Some (m :: rest)
        /\ position m = (la, lo)
  | None =>
      map (core p') = Some (SetView (Fin (121 # 2), Fin (17 # 2)) 6)
      /\ initRing p' = None
      /\ markersGroup (core p') = Some []
      /\ visibleCount (core p') = 0%nat
  end.
Proof.
  intros F Ring; unfold mountFinish, centerOnFirstStationOnce.
  set (p0 := loadFinish o (mountStart p)).
  assert (M0 : map (core p0) = Some (SetView (Fin (121 # 2), Fin (17 # 2)) 6)).
  { unfold p0, loadFinish, mountStart, loadStart; cbn [core].
    destruct (received o); reflexivity. }
  assert (F0 : typeFilter (core p0) = noFlags).
  { unfold p0, loadFinish, mountStart, loadStart; cbn [core].
    destruct (received o); exact F. }
  assert (R0 : initRing p0 = None).
  { unfold p0, loadFinish, mountStart, loadStart; cbn [core].
    destruct (received o); exact Ring. }
  unfold firstValidLatLng.
  destruct (firstValidFrom clock1 0 (stations (core p0))) as [first | ] eqn:V.
  - destruct (firstValidFrom_coordinates _ _ _ _ V) as [la [lo [La Lo]]].
    rewrite M0, La, Lo; cbn [core].
    unfold redrawMarkers; cbn [map setView typeFilter stations]; rewrite F0.
    destruct (drawFrom noFlags clock2 0 (stations (core p0))) as [ms | ] eqn:D;
      [ | discriminate].
    intros E; injection E as <-;
      cbn [core stations map markersGroup initRing setMarkers setView].
    rewrite V.
    destruct (drawFrom_first_marker _ _ _ _ _ _ _ D V) as [m [rest [-> [Pa Po]]]].
    exists la, lo, m, rest.
    rewrite La in Pa; rewrite Lo in Po; injection Pa as Pa; injection Po as Po.
    repeat split; try reflexivity; try assumption.
    destruct (position m); cbn [fst snd] in *; subst; reflexivity.
  - unfold redrawMarkers; rewrite M0, F0.
    pose proof (firstValidFrom_first clock1 (stations (core p0)) 0) as A.
    rewrite V in A.
    rewrite (drawFrom_no_coordinates noFlags clock2 _ 0 A).
    intros E; injection E as <-;
      cbn [core stations map markersGroup initRing visibleCount setMarkers].
    rewrite V, M0, R0; repeat split; reflexivity.
Qed.

(** X24, witness: the three stations of the samples arrive as a bare
    array; the first with coordinates is A. *)
Lemma mount_centres_on_first_marker_witness :
  match firstValidLatLng (fun _ => "2024-01-01T00:00:00.000Z")
                         (stations (core mounted)) with
  | Some first =>
      exists la lo m rest,
        lat first = Some la /\ lng first = Some lo
        /\ map (core mounted) = Some (SetView (la, lo) 12)
        /\ initRing mounted = Some (la, lo)
        /\ markersGroup (core mounted) = Some (m :: rest)
        /\ position m = (la, lo)
  | None =>
      map (core mounted) = Some (SetView (Fin (121 # 2), Fin (17 # 2)) 6)
      /\ initRing mounted = None
      /\ markersGroup (core mounted) = Some []
      /\ visibleCount (core mounted) = 0%nat
  end.
Proof.
  apply (mount_centres_on_first_marker
           arrival (fun _ => "2024-01-01T00:00:00.000Z")
           (fun _ => "2024-01-01T00:00:01.000Z") initialPage mounted).
  - reflexivity.
  - reflexivity.
  - vm_compute; reflexivity.
Defined.

End LoadingAndMounting.
